(** * Espells: a shallow embedding of the lookup and suggestion core

    The development follows the TypeScript sources of the spellchecker:
    [AffixForm] and its validators, the decomposer, the compound engine,
    [Lookup.check], and the parts of [Suggest] that filter suggestions.

    JavaScript strings are modelled as [string] (one [ascii] per code
    unit), [Set<Flag>] as [gset string], optional fields as [option],
    generators as the list of the values they yield, in order.  Classes
    whose source is not part of the tree (casing, tries, regular
    expressions, conversion tables, compound rules) are carried as records
    of their methods, so every statement holds for each implementation. *)

From Stdlib Require Import ZArith String Ascii List Bool Lia.
From stdpp Require Import base gmap sets list strings.

Open Scope string_scope.
Open Scope Z_scope.

(** ** JavaScript strings *)

Module JS.

(** [s[i]]: [undefined] outside of [0 .. length-1]. *)
Definition index (s : string) (i : Z) : option ascii :=
  if i <? 0 then None else String.get (Z.to_nat i) s.

Definition len (s : string) : Z := Z.of_nat (String.length s).

(** Relative index normalisation of [String.prototype.slice]. *)
Definition clamp (n : Z) (i : Z) : Z :=
  if i <? 0 then Z.max (n + i) 0 else Z.min i n.

(** [s.slice(from, to)]; a missing [to] is the length of [s]. *)
Definition slice (s : string) (from : Z) (to : option Z) : string :=
  let n := len s in
  let a := clamp n from in
  let b := match to with Some t => clamp n t | None => n end in
  String.substring (Z.to_nat a) (Z.to_nat (Z.max (b - a) 0)) s.

(** String coercion of a possibly undefined character, as in
    [word + undefined]. *)
Definition coerce (c : option ascii) : string :=
  match c with
  | Some a => String a EmptyString
  | None => "undefined"
  end.

Definition startsWith (s p : string) : bool := String.prefix p s.

Fixpoint includes (s p : string) : bool :=
  String.prefix p s ||
  match s with
  | EmptyString => false
  | String _ s' => includes s' p
  end.

Fixpoint drop (n : nat) (s : string) : string :=
  match n, s with
  | O, _ => s
  | S n', String _ s' => drop n' s'
  | S _, EmptyString => EmptyString
  end.

(** [s.replaceAll(p, "")] for a non-empty search string; the empty
    search string leaves [s] as it is.  [fuel] bounds the scan by the
    length of [s]. *)
Fixpoint removeAll_aux (fuel : nat) (s p : string) : string :=
  match fuel with
  | O => s
  | S fuel' =>
      match s with
      | EmptyString => EmptyString
      | String c s' =>
          if String.prefix p s
          then removeAll_aux fuel' (drop (String.length p) s) p
          else String c (removeAll_aux fuel' s' p)
      end
  end.

Definition removeAll (s p : string) : string :=
  match p with
  | EmptyString => s
  | _ => removeAll_aux (String.length s) s p
  end.

Fixpoint reverse_aux (s acc : string) : string :=
  match s with
  | EmptyString => acc
  | String c s' => reverse_aux s' (String c acc)
  end.

Definition reverse (s : string) : string := reverse_aux s EmptyString.

(** Truthiness of an optional string and of an optional number. *)
Definition truthy (o : option string) : bool :=
  match o with
  | Some EmptyString => false
  | Some _ => true
  | None => false
  end.

Definition truthyZ (o : option Z) : bool :=
  match o with
  | Some n => negb (n =? 0)
  | None => false
  end.

End JS.

(** ** Flags and constants *)

Definition Flag := string.
Abbreviation Flags := (gset string).

(** [includes(flag, flags)] of [util]: an undefined flag is in no set. *)
Definition includes (flag : option Flag) (flags : Flags) : bool :=
  match flag with
  | Some f => bool_decide (f ∈ flags)
  | None => false
  end.

(** [concat] of [util] on flag sets. *)
Definition concat (a b : Flags) : Flags := a ∪ b.

Inductive CapType := NO | INIT | ALL | HUH | HUHINIT.
Inductive CompoundPos := BEGIN | MIDDLE | END.

#[global] Instance CapType_eq_dec : EqDecision CapType.
Proof. solve_decision. Defined.
#[global] Instance CompoundPos_eq_dec : EqDecision CompoundPos.
Proof. solve_decision. Defined.

(** ** Affixes ([aff/affix])

    The [Prefix] and [Suffix] classes are not part of the tree.  An affix
    is the record of its data and of the three methods the decomposer
    calls on it. *)

Module Affix.

Record t := {
  flag : Flag;                 (* the class flag *)
  crossproduct : bool;
  strip : string;
  add : string;
  flags : Flags;               (* auxiliary flags *)
  on : string -> bool;
  apply : string -> string;
  compatible : Flags -> Flags -> bool
}.

(** Modelled from the spec: [has(flag)] tests the auxiliary FlagSet, the
    "flags contributed when this affix applies"; the method itself is in
    the missing [aff/affix]. *)
Definition has (a : t) (f : option Flag) : bool := includes f (flags a).

(** Modelled from the spec: a suffix built from its table row.  [on]
    "tests surface.endsWith(add) AND that the condition matches the
    portion that would remain after strip is restored", [apply] "strips
    off add at the affix end and restores strip", [compatible] treats an
    empty required set as "any", otherwise requires an intersection, and
    wants the forbidden set disjoint. *)
Definition suffix_apply (strip add surface : string) : string :=
  JS.slice surface 0 (Some (JS.len surface - JS.len add)) ++ strip.

Definition prefix_apply (strip add surface : string) : string :=
  strip ++ JS.slice surface (JS.len add) None.

Definition endsWith (s p : string) : bool :=
  String.prefix (JS.reverse p) (JS.reverse s).

Definition compat (own required forbidden : Flags) : bool :=
  (bool_decide (required = ∅) || negb (bool_decide (own ∩ required = ∅)))
  && bool_decide (own ∩ forbidden = ∅).

Definition suffix (fl : Flag) (cross : bool) (strip add : string)
    (cond : string -> bool) (aux : Flags) : t :=
  {| flag := fl; crossproduct := cross; strip := strip; add := add;
     flags := aux;
     on := fun w => endsWith w add && cond (suffix_apply strip add w);
     apply := suffix_apply strip add;
     compatible := compat aux |}.

Definition prefix (fl : Flag) (cross : bool) (strip add : string)
    (cond : string -> bool) (aux : Flags) : t :=
  {| flag := fl; crossproduct := cross; strip := strip; add := add;
     flags := aux;
     on := fun w => JS.startsWith w add && cond (prefix_apply strip add w);
     apply := prefix_apply strip add;
     compatible := compat aux |}.

End Affix.

(** ** Dictionary words ([dic/word]) *)

Module Word.

Record t := {
  stem : string;
  capType : CapType;
  flags : option Flags;
  altSpellings : option (list string)
}.

(** [word.has(flag)]: a word without flags carries none. *)
Definition has (w : t) (f : option Flag) : bool :=
  match flags w with
  | Some fs => includes f fs
  | None => false
  end.

(** [Word.flagSets(parts)]: the flag sets of the parts that have flags
    (the inline form is in [LKWord.compoundsByRules]). *)
Definition flagSets (parts : list t) : list Flags := omap flags parts.

End Word.

(** ** Affix forms ([lookup/forms]) *)

Module AffixForm.

Record t := {
  text : string;
  stem : string;
  prefix : option Affix.t;
  suffix : option Affix.t;
  prefix2 : option Affix.t;
  suffix2 : option Affix.t;
  inDictionary : option Word.t
}.

Record Opts := {
  o_text : option string;
  o_stem : option string;
  o_prefix : option Affix.t;
  o_suffix : option Affix.t;
  o_prefix2 : option Affix.t;
  o_suffix2 : option Affix.t;
  o_inDictionary : option Word.t
}.

Definition noOpts : Opts :=
  {| o_text := None; o_stem := None; o_prefix := None; o_suffix := None;
     o_prefix2 := None; o_suffix2 := None; o_inDictionary := None |}.

(** [new AffixForm(text, stem, opts)]; an [LKWord] argument contributes
    its [word]. *)
Definition new (txt : string) (st : option string) (o : Opts) : t :=
  {| text := txt;
     stem := default txt st;
     prefix := o_prefix o;
     suffix := o_suffix o;
     prefix2 := o_prefix2 o;
     suffix2 := o_suffix2 o;
     inDictionary := o_inDictionary o |}.

(** [a ?? b] *)
Definition nullish {A} (a b : option A) : option A :=
  match a with
  | Some _ => a
  | None => b
  end.

Definition replace (f : t) (o : Opts) : t :=
  new (default (text f) (o_text o))
      (Some (default (stem f) (o_stem o)))
      {| o_text := None; o_stem := None;
         o_prefix := nullish (o_prefix o) (prefix f);
         o_suffix := nullish (o_suffix o) (suffix f);
         o_prefix2 := nullish (o_prefix2 o) (prefix2 f);
         o_suffix2 := nullish (o_suffix2 o) (suffix2 f);
         o_inDictionary := nullish (o_inDictionary o) (inDictionary f) |}.

Definition hasAffixes (f : t) : bool :=
  bool_decide (is_Some (suffix f)) || bool_decide (is_Some (prefix f)).

(** The [flags] getter. *)
Definition flags (f : t) : Flags :=
  let fl0 := default ∅ (inDictionary f ≫= Word.flags) in
  let fl1 := match prefix f with
             | Some p => concat fl0 (Affix.flags p)
             | None => fl0
             end in
  match suffix f with
  | Some s => concat fl1 (Affix.flags s)
  | None => fl1
  end.

Definition affixes (f : t) : list Affix.t :=
  omap id [prefix2 f; prefix f; suffix f; suffix2 f].

End AffixForm.

(** ** The affix description ([aff]) *)

(** Classes of [aff/] whose source is not part of the tree, each as the
    record of the methods the core calls. *)

Record Casing := {
  guess : string -> CapType;
  variants : string -> CapType * list string;
  coerce : string -> CapType -> string
}.

Record ConvTable := { conv_match : string -> string }.

(** [rule.match(flagSets, partial)] *)
Record CompoundRule := { rule_match : list Flags -> bool -> bool }.

(** [pattern.match(left, right)] *)
Record CompoundPattern := {
  pattern_match : AffixForm.t -> AffixForm.t -> bool
}.

(** [text.matchAll(pattern)]: index and length of every match. *)
Record RegExp := { matchAll : string -> list (Z * Z) }.

(** [index.segments(key)] *)
Record Trie := { segments : string -> list (list Affix.t) }.

Record RepPattern := { rep_from : string; rep_to : string }.

Module Aff.

Record t := {
  IGNORE : option (list string);
  CHECKSHARPS : bool;
  FORBIDDENWORD : option Flag;
  NOSUGGEST : option Flag;
  KEEPCASE : option Flag;
  REP : list RepPattern;
  MAXNGRAMSUGS : Z;
  PHONE : bool;                       (* whether a PHONE table is set *)
  NEEDAFFIX : option Flag;
  CIRCUMFIX : option Flag;
  COMPLEXPREFIXES : bool;
  BREAK : list RegExp;
  COMPOUNDRULE : list CompoundRule;
  COMPOUNDMIN : Z;
  COMPOUNDWORDMAX : option Z;
  COMPOUNDFLAG : option Flag;
  COMPOUNDBEGIN : option Flag;
  COMPOUNDMIDDLE : option Flag;
  COMPOUNDEND : option Flag;
  ONLYINCOMPOUND : option Flag;
  COMPOUNDPERMITFLAG : option Flag;
  COMPOUNDFORBIDFLAG : option Flag;
  FORCEUCASE : option Flag;
  CHECKCOMPOUNDCASE : bool;
  CHECKCOMPOUNDDUP : bool;
  CHECKCOMPOUNDREP : bool;
  CHECKCOMPOUNDTRIPLE : bool;
  CHECKCOMPOUNDPATTERN : list CompoundPattern;
  SIMPLIFIEDTRIPLE : bool;
  ICONV : option ConvTable;
  OCONV : option ConvTable;
  WARN : option Flag;
  FORBIDWARN : bool;
  casing : Casing;
  prefixesIndex : Trie;
  suffixesIndex : Trie
}.

(** [isSharps]: false unless [CHECKSHARPS], else whether the word holds
    a sharp s (code unit 223). *)
Definition isSharps (aff : t) (word : string) : bool :=
  if negb (CHECKSHARPS aff) then false
  else JS.includes word (String (ascii_of_nat 223) EmptyString).

End Aff.

(** Helpers of [util], [constants], [permutations] and of later revisions
    of [forms] that the tree calls but does not hold. *)
Class Externals := {
  lowercase : string -> string;
  uppercase : option ascii -> string;
  isUppercased : option ascii -> bool;
  isTriplet : string -> bool;
  NUMBER_REGEX : string -> bool;
  replchars : string -> list RepPattern -> list (string + list string);
  form_has : AffixForm.t -> option Flag -> bool
}.

(** ** The dictionary ([dic]) *)

Module Dic.

Record t := { words : list Word.t }.

Section WithExternals.
Context `{Externals}.

(** Modelled from the spec: the [Dic] index is not part of the tree.
    "Case-sensitive query hits exact matches; case-insensitive query hits
    all Words whose lowercased stem equals lowercase(stem)." *)
Definition homonyms (d : t) (stem : string) (ignorecase : bool) : list Word.t :=
  List.filter (fun w =>
                 if ignorecase
                 then String.eqb (lowercase (Word.stem w)) (lowercase stem)
                 else String.eqb (Word.stem w) stem)
              (words d).

(** Modelled from the spec: "hasFlag(stem, flag, all=false) returns
    whether any (or with all=true, all) homonym of stem carries flag".
    A stem without homonyms has no flag in either mode (the spec's
    scenario S1 accepts a word that is not itself a stem, which [check]
    could not do if such a word counted as forbidden). *)
Definition hasFlag (d : t) (stem : string) (flag : option Flag) (all : bool) : bool :=
  match homonyms d stem false with
  | [] => false
  | hs =>
      if all then forallb (fun w => Word.has w flag) hs
      else existsb (fun w => Word.has w flag) hs
  end.

(** The dictionary with one more entry. *)
Definition add (d : t) (w : Word.t) : t := {| words := words d ++ [w] |}.

End WithExternals.

End Dic.

(** ** Decomposition state ([lookup/lk-flags]) *)

Module LKFlags.

Record t := { prefix : Flags; suffix : Flags; forbidden : Flags }.

Definition new (p s f : option Flags) : t :=
  {| prefix := default ∅ p; suffix := default ∅ s; forbidden := default ∅ f |}.

Definition empty : t := new None None None.

Definition replace (this : t) (p s f : option Flags) : t :=
  new (Some (default (prefix this) p))
      (Some (default (suffix this) s))
      (Some (default (forbidden this) f)).

Definition from (p s f : Flags) : t := new (Some p) (Some s) (Some f).

End LKFlags.

(** ** Words under lookup ([lookup/lk-word]) *)

Module LKWord.

Record t := {
  aff : Aff.t;
  dic : Dic.t;
  word : string;
  type : CapType;
  pos : option CompoundPos
}.

Definition to (this : t) (w : string) (captype : option CapType) : t :=
  {| aff := aff this; dic := dic this; word := w;
     type := default (type this) captype; pos := pos this |}.

Definition shift (this : t) (p : CompoundPos) : t :=
  {| aff := aff this; dic := dic this; word := word this;
     type := type this; pos := Some p |}.

(** The assignment [w.pos = p] on a word that was just created. *)
Definition setPos (this : t) (p : CompoundPos) : t := shift this p.

Definition slice (this : t) (from : Z) (upto : option Z) : t :=
  to this (JS.slice (word this) from upto) None.

(** [add(str)] with the string that [at] returned. *)
Definition add (this : t) (c : option ascii) : t :=
  to this (word this ++ JS.coerce c) None.

Definition length (this : t) : Z := JS.len (word this).

(** [at(n)], second revision of [lk-word] (lines 488-491). *)
Definition at_ (this : t) (n : Z) : option ascii :=
  if n <? 0 then JS.index (word this) (JS.len (word this) + n)
  else JS.index (word this) n.

(** [at(n)], first revision of [lk-word] (lines 96-99). *)
Definition at_first (this : t) (n : Z) : option ascii :=
  if n <? 0 then JS.index (word this) (JS.len (word this) - n)
  else JS.index (word this) n.

End LKWord.

(** ** Form validation

    Two validators are in the tree: the method [AffixForm.valid]
    ([dic/word], lines 280-333), called by [LKWord.candidates], and the
    function [validForm] of the later [lookup/affixes], called by the
    function [candidates].  The generators above them ([affixForms],
    [compoundsByFlags], [compoundsByRules], [compoundForms],
    [isBadCompound]) exist as methods of [LKWord] and as functions of
    [lookup/compounds], with the same bodies; [Revision] says which of the
    two validators a lookup goes through. *)

Inductive Revision := Methods | Functions.

Definition isSome {A} (o : option A) : bool :=
  match o with
  | Some _ => true
  | None => false
  end.

Definition isEmpty {A} (l : list A) : bool :=
  match l with
  | [] => true
  | _ => false
  end.

(** [any(iterable)] of [util]. *)
Definition any {A} (l : list A) : bool := negb (isEmpty l).

Section Validation.
Context `{Externals}.

(** The NEEDAFFIX step of [AffixForm.valid] (lines 298-306): whether the
    form is turned down there. *)
Definition needaffixRejects (aff : Aff.t) (form : AffixForm.t) (rootFlags : Flags) : bool :=
  if JS.truthy (Aff.NEEDAFFIX aff) then
    if AffixForm.hasAffixes form then
      forallb (fun affix => Affix.has affix (Aff.NEEDAFFIX aff)) (AffixForm.affixes form)
    else includes (Aff.NEEDAFFIX aff) rootFlags
  else false.

(** The NEEDAFFIX step of [validForm] (lines 104-106). *)
Definition needaffixRejectsForm (aff : Aff.t) (form : AffixForm.t) (rootFlags : Flags) : bool :=
  if JS.truthy (Aff.NEEDAFFIX aff) then
    form_has form (Aff.NEEDAFFIX aff) || includes (Aff.NEEDAFFIX aff) rootFlags
  else false.

(** The compound-position step of [AffixForm.valid] (lines 317-332).  The
    [switch] has no [break]: every case runs the assignments of the cases
    below it. *)
Definition positionGate (aff : Aff.t) (pos : option CompoundPos) (allFlags : Flags) : bool :=
  match pos with
  | None => if negb (includes (Aff.ONLYINCOMPOUND aff) allFlags) then true else false
  | Some p =>
      if includes (Aff.COMPOUNDFLAG aff) allFlags then true
      else
        let passes := false in
        let at_end (_ : bool) := includes (Aff.COMPOUNDEND aff) allFlags in
        let at_middle (_ : bool) := at_end (includes (Aff.COMPOUNDMIDDLE aff) allFlags) in
        let at_begin (_ : bool) := at_middle (includes (Aff.COMPOUNDBEGIN aff) allFlags) in
        match p with
        | BEGIN => at_begin passes
        | MIDDLE => at_middle passes
        | END => at_end passes
        end
  end.

(** The compound-position step of [validForm] (lines 117-129): every case
    returns. *)
Definition positionGateForm (aff : Aff.t) (pos : option CompoundPos) (allFlags : Flags) : bool :=
  match pos with
  | None => if negb (includes (Aff.ONLYINCOMPOUND aff) allFlags) then true else false
  | Some p =>
      if includes (Aff.COMPOUNDFLAG aff) allFlags then true
      else
        match p with
        | BEGIN => includes (Aff.COMPOUNDBEGIN aff) allFlags
        | MIDDLE => includes (Aff.COMPOUNDMIDDLE aff) allFlags
        | END => includes (Aff.COMPOUNDEND aff) allFlags
        end
  end.

(** The steps that both validators share, up to the NEEDAFFIX step and
    from there to the position step. *)
Definition caseRejects (word : LKWord.t) (inDic : Word.t) (rootFlags : Flags) : bool :=
  bool_decide (LKWord.type word ≠ Word.capType inDic)
  && includes (Aff.KEEPCASE (LKWord.aff word)) rootFlags
  && negb (Aff.isSharps (LKWord.aff word) (Word.stem inDic)).

Definition classFlagMissing (affix : option Affix.t) (allFlags : Flags) : bool :=
  match affix with
  | Some a => negb (bool_decide (Affix.flag a ∈ allFlags))
  | None => false
  end.

Definition circumfixRejects (aff : Aff.t) (form : AffixForm.t) : bool :=
  if JS.truthy (Aff.CIRCUMFIX aff) then
    let suffixHas := match AffixForm.suffix form with
                     | Some s => Affix.has s (Aff.CIRCUMFIX aff)
                     | None => false
                     end in
    let prefixHas := match AffixForm.prefix form with
                     | Some p => Affix.has p (Aff.CIRCUMFIX aff)
                     | None => false
                     end in
    negb (Bool.eqb suffixHas prefixHas)
  else false.

(** [AffixForm.valid(word, allowNoSuggest)] *)
Definition AffixForm_valid (this : AffixForm.t) (word : LKWord.t) (allowNoSuggest : bool) : bool :=
  match AffixForm.inDictionary this with
  | None => false
  | Some inDic =>
      let aff := LKWord.aff word in
      let rootFlags := default ∅ (Word.flags inDic) in
      let allFlags := AffixForm.flags this in
      if negb allowNoSuggest && includes (Aff.NOSUGGEST aff) rootFlags then false
      else if caseRejects word inDic rootFlags then false
      else if needaffixRejects aff this rootFlags then false
      else if classFlagMissing (AffixForm.prefix this) allFlags then false
      else if classFlagMissing (AffixForm.suffix this) allFlags then false
      else if circumfixRejects aff this then false
      else positionGate aff (LKWord.pos word) allFlags
  end.

(** [validForm(form, word, allowNoSuggest)] *)
Definition validForm (form : AffixForm.t) (word : LKWord.t) (allowNoSuggest : bool) : bool :=
  match AffixForm.inDictionary form with
  | None => false
  | Some inDic =>
      let aff := LKWord.aff word in
      let rootFlags := default ∅ (Word.flags inDic) in
      let allFlags := AffixForm.flags form in
      if negb allowNoSuggest && includes (Aff.NOSUGGEST aff) rootFlags then false
      else if caseRejects word inDic rootFlags then false
      else if needaffixRejectsForm aff form rootFlags then false
      else if classFlagMissing (AffixForm.prefix form) allFlags then false
      else if classFlagMissing (AffixForm.suffix form) allFlags then false
      else if circumfixRejects aff form then false
      else positionGateForm aff (LKWord.pos word) allFlags
  end.

Definition validate (r : Revision) (form : AffixForm.t) (word : LKWord.t) (allowNoSuggest : bool) : bool :=
  match r with
  | Methods => AffixForm_valid form word allowNoSuggest
  | Functions => validForm form word allowNoSuggest
  end.

End Validation.

(** ** The decomposer ([lookup/decompose]) *)

Inductive AffixType := PREFIX | SUFFIX.

Definition opts_suffix (s : Affix.t) : AffixForm.Opts :=
  {| AffixForm.o_text := None; AffixForm.o_stem := None;
     AffixForm.o_prefix := None; AffixForm.o_suffix := Some s;
     AffixForm.o_prefix2 := None; AffixForm.o_suffix2 := None;
     AffixForm.o_inDictionary := None |}.

Definition opts_prefix (p : Affix.t) : AffixForm.Opts :=
  {| AffixForm.o_text := None; AffixForm.o_stem := None;
     AffixForm.o_prefix := Some p; AffixForm.o_suffix := None;
     AffixForm.o_prefix2 := None; AffixForm.o_suffix2 := None;
     AffixForm.o_inDictionary := None |}.

Definition opts_text_suffix2 (txt : string) (s : Affix.t) : AffixForm.Opts :=
  {| AffixForm.o_text := Some txt; AffixForm.o_stem := None;
     AffixForm.o_prefix := None; AffixForm.o_suffix := None;
     AffixForm.o_prefix2 := None; AffixForm.o_suffix2 := Some s;
     AffixForm.o_inDictionary := None |}.

Definition opts_text_prefix2 (txt : string) (p : Affix.t) : AffixForm.Opts :=
  {| AffixForm.o_text := Some txt; AffixForm.o_stem := None;
     AffixForm.o_prefix := None; AffixForm.o_suffix := None;
     AffixForm.o_prefix2 := Some p; AffixForm.o_suffix2 := None;
     AffixForm.o_inDictionary := None |}.

Definition opts_text_prefix (txt : string) (p : option Affix.t) : AffixForm.Opts :=
  {| AffixForm.o_text := Some txt; AffixForm.o_stem := None;
     AffixForm.o_prefix := p; AffixForm.o_suffix := None;
     AffixForm.o_prefix2 := None; AffixForm.o_suffix2 := None;
     AffixForm.o_inDictionary := None |}.

Definition opts_text (txt : string) : AffixForm.Opts :=
  {| AffixForm.o_text := Some txt; AffixForm.o_stem := None;
     AffixForm.o_prefix := None; AffixForm.o_suffix := None;
     AffixForm.o_prefix2 := None; AffixForm.o_suffix2 := None;
     AffixForm.o_inDictionary := None |}.

Definition opts_inDictionary (w : Word.t) : AffixForm.Opts :=
  {| AffixForm.o_text := None; AffixForm.o_stem := None;
     AffixForm.o_prefix := None; AffixForm.o_suffix := None;
     AffixForm.o_prefix2 := None; AffixForm.o_suffix2 := None;
     AffixForm.o_inDictionary := Some w |}.

(** [affixes(aff, type, word, flags, crossproduct)] *)
Definition affixes (aff : Aff.t) (type : AffixType) (word : string)
    (flags : LKFlags.t) (crossproduct : bool) : list Affix.t :=
  let isSuffix := match type with SUFFIX => true | PREFIX => false end in
  let segs := if isSuffix
              then segments (Aff.suffixesIndex aff) (JS.reverse word)
              else segments (Aff.prefixesIndex aff) word in
  let required := if isSuffix then LKFlags.suffix flags else LKFlags.prefix flags in
  flat_map
    (fun segment =>
       List.filter
         (fun affix =>
            if isSuffix && negb (negb crossproduct || Affix.crossproduct affix) then false
            else if negb (Affix.on affix word) then false
            else if negb (Affix.compatible affix required (LKFlags.forbidden flags)) then false
            else true)
         segment)
    segs.

(** [desuffix]: [self] stands for the recursive call, which the nested
    call never makes. *)
Definition desuffix_body
    (self : Aff.t -> string -> LKFlags.t -> bool -> bool -> list AffixForm.t)
    (aff : Aff.t) (word : string) (flags : LKFlags.t)
    (crossproduct nested : bool) : list AffixForm.t :=
  flat_map
    (fun suffix =>
       let stem := Affix.apply suffix word in
       AffixForm.new word (Some stem) (opts_suffix suffix)
       :: (if negb nested then
             let newFlags :=
               LKFlags.replace flags None
                 (Some (concat (Affix.flags suffix) (LKFlags.suffix flags))) None in
             map (fun form2 => AffixForm.replace form2 (opts_text_suffix2 word suffix))
                 (self aff stem newFlags crossproduct true)
           else []))
    (affixes aff SUFFIX word flags crossproduct).

Definition desuffix : Aff.t -> string -> LKFlags.t -> bool -> bool -> list AffixForm.t :=
  desuffix_body (desuffix_body (fun _ _ _ _ _ => [])).

(** [deprefix] *)
Definition deprefix_body
    (self : Aff.t -> string -> LKFlags.t -> bool -> list AffixForm.t)
    (aff : Aff.t) (word : string) (flags : LKFlags.t)
    (nested : bool) : list AffixForm.t :=
  flat_map
    (fun prefix =>
       let stem := Affix.apply prefix word in
       AffixForm.new word (Some stem) (opts_prefix prefix)
       :: (if negb nested && Aff.COMPLEXPREFIXES aff then
             let newFlags :=
               LKFlags.replace flags
                 (Some (concat (Affix.flags prefix) (LKFlags.prefix flags))) None None in
             map (fun form2 => AffixForm.replace form2 (opts_text_prefix2 word prefix))
                 (self aff stem newFlags true)
           else []))
    (affixes aff PREFIX word flags false).

Definition deprefix : Aff.t -> string -> LKFlags.t -> bool -> list AffixForm.t :=
  deprefix_body (deprefix_body (fun _ _ _ _ => [])).

(** [decompose(word, flags)] *)
Definition decompose (word : LKWord.t) (flags : LKFlags.t) : list AffixForm.t :=
  let aff := LKWord.aff word in
  let suffixAllowed :=
    bool_decide (LKWord.pos word = None) || bool_decide (LKWord.pos word = Some END)
    || negb (bool_decide (LKFlags.suffix flags = ∅)) in
  let prefixAllowed :=
    bool_decide (LKWord.pos word = None) || bool_decide (LKWord.pos word = Some BEGIN)
    || negb (bool_decide (LKFlags.prefix flags = ∅)) in
  AffixForm.new (LKWord.word word) None AffixForm.noOpts
  :: (if suffixAllowed then desuffix aff (LKWord.word word) flags false false else [])
  ++ (if prefixAllowed then
        flat_map
          (fun form =>
             form
             :: (if suffixAllowed
                    && match AffixForm.prefix form with
                       | Some p => Affix.crossproduct p
                       | None => false
                       end
                 then
                   map (fun form2 =>
                          AffixForm.replace form2
                            (opts_text_prefix (AffixForm.text form) (AffixForm.prefix form)))
                       (desuffix aff (AffixForm.stem form) flags true false)
                 else []))
          (deprefix aff (LKWord.word word) flags false)
      else []).

(** ** Affix forms of a word ([lookup/affixes], [LKWord.affixForms]) *)

Section Forms.
Context `{Externals}.

(** [hasForbidden(lkword, form, words)] *)
Definition hasForbidden (lkword : LKWord.t) (form : AffixForm.t) (words : list Word.t) : bool :=
  if negb (JS.truthy (Aff.FORBIDDENWORD (LKWord.aff lkword))) then false
  else if bool_decide (LKWord.pos lkword = None) && negb (AffixForm.hasAffixes form) then false
  else existsb (fun word => Word.has word (Aff.FORBIDDENWORD (LKWord.aff lkword))) words.

(** [candidates(word, form, allowNoSuggest, homonyms)]: the forms yielded
    and the returned [found]. *)
Definition candidates (r : Revision) (word : LKWord.t) (form : AffixForm.t)
    (allowNoSuggest : bool) (homonyms : list Word.t) : list AffixForm.t * bool :=
  let yielded :=
    List.filter (fun candidate => validate r candidate word allowNoSuggest)
      (map (fun homonym => AffixForm.replace form (opts_inDictionary homonym)) homonyms) in
  (yielded, any yielded).

(** One turn of the loop of [affixForms] over the decomposed forms:
    [None] when the generator returns at this form, else what it yields
    for the form. *)
Definition affixForms_step (r : Revision) (word : LKWord.t)
    (allowNoSuggest withForbidden : bool) (form : AffixForm.t) : option (list AffixForm.t) :=
  let aff := LKWord.aff word in
  let dic := LKWord.dic word in
  let found := false in
  let homonyms := Dic.homonyms dic (AffixForm.stem form) false in
  if any homonyms && (negb withForbidden && hasForbidden word form homonyms) then None
  else
    let '(c1, found) :=
      if any homonyms then candidates r word form allowNoSuggest homonyms
      else ([], found) in
    let '(c2, found) :=
      if bool_decide (LKWord.pos word = Some BEGIN)
         && JS.truthy (Aff.FORCEUCASE aff)
         && bool_decide (LKWord.type word = INIT)
      then candidates r word form allowNoSuggest
             (Dic.homonyms dic (lowercase (AffixForm.stem form)) true)
      else ([], found) in
    let c3 :=
      if found || negb (bool_decide (LKWord.pos word = None))
         || negb (bool_decide (LKWord.type word = ALL))
      then []
      else if bool_decide (guess (Aff.casing aff) (LKWord.word word) = NO)
      then fst (candidates r word form allowNoSuggest
                  (Dic.homonyms dic (AffixForm.stem form) true))
      else [] in
    Some (c1 ++ c2 ++ c3)%list.

Fixpoint affixForms_loop (r : Revision) (word : LKWord.t)
    (allowNoSuggest withForbidden : bool) (forms : list AffixForm.t) : list AffixForm.t :=
  match forms with
  | [] => []
  | form :: rest =>
      match affixForms_step r word allowNoSuggest withForbidden form with
      | None => []
      | Some yielded =>
          (yielded ++ affixForms_loop r word allowNoSuggest withForbidden rest)%list
      end
  end.

(** [affixForms(word, allowNoSuggest, withForbidden, flags)] *)
Definition affixForms (r : Revision) (word : LKWord.t)
    (allowNoSuggest withForbidden : bool) (flags : LKFlags.t) : list AffixForm.t :=
  affixForms_loop r word allowNoSuggest withForbidden (decompose word flags).

(** ** The compound engine ([lookup/compounds]) *)

Definition CompoundForm := list AffixForm.t.

Definition flagSet (f : option Flag) : Flags :=
  if JS.truthy f then match f with Some x => {[ x ]} | None => ∅ end else ∅.

(** The values of [pos] in [for (pos = lo; pos < hi; pos++)]. *)
Definition positions (lo hi : Z) : list Z :=
  map (fun i => lo + Z.of_nat i) (seq 0 (Z.to_nat (hi - lo))).

(** [compoundsByFlags(word, allowNoSuggest, depth)].  [fuel] bounds the
    nesting of the recursive calls. *)
Fixpoint compoundsByFlags (fuel : nat) (r : Revision) (word : LKWord.t)
    (allowNoSuggest : bool) (depth : Z) : list CompoundForm :=
  match fuel with
  | O => []
  | S fuel' =>
      let aff := LKWord.aff word in
      let forbiddenFlags := flagSet (Aff.COMPOUNDFORBIDFLAG aff) in
      let permitFlags := flagSet (Aff.COMPOUNDPERMITFLAG aff) in
      (if negb (depth =? 0) then
         map (fun form => [form])
           (affixForms r (LKWord.shift word END) allowNoSuggest false
              (LKFlags.new (Some permitFlags) None (Some forbiddenFlags)))
       else [])
      ++
      (if LKWord.length word <? Aff.COMPOUNDMIN aff * 2 then []
       else if JS.truthyZ (Aff.COMPOUNDWORDMAX aff)
               && (default 0 (Aff.COMPOUNDWORDMAX aff) <? depth) then []
       else
         let compoundpos := if negb (depth =? 0) then MIDDLE else BEGIN in
         let prefixFlags := match compoundpos with BEGIN => ∅ | _ => permitFlags end in
         flat_map
           (fun pos =>
              let beg := LKWord.setPos (LKWord.slice word 0 (Some pos)) compoundpos in
              let rest := LKWord.setPos (LKWord.slice word pos None) compoundpos in
              let flags := LKFlags.from prefixFlags permitFlags forbiddenFlags in
              flat_map
                (fun form =>
                   map (fun partial => form :: partial)
                     (compoundsByFlags fuel' r rest allowNoSuggest (depth + 1)))
                (affixForms r beg allowNoSuggest false flags)
              ++
              (if Aff.SIMPLIFIEDTRIPLE aff
                  && bool_decide (LKWord.at_ beg (-1) = LKWord.at_ rest 0)
               then
                 flat_map
                   (fun form =>
                      map (fun partial =>
                             AffixForm.replace form (opts_text (LKWord.word beg)) :: partial)
                        (compoundsByFlags fuel' r rest allowNoSuggest (depth + 1)))
                   (affixForms r (LKWord.add beg (LKWord.at_ beg (-1)))
                      allowNoSuggest false flags)
               else []))
           (positions (Aff.COMPOUNDMIN aff)
              (LKWord.length word - Aff.COMPOUNDMIN aff + 1))
      )
  end%list.

(** [compoundsByRules(word, prev, rules)] *)
Fixpoint compoundsByRules (fuel : nat) (word : LKWord.t)
    (prev : list Word.t) (rules : option (list CompoundRule)) : list CompoundForm :=
  match fuel with
  | O => []
  | S fuel' =>
      let aff := LKWord.aff word in
      let dic := LKWord.dic word in
      let rules := default (Aff.COMPOUNDRULE aff) rules in
      (if any prev then
         flat_map
           (fun homonym =>
              let parts := (prev ++ [homonym])%list in
              let flagSets := Word.flagSets parts in
              if existsb (fun rule => rule_match rule flagSets false) rules
              then [[AffixForm.new (LKWord.word word) None AffixForm.noOpts]]
              else [])
           (Dic.homonyms dic (LKWord.word word) false)
       else [])
      ++
      (if LKWord.length word <? Aff.COMPOUNDMIN aff * 2 then []
       else if JS.truthyZ (Aff.COMPOUNDWORDMAX aff)
               && (default 0 (Aff.COMPOUNDWORDMAX aff) <=? Z.of_nat (Datatypes.length prev))
       then []
       else
         flat_map
           (fun pos =>
              let beg := LKWord.slice word 0 (Some pos) in
              flat_map
                (fun homonym =>
                   let parts := (prev ++ [homonym])%list in
                   let flagSets := Word.flagSets parts in
                   let compoundRules :=
                     List.filter (fun rule => rule_match rule flagSets true) rules in
                   if any compoundRules then
                     map (fun rest =>
                            AffixForm.new (LKWord.word beg) None AffixForm.noOpts :: rest)
                       (compoundsByRules fuel' (LKWord.slice word pos None)
                          parts (Some compoundRules))
                   else [])
                (Dic.homonyms dic (LKWord.word beg) false))
           (positions (Aff.COMPOUNDMIN aff)
              (LKWord.length word - Aff.COMPOUNDMIN aff + 1)))
  end%list.

(** [any(affixForms(word.to(text)))] *)
Definition spellsAs (r : Revision) (word : LKWord.t) (text : string) : bool :=
  any (affixForms r (LKWord.to word text None) true false LKFlags.empty).

(** The callback of [some] in [isBadCompound], for the pair at [idx] of a
    compound of [n] parts. *)
Definition badPair (r : Revision) (word : LKWord.t) (n idx : Z)
    (leftParadigm rightParadigm : AffixForm.t) : bool :=
  let aff := LKWord.aff word in
  let dic := LKWord.dic word in
  let left := AffixForm.text leftParadigm in
  let right := AffixForm.text rightParadigm in
  if Dic.hasFlag dic left (Aff.COMPOUNDFORBIDFLAG aff) false then true
  else if spellsAs r word (left ++ " " ++ right) then true
  else if Aff.CHECKCOMPOUNDREP aff
          && existsb (fun candidate =>
                        match candidate with
                        | inl text => spellsAs r word text
                        | inr _ => false
                        end)
               (replchars (left ++ right) (Aff.REP aff)) then true
  else if Aff.CHECKCOMPOUNDTRIPLE aff
          && (isTriplet (JS.slice left (-2) None ++ JS.slice right 0 (Some 1))
              || isTriplet (JS.slice left (-1) None ++ JS.slice right 0 (Some 2))) then true
  else if Aff.CHECKCOMPOUNDCASE aff
          && (let rightC := JS.index right 0 in
              let leftC := JS.index left (JS.len left - 1) in
              (isUppercased rightC || isUppercased leftC)
              && negb (bool_decide (rightC = Some "-"%char))
              && negb (bool_decide (leftC = Some "-"%char))) then true
  else if any (Aff.CHECKCOMPOUNDPATTERN aff)
          && existsb (fun pattern => pattern_match pattern leftParadigm rightParadigm)
               (Aff.CHECKCOMPOUNDPATTERN aff) then true
  else if Aff.CHECKCOMPOUNDDUP aff
          && (bool_decide (left = right) && (idx =? n - 2)) then true
  else false.

Fixpoint badPairs (r : Revision) (word : LKWord.t) (n idx : Z)
    (compound : CompoundForm) : bool :=
  match compound with
  | leftParadigm :: rest =>
      match rest with
      | rightParadigm :: _ =>
          badPair r word n idx leftParadigm rightParadigm
          || badPairs r word n (idx + 1) rest
      | [] => false
      end
  | [] => false
  end.

(** [isBadCompound(word, compound)] *)
Definition isBadCompound (r : Revision) (word : LKWord.t) (compound : CompoundForm) : bool :=
  let aff := LKWord.aff word in
  let dic := LKWord.dic word in
  if JS.truthy (Aff.FORCEUCASE aff)
     && negb (bool_decide (LKWord.type word = ALL))
     && negb (bool_decide (LKWord.type word = INIT))
     && match last compound with
        | Some part => Dic.hasFlag dic (AffixForm.text part) (Aff.FORCEUCASE aff) false
        | None => false
        end
  then true
  else badPairs r word (Z.of_nat (Datatypes.length compound)) 0 compound.

(** Nesting of the compound generators never exceeds the length of the
    word when [COMPOUNDMIN] is positive, as every call works on a proper
    suffix of the word of its caller. *)
Definition compoundFuel (word : LKWord.t) : nat := S (String.length (LKWord.word word)).

(** [compoundForms(word, allowNoSuggest)] *)
Definition compoundForms (r : Revision) (word : LKWord.t) (allowNoSuggest : bool) : list CompoundForm :=
  let aff := LKWord.aff word in
  if JS.truthy (Aff.FORBIDDENWORD aff)
     && existsb (fun candidate => includes (Aff.FORBIDDENWORD aff) (AffixForm.flags candidate))
          (affixForms r word true true LKFlags.empty)
  then []
  else
    ((if JS.truthy (Aff.COMPOUNDBEGIN aff) || JS.truthy (Aff.COMPOUNDFLAG aff) then
        List.filter (fun compound => negb (isBadCompound r word compound))
          (compoundsByFlags (compoundFuel word) r word allowNoSuggest 0)
      else [])
     ++
     (if any (Aff.COMPOUNDRULE aff) then
        List.filter (fun compound => negb (isBadCompound r word compound))
          (compoundsByRules (compoundFuel word) word [] None)
      else []))%list.

End Forms.

(** ** Breaking words ([lookup/decompose]) *)

(** [breakWord(aff, text, depth)], with [budget = 11 - depth] calls left
    before [depth > 10]. *)
Fixpoint breakWord_budget (budget : nat) (aff : Aff.t) (text : string) : list (list string) :=
  match budget with
  | O => []
  | S budget' =>
      List.filter (fun s => negb (String.eqb s "")) [text]
      :: flat_map
           (fun pattern =>
              flat_map
                (fun m =>
                   let start := JS.slice text 0 (Some (fst m)) in
                   let rest := JS.slice text (fst m + snd m) None in
                   map (fun breaking =>
                          List.filter (fun s => negb (String.eqb s "")) (start :: breaking))
                     (breakWord_budget budget' aff rest))
                (matchAll pattern text))
           (Aff.BREAK aff)
  end.

Definition breakWord (aff : Aff.t) (text : string) (depth : nat) : list (list string) :=
  breakWord_budget (11 - depth) aff text.

(** ** Lookup ([lookup/index]) *)

Module Lookup.

Record t := { aff : Aff.t; dic : Dic.t }.

Record LookupResult := { correct : bool; forbidden : bool; warn : bool }.

Record LKC := {
  caps : option bool;
  allowNoSuggest : option bool;
  affixForms : option bool;
  compoundForms : option bool
}.

End Lookup.

Definition WordForm : Type := AffixForm.t + CompoundForm.

Section LookupMethods.
Context `{Externals}.

(** [Lookup.isWarn(stem)] *)
Definition isWarn (this : Lookup.t) (stem : string) : bool :=
  Dic.hasFlag (Lookup.dic this) stem (Aff.WARN (Lookup.aff this)) true.

(** [Lookup.isForbidden(stem)] *)
Definition isForbidden (this : Lookup.t) (stem : string) : bool :=
  Dic.hasFlag (Lookup.dic this) stem (Aff.FORBIDDENWORD (Lookup.aff this)) true
  || (Aff.FORBIDWARN (Lookup.aff this)
      && Dic.hasFlag (Lookup.dic this) stem (Aff.WARN (Lookup.aff this)) true).

(** The test of [Lookup.forms] that skips an affix form. *)
Definition sharpsSkip (this : Lookup.t) (captype : CapType) (lkword : LKWord.t)
    (form : AffixForm.t) : bool :=
  match AffixForm.inDictionary form with
  | Some inDic =>
      bool_decide (captype = ALL)
      && includes (Aff.KEEPCASE (Lookup.aff this)) (AffixForm.flags form)
      && Aff.isSharps (Lookup.aff this) (Word.stem inDic)
      && Aff.isSharps (Lookup.aff this) (LKWord.word lkword)
  | None => false
  end.

(** [Lookup.forms(word, lkc)] *)
Definition forms (r : Revision) (this : Lookup.t) (word : string) (lkc : Lookup.LKC) : list WordForm :=
  let caps := default true (Lookup.caps lkc) in
  let allowNoSuggest := default true (Lookup.allowNoSuggest lkc) in
  let withAffixForms := default true (Lookup.affixForms lkc) in
  let withCompoundForms := default true (Lookup.compoundForms lkc) in
  let '(captype, variants) :=
    if caps then variants (Aff.casing (Lookup.aff this)) word
    else (guess (Aff.casing (Lookup.aff this)) word, [word]) in
  let lkword :=
    {| LKWord.aff := Lookup.aff this; LKWord.dic := Lookup.dic this;
       LKWord.word := word; LKWord.type := captype; LKWord.pos := None |} in
  flat_map
    (fun variant =>
       let word := LKWord.to lkword variant None in
       ((if withAffixForms then
           map inl
             (List.filter (fun form => negb (sharpsSkip this captype lkword form))
                (affixForms r word allowNoSuggest false LKFlags.empty))
         else [])
        ++
        (if withCompoundForms then map inr (compoundForms r word allowNoSuggest) else []))%list)
    variants.

(** [Lookup.correct(word, lkc)] *)
Definition correct (r : Revision) (this : Lookup.t) (word : string) (lkc : Lookup.LKC) : bool :=
  any (forms r this word lkc).

(** The word after [ICONV] and [IGNORE], as [check] and [stems] make it. *)
Definition preprocess (this : Lookup.t) (word : string) : string :=
  let word := match Aff.ICONV (Lookup.aff this) with
              | Some table => conv_match table word
              | None => word
              end in
  match Aff.IGNORE (Lookup.aff this) with
  | Some chars => fold_left (fun w ch => JS.removeAll w ch) chars word
  | None => word
  end.

(** [Lookup.check(word, caps, allowNoSuggest)] *)
Definition check (r : Revision) (this : Lookup.t) (word : string)
    (caps allowNoSuggest : bool) : Lookup.LookupResult :=
  let forbidden := isForbidden this word in
  let warn := isWarn this word in
  if forbidden
  then {| Lookup.correct := false; Lookup.forbidden := forbidden; Lookup.warn := warn |}
  else
    let word := preprocess this word in
    if NUMBER_REGEX word
    then {| Lookup.correct := true; Lookup.forbidden := forbidden; Lookup.warn := warn |}
    else if existsb
              (fun words =>
                 forallb
                   (fun word =>
                      correct r this word
                        {| Lookup.caps := Some caps;
                           Lookup.allowNoSuggest := Some allowNoSuggest;
                           Lookup.affixForms := None;
                           Lookup.compoundForms := None |})
                   words)
              (breakWord (Lookup.aff this) word 0)
    then {| Lookup.correct := true; Lookup.forbidden := forbidden; Lookup.warn := warn |}
    else {| Lookup.correct := false; Lookup.forbidden := forbidden; Lookup.warn := warn |}.

End LookupMethods.

(** ** Suggestions ([suggest]) *)

Inductive SuggestionKind :=
  | K_FORCEUCASE | K_CASE | K_UPPERCASE | K_REPLCHARS | K_MAPCHARS
  | K_SPACEWORD | K_SWAPCHAR | K_LONGSWAPCHAR | K_BADCHARKEY | K_EXTRACHAR
  | K_FORGOTCHAR | K_MOVECHAR | K_BADCHAR | K_DOUBLETWOCHARS | K_TWOWORDS
  | K_DASHES | K_NGRAM | K_PHONET.

Module Suggestion.

Record t := { text : string; kind : SuggestionKind }.

Definition replace (this : t) (txt : option string) (k : option SuggestionKind) : t :=
  {| text := default (text this) txt; kind := default (kind this) k |}.

End Suggestion.

(** Modelled from the spec: [ScoresList] of the missing [suggest/scores],
    "a bounded top-N container: add(score, payload) inserts only if better
    than the current worst of the top N". *)
Module ScoresList.

Record t (A : Type) := { capacity : nat; entries : list (Z * A) }.
Arguments capacity {A} _.
Arguments entries {A} _.

Definition new {A} (n : nat) : t A := {| capacity := n; entries := [] |}.

Fixpoint insert {A} (score : Z) (payload : A) (l : list (Z * A)) : list (Z * A) :=
  match l with
  | [] => [(score, payload)]
  | (s, p) :: rest =>
      if s <? score then (score, payload) :: l
      else (s, p) :: insert score payload rest
  end.

Definition add {A} (this : t A) (score : Z) (payload : A) : t A :=
  {| capacity := capacity this;
     entries := take (capacity this) (insert score payload (entries this)) |}.

End ScoresList.

Module NgramSuggestionBuilder.

Record t := {
  misspelling : string;
  known : gset string;
  maxDiff : Z;
  onlyMaxDiff : bool;
  hasPhonetic : bool;
  roots : ScoresList.t Word.t
}.

Section Step.
(** [rootScore] of the missing [suggest/scores]. *)
Variable rootScore : string -> string -> Z.

(** [step(word)] *)
Definition step (this : t) (word : Word.t) : t :=
  if 4 <? Z.abs (JS.len (Word.stem word) - JS.len (misspelling this)) then this
  else
    let score := rootScore (misspelling this) (Word.stem word) in
    let score :=
      match Word.altSpellings word with
      | Some variants =>
          fold_left (fun score variant => Z.max score (rootScore (misspelling this) variant))
            variants score
      | None => score
      end in
    {| misspelling := misspelling this; known := known this;
       maxDiff := maxDiff this; onlyMaxDiff := onlyMaxDiff this;
       hasPhonetic := hasPhonetic this;
       roots := ScoresList.add (roots this) score word |}.

End Step.

End NgramSuggestionBuilder.

Module Suggest.

Record t := {
  aff : Aff.t;
  dic : Dic.t;
  lookup : Lookup.t;
  ngramWords : list Word.t
}.

(** The [badFlags] of the constructor. *)
Definition badFlags (aff : Aff.t) : Flags :=
  flagSet (Aff.FORBIDDENWORD aff) ∪ flagSet (Aff.NOSUGGEST aff)
  ∪ flagSet (Aff.ONLYINCOMPOUND aff).

(** [new Suggest(aff, dic, lookup)] *)
Definition new (aff : Aff.t) (dic : Dic.t) (lookup : Lookup.t) : t :=
  {| aff := aff; dic := dic; lookup := lookup;
     ngramWords :=
       List.filter
         (fun word =>
            match Word.flags word with
            | None => true
            | Some flags => bool_decide (flags ∩ badFlags aff = ∅)
            end)
         (Dic.words dic) |}.

(** The loop of [suggestions] that feeds the two builders (lines
    298-301); a builder that is [null] is left out. *)
Definition stepBuilders {N P : Type} (stepN : N -> Word.t -> N) (stepP : P -> Word.t -> P)
    (this : t) (ngram : option N) (phonet : option P) : option N * option P :=
  fold_left
    (fun builders word =>
       (match fst builders with Some b => Some (stepN b word) | None => None end,
        match snd builders with Some b => Some (stepP b word) | None => None end))
    (ngramWords this) (ngram, phonet).

End Suggest.

Section Handler.
Context `{Externals}.

(** [Suggest.correct(word, compounds)] *)
Definition Suggest_correct (r : Revision) (this : Suggest.t) (word : string)
    (compounds : option bool) : bool :=
  correct r (Suggest.lookup this) word
    {| Lookup.caps := Some false;
       Lookup.allowNoSuggest := Some false;
       Lookup.affixForms := Some (negb (default false compounds));
       Lookup.compoundForms := compounds |}.

(** [text.indexOf(" ")] *)
Fixpoint indexOfSpace (s : string) : Z :=
  match s with
  | EmptyString => -1
  | String c s' =>
      if Ascii.eqb c " "%char then 0
      else let i := indexOfSpace s' in if i <? 0 then -1 else i + 1
  end.

(** [Suggest.handle(word, captype, handled, suggestion, checkInclusion)]:
    the suggestion it returns, if any, and the [handled] set afterwards. *)
Definition handle (this : Suggest.t) (word : string) (captype : CapType)
    (handled : gset string) (suggestion : Suggestion.t) (checkInclusion : bool)
    : option Suggestion.t * gset string :=
  let aff := Suggest.aff this in
  let text := Suggestion.text suggestion in
  let text :=
    if negb (Dic.hasFlag (Suggest.dic this) text (Aff.KEEPCASE aff) false)
       || Aff.isSharps aff text
    then
      let text := coerce (Aff.casing aff) text captype in
      let text :=
        if negb (String.eqb text (Suggestion.text suggestion))
           && isForbidden (Suggest.lookup this) text
        then Suggestion.text suggestion else text in
      if bool_decide (captype = HUH) || bool_decide (captype = HUHINIT) then
        let pos := indexOfSpace text in
        if negb (pos =? -1) then
          match JS.index word pos with
          | Some c =>
              if negb (bool_decide (JS.index text (pos + 1) = Some c))
                 && String.eqb (uppercase (JS.index text (pos + 1))) (String c EmptyString)
              then JS.slice text 0 (Some (pos + 1)) ++ String c EmptyString
                   ++ JS.slice word (pos + 2) None
              else text
          | None => text
          end
        else text
      else text
    else text in
  if isForbidden (Suggest.lookup this) text then (None, handled)
  else
    let text := match Aff.OCONV aff with
                | Some table => conv_match table text
                | None => text
                end in
    if bool_decide (text ∈ handled) then (None, handled)
    else if checkInclusion
            && existsb (fun prev => JS.includes (lowercase text) (lowercase prev))
                 (elements handled)
    then (None, handled)
    else (Some (Suggestion.replace suggestion (Some text) None), {[ text ]} ∪ handled).

End Handler.

(** ** A small ASCII engine for the examples *)

Module Fixture.

Definition isUpper (c : ascii) : bool :=
  let n := nat_of_ascii c in (Nat.leb 65 n && Nat.leb n 90)%nat.

Definition isLower (c : ascii) : bool :=
  let n := nat_of_ascii c in (Nat.leb 97 n && Nat.leb n 122)%nat.

Definition lowerChar (c : ascii) : ascii :=
  if isUpper c then ascii_of_nat (nat_of_ascii c + 32) else c.

Definition upperChar (c : ascii) : ascii :=
  if isLower c then ascii_of_nat (nat_of_ascii c - 32) else c.

Fixpoint mapString (f : ascii -> ascii) (s : string) : string :=
  match s with
  | EmptyString => EmptyString
  | String c s' => String (f c) (mapString f s')
  end.

Fixpoint allChars (f : ascii -> bool) (s : string) : bool :=
  match s with
  | EmptyString => true
  | String c s' => f c && allChars f s'
  end.

Definition isDigit (c : ascii) : bool :=
  let n := nat_of_ascii c in (Nat.leb 48 n && Nat.leb n 57)%nat.

Definition externals : Externals :=
  {| lowercase := mapString lowerChar;
     uppercase := fun c => match c with
                           | Some a => String (upperChar a) EmptyString
                           | None => EmptyString
                           end;
     isUppercased := fun c => match c with Some a => isUpper a | None => false end;
     isTriplet := fun s => match s with
                           | String a (String b (String c EmptyString)) =>
                               Ascii.eqb a b && Ascii.eqb b c
                           | _ => false
                           end;
     NUMBER_REGEX := fun s => negb (String.eqb s "") && allChars isDigit s;
     replchars := fun _ _ => [];
     form_has := fun form flag => includes flag (AffixForm.flags form) |}.

(** Modelled from the spec: "guess(s) -> CapType by first-letter and
    all-letter case inspection"; "variants(s) yields the original plus
    lowercased and (for HUH/HUHINIT) alternate forms". *)
Definition guessCase (s : string) : CapType :=
  match s with
  | EmptyString => NO
  | String c rest =>
      if allChars (fun x => negb (isUpper x)) s then NO
      else if allChars (fun x => negb (isLower x)) s then ALL
      else if isUpper c
           then if allChars (fun x => negb (isUpper x)) rest then INIT else HUHINIT
           else HUH
  end.

Definition lowerFirst (s : string) : string :=
  match s with
  | EmptyString => EmptyString
  | String c rest => String (lowerChar c) rest
  end.

Definition caseVariants (s : string) : CapType * list string :=
  let lower := mapString lowerChar s in
  match guessCase s with
  | NO => (NO, [s])
  | INIT => (INIT, [s; lower])
  | HUHINIT => (HUHINIT, [s; lowerFirst s])
  | HUH => (HUH, [s])
  | ALL => (ALL, [s; lower;
                  match lower with
                  | EmptyString => EmptyString
                  | String c rest => String (upperChar c) rest
                  end])
  end.

Definition casing : Casing :=
  {| guess := guessCase; variants := caseVariants; coerce := fun s _ => s |}.

(** Modelled from the spec: "segments(s) yields, for each prefix of s,
    the set stored at the node reached by that prefix"; the index is the
    list of its keys with their sets. *)
Fixpoint prefixesOf (s : string) : list string :=
  EmptyString ::
  match s with
  | EmptyString => []
  | String c s' => map (String c) (prefixesOf s')
  end.

Definition trie (table : list (string * list Affix.t)) : Trie :=
  {| segments := fun key =>
       flat_map (fun p =>
                   map snd (List.filter (fun entry => String.eqb (fst entry) p) table))
         (prefixesOf key) |}.

(** The matches of a literal pattern, of [^literal] and of [literal$]. *)
Fixpoint occurrences (fuel : nat) (at_ : Z) (p s : string) : list (Z * Z) :=
  match fuel with
  | O => []
  | S fuel' =>
      match s with
      | EmptyString => []
      | String _ s' =>
          if String.prefix p s
          then (at_, JS.len p)
               :: occurrences fuel' (at_ + JS.len p) p (JS.drop (String.length p) s)
          else occurrences fuel' (at_ + 1) p s'
      end
  end.

Definition literal (p : string) : RegExp :=
  {| matchAll := fun s => occurrences (String.length s) 0 p s |}.

Definition anchoredStart (p : string) : RegExp :=
  {| matchAll := fun s => if String.prefix p s then [(0, JS.len p)] else [] |}.

Definition anchoredEnd (p : string) : RegExp :=
  {| matchAll := fun s =>
       if Affix.endsWith s p then [(JS.len s - JS.len p, JS.len p)] else [] |}.

(** The default [BREAK] set: [^-], [-], [-$]. *)
Definition DEFAULT_BREAK : list RegExp :=
  [anchoredStart "-"; literal "-"; anchoredEnd "-"].

(** An affix description with the defaults of the [Aff] class, but for
    the directives given. *)
Definition aff (FORBIDDENWORD NOSUGGEST NEEDAFFIX COMPOUNDFLAG COMPOUNDBEGIN
    COMPOUNDMIDDLE COMPOUNDEND : option Flag) (COMPOUNDMIN : Z)
    (SIMPLIFIEDTRIPLE : bool) (suffixes : list (string * list Affix.t)) : Aff.t :=
  {| Aff.IGNORE := None; Aff.CHECKSHARPS := false;
     Aff.FORBIDDENWORD := FORBIDDENWORD;
     Aff.NOSUGGEST := NOSUGGEST; Aff.KEEPCASE := None; Aff.REP := [];
     Aff.MAXNGRAMSUGS := 4; Aff.PHONE := false;
     Aff.NEEDAFFIX := NEEDAFFIX; Aff.CIRCUMFIX := None;
     Aff.COMPLEXPREFIXES := false;
     Aff.BREAK := DEFAULT_BREAK; Aff.COMPOUNDRULE := [];
     Aff.COMPOUNDMIN := COMPOUNDMIN;
     Aff.COMPOUNDWORDMAX := None; Aff.COMPOUNDFLAG := COMPOUNDFLAG;
     Aff.COMPOUNDBEGIN := COMPOUNDBEGIN; Aff.COMPOUNDMIDDLE := COMPOUNDMIDDLE;
     Aff.COMPOUNDEND := COMPOUNDEND;
     Aff.ONLYINCOMPOUND := None; Aff.COMPOUNDPERMITFLAG := None;
     Aff.COMPOUNDFORBIDFLAG := None; Aff.FORCEUCASE := None;
     Aff.CHECKCOMPOUNDCASE := false; Aff.CHECKCOMPOUNDDUP := false;
     Aff.CHECKCOMPOUNDREP := false; Aff.CHECKCOMPOUNDTRIPLE := false;
     Aff.CHECKCOMPOUNDPATTERN := []; Aff.SIMPLIFIEDTRIPLE := SIMPLIFIEDTRIPLE;
     Aff.ICONV := None; Aff.OCONV := None; Aff.WARN := None; Aff.FORBIDWARN := false;
     Aff.casing := casing; Aff.prefixesIndex := trie [];
     Aff.suffixesIndex := trie suffixes |}.

Definition entry (stem : string) (flags : option Flags) : Word.t :=
  {| Word.stem := stem; Word.capType := guessCase stem;
     Word.flags := flags; Word.altSpellings := None |}.

End Fixture.

(** ** Example engines *)

Module Examples.
Import Fixture.

Definition lkword (a : Aff.t) (d : Dic.t) (w : string) (p : option CompoundPos) : LKWord.t :=
  {| LKWord.aff := a; LKWord.dic := d; LKWord.word := w;
     LKWord.type := guessCase w; LKWord.pos := p |}.

(** [FORBIDDENWORD F] with the entry [foo/F]. *)
Definition forbidden_aff : Aff.t :=
  aff (Some "F") None None None None None None 3 false [].

Definition forbidden_lookup : Lookup.t :=
  {| Lookup.aff := forbidden_aff;
     Lookup.dic := {| Dic.words := [entry "foo" (Some {["F"]})] |} |}.

(** [FORBIDDENWORD F] with the homonyms [foo/F] and [foo]. *)
Definition homonym_lookup : Lookup.t :=
  {| Lookup.aff := forbidden_aff;
     Lookup.dic := {| Dic.words := [entry "foo" (Some {["F"]}); entry "foo" None] |} |}.

Definition homonym_suggest : Suggest.t :=
  Suggest.new (Lookup.aff homonym_lookup) (Lookup.dic homonym_lookup) homonym_lookup.

(** [COMPOUNDFLAG C], [COMPOUNDMIN 3] with [foo/C] and [bar/C]; the word
    added afterwards is the pair [foo bar]. *)
Definition compound_aff : Aff.t :=
  aff None None None (Some "C") None None None 3 false [].

Definition compound_dic : Dic.t :=
  {| Dic.words := [entry "foo" (Some {["C"]}); entry "bar" (Some {["C"]})] |}.

Definition compound_lookup : Lookup.t :=
  {| Lookup.aff := compound_aff; Lookup.dic := compound_dic |}.

Definition pair_word : Word.t := entry "foo bar" None.

Definition compound_lookup_added : Lookup.t :=
  {| Lookup.aff := compound_aff; Lookup.dic := Dic.add compound_dic pair_word |}.

(** [SIMPLIFIEDTRIPLE], [COMPOUNDMIN 2] with [all/C] and [lot/C]: the
    surface [allot] stands for [all] + [lot]. *)
Definition triple_aff : Aff.t :=
  aff None None None (Some "C") None None None 2 true [].

Definition triple_dic : Dic.t :=
  {| Dic.words := [entry "all" (Some {["C"]}); entry "lot" (Some {["C"]})] |}.

Definition allot : LKWord.t := lkword triple_aff triple_dic "allot" None.

Definition part (txt stem : string) : AffixForm.t :=
  {| AffixForm.text := txt; AffixForm.stem := stem;
     AffixForm.prefix := None; AffixForm.suffix := None;
     AffixForm.prefix2 := None; AffixForm.suffix2 := None;
     AffixForm.inDictionary := Some (entry stem (Some {["C"]})) |}.

(** [COMPOUNDBEGIN B], [COMPOUNDMIDDLE M], [COMPOUNDEND E] with [foo/B],
    looked up as the first part of a compound. *)
Definition position_aff : Aff.t :=
  aff None None None None (Some "B") (Some "M") (Some "E") 3 false [].

Definition begin_word : LKWord.t :=
  lkword position_aff {| Dic.words := [entry "foo" (Some {["B"]})] |} "foo" (Some BEGIN).

Definition begin_form : AffixForm.t :=
  {| AffixForm.text := "foo"; AffixForm.stem := "foo";
     AffixForm.prefix := None; AffixForm.suffix := None;
     AffixForm.prefix2 := None; AffixForm.suffix2 := None;
     AffixForm.inDictionary := Some (entry "foo" (Some {["B"]})) |}.

(** [NEEDAFFIX X] and [SFX A 0 s .] with [foo/XA]: the form [foo] + [s]
    of the surface [foos]. *)
Definition suffix_s : Affix.t := Affix.suffix "A" true "" "s" (fun _ => true) ∅.

Definition needaffix_aff : Aff.t :=
  aff None None (Some "X") None None None None 3 false [("s", [suffix_s])].

Definition needaffix_dic : Dic.t :=
  {| Dic.words := [entry "foo" (Some {["X"; "A"]})] |}.

Definition foos : LKWord.t := lkword needaffix_aff needaffix_dic "foos" None.

Definition foos_form : AffixForm.t :=
  {| AffixForm.text := "foos"; AffixForm.stem := "foo";
     AffixForm.prefix := None; AffixForm.suffix := Some suffix_s;
     AffixForm.prefix2 := None; AffixForm.suffix2 := None;
     AffixForm.inDictionary := Some (entry "foo" (Some {["X"; "A"]})) |}.

Definition foo_form : AffixForm.t :=
  {| AffixForm.text := "foo"; AffixForm.stem := "foo";
     AffixForm.prefix := None; AffixForm.suffix := None;
     AffixForm.prefix2 := None; AffixForm.suffix2 := None;
     AffixForm.inDictionary := Some (entry "foo" (Some {["X"; "A"]})) |}.

(** [FORBIDDENWORD F], [NOSUGGEST N] with four entries, two of them
    unsuitable as suggestions. *)
Definition ngram_aff : Aff.t :=
  aff (Some "F") (Some "N") None None None None None 3 false [].

Definition ngram_dic : Dic.t :=
  {| Dic.words := [entry "foo" None; entry "bar" (Some {["F"]});
                   entry "baz" (Some {["N"; "A"]}); entry "qux" (Some {["A"]})] |}.

Definition ngram_suggest : Suggest.t :=
  Suggest.new ngram_aff ngram_dic {| Lookup.aff := ngram_aff; Lookup.dic := ngram_dic |}.

(** [COMPOUNDBEGIN B], [COMPOUNDEND E] with [foo/B] and [bar/E]. *)
Definition begin_end_lookup : Lookup.t :=
  {| Lookup.aff := aff None None None None (Some "B") None (Some "E") 3 false [];
     Lookup.dic := {| Dic.words := [entry "foo" (Some {["B"]}); entry "bar" (Some {["E"]})] |} |}.

Definition needaffix_lookup : Lookup.t :=
  {| Lookup.aff := needaffix_aff; Lookup.dic := needaffix_dic |}.

(** [SFX A Y 1], [SFX A 0 s .] with [hello/A] (scenario S1 of the
    specification); the word added afterwards is [world]. *)
Definition hello_aff : Aff.t :=
  aff None None None None None None None 3 false [("s", [suffix_s])].

Definition hello_lookup : Lookup.t :=
  {| Lookup.aff := hello_aff;
     Lookup.dic := {| Dic.words := [entry "hello" (Some {["A"]})] |} |}.

Definition world : Word.t := entry "world" None.

(** An n-gram builder for the misspelling [fop], with a stand-in for
    [rootScore]. *)
Definition rootScore (misspelling stem : string) : Z :=
  if String.eqb (JS.slice misspelling 0 (Some 1)) (JS.slice stem 0 (Some 1)) then 1 else 0.

Definition ngram_builder : NgramSuggestionBuilder.t :=
  {| NgramSuggestionBuilder.misspelling := "fop";
     NgramSuggestionBuilder.known := ∅;
     NgramSuggestionBuilder.maxDiff := 1;
     NgramSuggestionBuilder.onlyMaxDiff := false;
     NgramSuggestionBuilder.hasPhonetic := false;
     NgramSuggestionBuilder.roots := ScoresList.new 100 |}.

Definition abc : LKWord.t := lkword (aff None None None None None None None 3 false [])
                               {| Dic.words := [] |} "abc" None.

End Examples.

(** ** Vocabulary of the statements *)

Definition affixFlags (a : option Affix.t) : Flags :=
  match a with
  | Some x => Affix.flags x
  | None => ∅
  end.

Definition positionFlag (aff : Aff.t) (p : CompoundPos) : option Flag :=
  match p with
  | BEGIN => Aff.COMPOUNDBEGIN aff
  | MIDDLE => Aff.COMPOUNDMIDDLE aff
  | END => Aff.COMPOUNDEND aff
  end.


(** The flags that make a word unsuitable as a suggestion root. *)
Definition unsuitableFlags (aff : Aff.t) : list (option Flag) :=
  [Aff.FORBIDDENWORD aff; Aff.NOSUGGEST aff; Aff.ONLYINCOMPOUND aff].

(** A word carries none of those flags that are configured. *)
Definition suitable (aff : Aff.t) (w : Word.t) : Prop :=
  forall f, In f (unsuitableFlags aff) -> JS.truthy f = true -> Word.has w f = false.

(** What [OCONV] makes of a text. *)
Definition converted (aff : Aff.t) (text : string) : string :=
  match Aff.OCONV aff with
  | Some table => conv_match table text
  | None => text
  end.

(** The concatenation of the [text] fields of the parts of a compound. *)
Definition surface (compound : CompoundForm) : string :=
  fold_right (fun part rest => (AffixForm.text part ++ rest)%string) EmptyString compound.

(** The roots of the n-gram builder, if there is one, are suitable words. *)
Definition rootsSuitable (aff : Aff.t) (builders : option NgramSuggestionBuilder.t * option unit) : Prop :=
  match fst builders with
  | Some b =>
      Forall (fun e => suitable aff (snd e))
        (ScoresList.entries (NgramSuggestionBuilder.roots b))
  | None => True
  end.

(** The homonyms of a text do not all carry FORBIDDENWORD: there is none,
    or one of them is free of it. *)
Definition someHomonymFree `{Externals} (this : Lookup.t) (text : string) : Prop :=
  let homonyms := Dic.homonyms (Lookup.dic this) text false in
  homonyms = []
  \/ exists h, In h homonyms /\ Word.has h (Aff.FORBIDDENWORD (Lookup.aff this)) = false.

(** A word under lookup, seen against another dictionary. *)
Definition withDic (word : LKWord.t) (d : Dic.t) : LKWord.t :=
  {| LKWord.aff := LKWord.aff word; LKWord.dic := d; LKWord.word := LKWord.word word;
     LKWord.type := LKWord.type word; LKWord.pos := LKWord.pos word |}.

(** The options of [check], and the same with compound forms left out. *)
Definition lkcOfCheck (caps allowNoSuggest : bool) : Lookup.LKC :=
  {| Lookup.caps := Some caps; Lookup.allowNoSuggest := Some allowNoSuggest;
     Lookup.affixForms := None; Lookup.compoundForms := None |}.

Definition lkcAffixOnly (caps allowNoSuggest : bool) : Lookup.LKC :=
  {| Lookup.caps := Some caps; Lookup.allowNoSuggest := Some allowNoSuggest;
     Lookup.affixForms := None; Lookup.compoundForms := Some false |}.

(** [check] accepts the word without the help of a compound form: the
    word is not forbidden, and it is a number or has a BREAK split whose
    parts all have an affix form. *)
Definition acceptedByAffixForms `{Externals} (r : Revision) (this : Lookup.t)
    (word : string) (caps allowNoSuggest : bool) : bool :=
  negb (isForbidden this word)
  && (NUMBER_REGEX (preprocess this word)
      || existsb
           (fun words =>
              forallb (fun w => correct r this w (lkcAffixOnly caps allowNoSuggest)) words)
           (breakWord (Lookup.aff this) (preprocess this word) 0)).

(** ** Further methods of the tree *)

(** [words.join(separator)] *)
Fixpoint join (separator : string) (words : list string) : string :=
  match words with
  | [] => EmptyString
  | w :: rest =>
      match rest with
      | [] => w
      | _ => (w ++ separator ++ join separator rest)%string
      end
  end.

Module MultiWordSuggestion.

Record t := { words : list string; kind : SuggestionKind; allowDash : bool }.

(** [stringify(separator)], the separator defaulting to a space. *)
Definition stringify (this : t) (separator : option string) : Suggestion.t :=
  {| Suggestion.text := join (default " " separator) (words this);
     Suggestion.kind := kind this |}.

End MultiWordSuggestion.

Section MoreMethods.
Context `{Externals}.

(** [Lookup.stems(word, lkc)] *)
Definition stems (r : Revision) (this : Lookup.t) (word : string) (lkc : Lookup.LKC) : list string :=
  let word := preprocess this word in
  flat_map
    (fun form =>
       match form with
       | inr compound => map AffixForm.stem compound
       | inl form => [AffixForm.stem form]
       end)
    (forms r this word lkc).

(** [Suggest.filter(suggestions, compounds)] *)
Definition Suggest_filter (r : Revision) (this : Suggest.t)
    (suggestions : list (Suggestion.t + MultiWordSuggestion.t))
    (compounds : option bool) : list Suggestion.t :=
  flat_map
    (fun suggestion =>
       match suggestion with
       | inr multi =>
           if forallb (fun word => Suggest_correct r this word compounds)
                (MultiWordSuggestion.words multi)
           then MultiWordSuggestion.stringify multi None
                :: (if MultiWordSuggestion.allowDash multi
                    then [MultiWordSuggestion.stringify multi (Some "-")]
                    else [])
           else []
       | inl suggestion =>
           if Suggest_correct r this (Suggestion.text suggestion) compounds
           then [suggestion]
           else []
       end)
    suggestions.

(** The chain [.map(handle).filter(defined).take(limit)] of
    [Suggest.edits] over the filtered candidates, for a limit that is a
    natural number: the suggestions yielded and the [handled] set
    afterwards.  Once [limit] suggestions are out, no further candidate is
    handled. *)
Fixpoint handleAll (this : Suggest.t) (word : string) (captype : CapType)
    (handled : gset string) (candidates : list Suggestion.t) (limit : nat)
    : list Suggestion.t * gset string :=
  match limit with
  | O => ([], handled)
  | S limit' =>
      match candidates with
      | [] => ([], handled)
      | suggestion :: rest =>
          match handle this word captype handled suggestion false with
          | (Some emitted, handled') =>
              let '(more, handled'') := handleAll this word captype handled' rest limit' in
              (emitted :: more, handled'')
          | (None, handled') => handleAll this word captype handled' rest limit
          end
      end
  end.

(** [Suggest.edits(word, handle, limit, compounds)], given what
    [permutations(word)] yields (the permutators are not part of the
    tree); [original] and [captype] are those the handler was made for. *)
Definition edits (r : Revision) (this : Suggest.t) (original : string) (captype : CapType)
    (handled : gset string) (permutations : list (Suggestion.t + MultiWordSuggestion.t))
    (limit : nat) (compounds : option bool) : list Suggestion.t * gset string :=
  handleAll this original captype handled
    (Suggest_filter r this permutations compounds) limit.

End MoreMethods.

(** [NgramSuggestionBuilder.filterGuesses(guesses)], from the state
    [seen], [found] of its loop on. *)
Fixpoint filterGuesses_from (this : NgramSuggestionBuilder.t) (seen : bool) (found : Z)
    (guesses : list (Z * string)) : list string :=
  match guesses with
  | [] => []
  | (score, value) :: rest =>
      if seen && (score <=? 1000) then []
      else
        let verdict :=
          if 1000 <? score then Some true
          else if score <? -100 then
            if (0 <? found) || NgramSuggestionBuilder.onlyMaxDiff this then None
            else Some true
          else Some seen in
        match verdict with
        | None => []
        | Some seen =>
            if negb (existsb (fun word => JS.includes word value)
                       (elements (NgramSuggestionBuilder.known this)))
            then value :: filterGuesses_from this seen (found + 1) rest
            else filterGuesses_from this seen found rest
        end
  end.

Definition filterGuesses (this : NgramSuggestionBuilder.t) (guesses : list (Z * string)) : list string :=
  filterGuesses_from this false 0 guesses.

(** ** Further vocabulary *)

Definition noPrefix (f : AffixForm.t) : Prop :=
  AffixForm.prefix f = None /\ AffixForm.prefix2 f = None.

Definition noSuffix (f : AffixForm.t) : Prop :=
  AffixForm.suffix f = None /\ AffixForm.suffix2 f = None.

(** The identity decomposition of a text. *)
Definition identityForm (text : string) : AffixForm.t :=
  AffixForm.new text None AffixForm.noOpts.

(** [form] holds COMPOUNDFLAG or the flag of the position [p]. *)
Definition carries (aff : Aff.t) (p : CompoundPos) (form : AffixForm.t) : bool :=
  includes (Aff.COMPOUNDFLAG aff) (AffixForm.flags form)
  || includes (positionFlag aff p) (AffixForm.flags form).

Section CompoundVocabulary.
Context `{Externals}.

(** The position of the left pieces that [compoundsByFlags] cuts at a
    depth, and the flags it decomposes them under. *)
Definition leftPos (depth : Z) : CompoundPos :=
  if negb (depth =? 0) then MIDDLE else BEGIN.

Definition leftFlags (aff : Aff.t) (depth : Z) : LKFlags.t :=
  LKFlags.from
    (match leftPos depth with
     | BEGIN => ∅
     | _ => flagSet (Aff.COMPOUNDPERMITFLAG aff)
     end)
    (flagSet (Aff.COMPOUNDPERMITFLAG aff))
    (flagSet (Aff.COMPOUNDFORBIDFLAG aff)).

Definition endFlags (aff : Aff.t) : LKFlags.t :=
  LKFlags.new (Some (flagSet (Aff.COMPOUNDPERMITFLAG aff))) None
    (Some (flagSet (Aff.COMPOUNDFORBIDFLAG aff))).

(** [form] is a first part that [compoundsByFlags] yields for the cut of
    [word] at [pos]: an affix form of the left piece, or, under
    SIMPLIFIEDTRIPLE, one of the piece with its last letter doubled, given
    the text of the piece. *)
Definition leftPiece (r : Revision) (word : LKWord.t) (allowNoSuggest : bool)
    (depth pos : Z) (form : AffixForm.t) : Prop :=
  let beg := LKWord.setPos (LKWord.slice word 0 (Some pos)) (leftPos depth) in
  let flags := leftFlags (LKWord.aff word) depth in
  In form (affixForms r beg allowNoSuggest false flags)
  \/ exists longer,
      In longer (affixForms r (LKWord.add beg (LKWord.at_ beg (-1))) allowNoSuggest false flags)
      /\ form = AffixForm.replace longer (opts_text (LKWord.word beg)).

End CompoundVocabulary.

(** ** Further example engines *)

Module MoreExamples.
Import Fixture.

(** The defaults with [IGNORE -]. *)
Definition ignore_aff : Aff.t :=
  {| Aff.IGNORE := Some ["-"]; Aff.CHECKSHARPS := false;
     Aff.FORBIDDENWORD := None;
     Aff.NOSUGGEST := None; Aff.KEEPCASE := None; Aff.REP := [];
     Aff.MAXNGRAMSUGS := 4; Aff.PHONE := false;
     Aff.NEEDAFFIX := None; Aff.CIRCUMFIX := None;
     Aff.COMPLEXPREFIXES := false;
     Aff.BREAK := DEFAULT_BREAK; Aff.COMPOUNDRULE := [];
     Aff.COMPOUNDMIN := 3;
     Aff.COMPOUNDWORDMAX := None; Aff.COMPOUNDFLAG := None;
     Aff.COMPOUNDBEGIN := None; Aff.COMPOUNDMIDDLE := None;
     Aff.COMPOUNDEND := None;
     Aff.ONLYINCOMPOUND := None; Aff.COMPOUNDPERMITFLAG := None;
     Aff.COMPOUNDFORBIDFLAG := None; Aff.FORCEUCASE := None;
     Aff.CHECKCOMPOUNDCASE := false; Aff.CHECKCOMPOUNDDUP := false;
     Aff.CHECKCOMPOUNDREP := false; Aff.CHECKCOMPOUNDTRIPLE := false;
     Aff.CHECKCOMPOUNDPATTERN := []; Aff.SIMPLIFIEDTRIPLE := false;
     Aff.ICONV := None; Aff.OCONV := None; Aff.WARN := None; Aff.FORBIDWARN := false;
     Aff.casing := casing; Aff.prefixesIndex := trie [];
     Aff.suffixesIndex := trie [] |}.

Definition ignore_lookup : Lookup.t :=
  {| Lookup.aff := ignore_aff; Lookup.dic := {| Dic.words := [] |} |}.

(** [WARN W] and [FORBIDWARN] with the entry [foo/W]. *)
Definition warn_aff : Aff.t :=
  {| Aff.IGNORE := None; Aff.CHECKSHARPS := false;
     Aff.FORBIDDENWORD := None;
     Aff.NOSUGGEST := None; Aff.KEEPCASE := None; Aff.REP := [];
     Aff.MAXNGRAMSUGS := 4; Aff.PHONE := false;
     Aff.NEEDAFFIX := None; Aff.CIRCUMFIX := None;
     Aff.COMPLEXPREFIXES := false;
     Aff.BREAK := DEFAULT_BREAK; Aff.COMPOUNDRULE := [];
     Aff.COMPOUNDMIN := 3;
     Aff.COMPOUNDWORDMAX := None; Aff.COMPOUNDFLAG := None;
     Aff.COMPOUNDBEGIN := None; Aff.COMPOUNDMIDDLE := None;
     Aff.COMPOUNDEND := None;
     Aff.ONLYINCOMPOUND := None; Aff.COMPOUNDPERMITFLAG := None;
     Aff.COMPOUNDFORBIDFLAG := None; Aff.FORCEUCASE := None;
     Aff.CHECKCOMPOUNDCASE := false; Aff.CHECKCOMPOUNDDUP := false;
     Aff.CHECKCOMPOUNDREP := false; Aff.CHECKCOMPOUNDTRIPLE := false;
     Aff.CHECKCOMPOUNDPATTERN := []; Aff.SIMPLIFIEDTRIPLE := false;
     Aff.ICONV := None; Aff.OCONV := None; Aff.WARN := Some "W"; Aff.FORBIDWARN := true;
     Aff.casing := casing; Aff.prefixesIndex := trie [];
     Aff.suffixesIndex := trie [] |}.

Definition warn_lookup : Lookup.t :=
  {| Lookup.aff := warn_aff;
     Lookup.dic := {| Dic.words := [entry "foo" (Some {["W"]})] |} |}.

(** An affix description with some more directives set. *)
Definition tune (a : Aff.t) (KEEPCASE ONLYINCOMPOUND COMPOUNDFORBIDFLAG : option Flag)
    (COMPOUNDWORDMAX : option Z) (CHECKCOMPOUNDDUP : bool) : Aff.t :=
  {| Aff.IGNORE := Aff.IGNORE a; Aff.CHECKSHARPS := Aff.CHECKSHARPS a;
     Aff.FORBIDDENWORD := Aff.FORBIDDENWORD a;
     Aff.NOSUGGEST := Aff.NOSUGGEST a; Aff.KEEPCASE := KEEPCASE; Aff.REP := Aff.REP a;
     Aff.MAXNGRAMSUGS := Aff.MAXNGRAMSUGS a; Aff.PHONE := Aff.PHONE a;
     Aff.NEEDAFFIX := Aff.NEEDAFFIX a; Aff.CIRCUMFIX := Aff.CIRCUMFIX a;
     Aff.COMPLEXPREFIXES := Aff.COMPLEXPREFIXES a;
     Aff.BREAK := Aff.BREAK a; Aff.COMPOUNDRULE := Aff.COMPOUNDRULE a;
     Aff.COMPOUNDMIN := Aff.COMPOUNDMIN a;
     Aff.COMPOUNDWORDMAX := COMPOUNDWORDMAX; Aff.COMPOUNDFLAG := Aff.COMPOUNDFLAG a;
     Aff.COMPOUNDBEGIN := Aff.COMPOUNDBEGIN a; Aff.COMPOUNDMIDDLE := Aff.COMPOUNDMIDDLE a;
     Aff.COMPOUNDEND := Aff.COMPOUNDEND a;
     Aff.ONLYINCOMPOUND := ONLYINCOMPOUND;
     Aff.COMPOUNDPERMITFLAG := Aff.COMPOUNDPERMITFLAG a;
     Aff.COMPOUNDFORBIDFLAG := COMPOUNDFORBIDFLAG; Aff.FORCEUCASE := Aff.FORCEUCASE a;
     Aff.CHECKCOMPOUNDCASE := Aff.CHECKCOMPOUNDCASE a;
     Aff.CHECKCOMPOUNDDUP := CHECKCOMPOUNDDUP;
     Aff.CHECKCOMPOUNDREP := Aff.CHECKCOMPOUNDREP a;
     Aff.CHECKCOMPOUNDTRIPLE := Aff.CHECKCOMPOUNDTRIPLE a;
     Aff.CHECKCOMPOUNDPATTERN := Aff.CHECKCOMPOUNDPATTERN a;
     Aff.SIMPLIFIEDTRIPLE := Aff.SIMPLIFIEDTRIPLE a;
     Aff.ICONV := Aff.ICONV a; Aff.OCONV := Aff.OCONV a;
     Aff.WARN := Aff.WARN a; Aff.FORBIDWARN := Aff.FORBIDWARN a;
     Aff.casing := Aff.casing a; Aff.prefixesIndex := Aff.prefixesIndex a;
     Aff.suffixesIndex := Aff.suffixesIndex a |}.

(** The surface [foobar] under [COMPOUNDFLAG C] with [foo/C] and [bar/C]. *)
Definition foobar : LKWord.t :=
  Examples.lkword Examples.compound_aff Examples.compound_dic "foobar" None.

(** The same with [COMPOUNDWORDMAX 1], and a surface of three parts. *)
Definition wordmax_aff : Aff.t := tune Examples.compound_aff None None None (Some 1) false.

Definition foobarfoo : LKWord.t :=
  Examples.lkword wordmax_aff Examples.compound_dic "foobarfoo" None.

(** [COMPOUNDFLAG C] and the suffix [s] with [foo/C] and [bar/CA]. *)
Definition foobars : LKWord.t :=
  Examples.lkword (aff None None None (Some "C") None None None 3 false
                     [("s", [Examples.suffix_s])])
    {| Dic.words := [entry "foo" (Some {["C"]}); entry "bar" (Some {["C"; "A"]})] |}
    "foobars" None.

Definition bars_form : AffixForm.t :=
  {| AffixForm.text := "bars"; AffixForm.stem := "bar";
     AffixForm.prefix := None; AffixForm.suffix := Some Examples.suffix_s;
     AffixForm.prefix2 := None; AffixForm.suffix2 := None;
     AffixForm.inDictionary := Some (entry "bar" (Some {["C"; "A"]})) |}.

(** [COMPOUNDBEGIN B], [COMPOUNDEND E] with [foo/B] and [bar/E]. *)
Definition foobar_positions : LKWord.t :=
  Examples.lkword (Lookup.aff Examples.begin_end_lookup)
    (Lookup.dic Examples.begin_end_lookup) "foobar" None.

Definition positioned (txt flag : string) : AffixForm.t :=
  {| AffixForm.text := txt; AffixForm.stem := txt;
     AffixForm.prefix := None; AffixForm.suffix := None;
     AffixForm.prefix2 := None; AffixForm.suffix2 := None;
     AffixForm.inDictionary := Some (entry txt (Some {[flag]})) |}.

(** [CHECKCOMPOUNDDUP] with [foo/C] and [bar/C]. *)
Definition dup_aff : Aff.t := tune Examples.compound_aff None None None None true.

Definition foofoobar : LKWord.t :=
  Examples.lkword dup_aff Examples.compound_dic "foofoobar" None.

(** Two permutations of the misspelling [fo]. *)
Definition fo_permutations : list (Suggestion.t + MultiWordSuggestion.t) :=
  [inl {| Suggestion.text := "fooo"; Suggestion.kind := K_EXTRACHAR |};
   inl {| Suggestion.text := "foo"; Suggestion.kind := K_FORGOTCHAR |}].

(** The surface [hellos] of scenario S1 and its form [hello] + [s]. *)
Definition hellos : LKWord.t :=
  Examples.lkword Examples.hello_aff (Lookup.dic Examples.hello_lookup) "hellos" None.

Definition hellos_form : AffixForm.t :=
  {| AffixForm.text := "hellos"; AffixForm.stem := "hello";
     AffixForm.prefix := None; AffixForm.suffix := Some Examples.suffix_s;
     AffixForm.prefix2 := None; AffixForm.suffix2 := None;
     AffixForm.inDictionary := Some (entry "hello" (Some {["A"]})) |}.

(** [NOSUGGEST N] with the homonyms [foo/N] and [foo]. *)
Definition nosuggest_word : LKWord.t :=
  Examples.lkword (aff None (Some "N") None None None None None 3 false [])
    {| Dic.words := [entry "foo" (Some {["N"]}); entry "foo" None] |} "foo" None.

Definition plain_foo : AffixForm.t :=
  {| AffixForm.text := "foo"; AffixForm.stem := "foo";
     AffixForm.prefix := None; AffixForm.suffix := None;
     AffixForm.prefix2 := None; AffixForm.suffix2 := None;
     AffixForm.inDictionary := Some (entry "foo" None) |}.

(** [KEEPCASE K] with [iPhone/K] (scenario S3 of the specification). *)
Definition keepcase_aff : Aff.t :=
  tune (aff None None None None None None None 3 false []) (Some "K") None None None false.

Definition keepcase_lookup : Lookup.t :=
  {| Lookup.aff := keepcase_aff;
     Lookup.dic := {| Dic.words := [entry "iPhone" (Some {["K"]})] |} |}.

Definition iPhone : LKWord.t :=
  Examples.lkword keepcase_aff (Lookup.dic keepcase_lookup) "iPhone" None.

Definition iPhone_form : AffixForm.t :=
  {| AffixForm.text := "iPhone"; AffixForm.stem := "iPhone";
     AffixForm.prefix := None; AffixForm.suffix := None;
     AffixForm.prefix2 := None; AffixForm.suffix2 := None;
     AffixForm.inDictionary := Some (entry "iPhone" (Some {["K"]})) |}.

(** [FORBIDDENWORD F] and the suffix [s] with [hello/A] and [bad/FA]. *)
Definition guarded_hellos : LKWord.t :=
  Examples.lkword (aff (Some "F") None None None None None None 3 false
                     [("s", [Examples.suffix_s])])
    {| Dic.words := [entry "hello" (Some {["A"]}); entry "bad" (Some {["F"; "A"]})] |}
    "hellos" None.

End MoreExamples.
(** * Properties *)

(** ** JavaScript strings *)

Lemma get_beyond (s : string) (n : nat) :
  (String.length s <= n)%nat -> String.get n s = None.
Proof.
  revert n. induction s as [|c s IH]; intros n Hn; simpl in *.
  - reflexivity.
  - destruct n as [|n]; [lia|]. apply IH. lia.
Qed.

Lemma get_within (s : string) (n : nat) :
  (n < String.length s)%nat -> exists c, String.get n s = Some c.
Proof.
  revert n. induction s as [|c s IH]; intros n Hn; simpl in *.
  - lia.
  - destruct n as [|n]; [eauto|]. apply IH. lia.
Qed.

Lemma substring_full (s : string) :
  String.substring 0 (String.length s) s = s.
Proof. induction s as [|c s IH]; simpl; [reflexivity|]. now rewrite IH. Qed.

Lemma substring_split (s : string) (k : nat) :
  (k <= String.length s)%nat ->
  (String.substring 0 k s ++ String.substring k (String.length s - k) s)%string = s.
Proof.
  revert k. induction s as [|c s IH]; intros k Hk; simpl in *.
  - destruct k; [reflexivity|lia].
  - destruct k as [|k]; simpl.
    + rewrite substring_full. reflexivity.
    + change (String c (String.substring 0 k s
                        ++ String.substring k (String.length s - k) s)%string
              = String c s).
      f_equal. apply IH. lia.
Qed.

Lemma clamp_range (n i : Z) : 0 <= n -> 0 <= JS.clamp n i <= n.
Proof. intros Hn. unfold JS.clamp. destruct (i <? 0) eqn:E; lia. Qed.

(** [s.slice(0, p) + s.slice(p)] is [s], for every integer [p]. *)
Lemma slice_split (s : string) (p : Z) :
  (JS.slice s 0 (Some p) ++ JS.slice s p None)%string = s.
Proof.
  unfold JS.slice.
  assert (Hn : 0 <= JS.len s) by (unfold JS.len; lia).
  pose proof (clamp_range (JS.len s) p Hn) as Hp.
  replace (JS.clamp (JS.len s) 0) with 0
    by (unfold JS.clamp; simpl; lia).
  rewrite Z.sub_0_r.
  replace (Z.to_nat 0) with 0%nat by reflexivity.
  replace (Z.to_nat (Z.max (JS.clamp (JS.len s) p) 0))
    with (Z.to_nat (JS.clamp (JS.len s) p)) by lia.
  replace (Z.to_nat (Z.max (JS.len s - JS.clamp (JS.len s) p) 0))
    with (String.length s - Z.to_nat (JS.clamp (JS.len s) p))%nat
    by (unfold JS.len in *; lia).
  apply substring_split. unfold JS.len in *. lia.
Qed.

(** ** [LKWord.at] *)

(** The second revision indexes from the end. *)
Lemma LKWord_at_negative (w : LKWord.t) (n : Z) :
  - LKWord.length w <= n < 0 ->
  LKWord.at_ w n = JS.index (LKWord.word w) (LKWord.length w + n)
  /\ exists c, LKWord.at_ w n = Some c.
Proof.
  intros [Hlo Hhi]. unfold LKWord.at_, LKWord.length, JS.index, JS.len in *.
  destruct (Z.ltb_spec n 0); [|lia].
  destruct (Z.ltb_spec (Z.of_nat (String.length (LKWord.word w)) + n) 0); [lia|].
  split; [reflexivity|]. apply get_within. lia.
Qed.

(** The first revision reads past the end for every negative index. *)
Lemma LKWord_at_first_negative (w : LKWord.t) (n : Z) :
  n < 0 -> LKWord.at_first w n = None.
Proof.
  intros Hn. unfold LKWord.at_first, JS.index, JS.len.
  destruct (Z.ltb_spec n 0); [|lia].
  destruct (Z.ltb_spec (Z.of_nat (String.length (LKWord.word w)) - n) 0); [lia|].
  apply get_beyond. lia.
Qed.

(** C7. [LKWord.at] is to index from the end for a negative index: on the
    word [abc], [at(-1)] should be the character at index [3 + (-1)],
    the letter c.  The first revision of [lk-word] (lines 96-99) computes
    [length - n] and returns [undefined]; the second revision (lines
    488-491) returns the letter. *)
Theorem LKWord_at_first_revision_misses_end :
  LKWord.at_first Examples.abc (-1) = None
  /\ JS.index (LKWord.word Examples.abc) (LKWord.length Examples.abc + -1) = Some "c"%char
  /\ LKWord.at_ Examples.abc (-1) = Some "c"%char.
Proof. repeat split; reflexivity. Qed.

(** ** [AffixForm.flags] *)

(** C6. The flags of a form are the union of the flags of its dictionary
    word, of its outer prefix and of its outer suffix, where present; the
    inner affixes [prefix2] and [suffix2] do not take part. *)
Theorem AffixForm_flags_outer_affixes (f : AffixForm.t) :
  AffixForm.flags f
  = default ∅ (AffixForm.inDictionary f ≫= Word.flags)
    ∪ affixFlags (AffixForm.prefix f) ∪ affixFlags (AffixForm.suffix f)
  /\ forall p2 s2 : option Affix.t,
      AffixForm.flags
        {| AffixForm.text := AffixForm.text f; AffixForm.stem := AffixForm.stem f;
           AffixForm.prefix := AffixForm.prefix f; AffixForm.suffix := AffixForm.suffix f;
           AffixForm.prefix2 := p2; AffixForm.suffix2 := s2;
           AffixForm.inDictionary := AffixForm.inDictionary f |}
      = AffixForm.flags f.
Proof.
  split.
  - unfold AffixForm.flags, concat, affixFlags.
    destruct (AffixForm.prefix f), (AffixForm.suffix f);
      rewrite ?union_empty_r_L; reflexivity.
  - intros p2 s2. reflexivity.
Qed.

(** ** The compound-position step *)

(** [validForm] asks for the flag of the position, and for no other. *)
Lemma positionGateForm_position (aff : Aff.t) (p : CompoundPos) (allFlags : Flags) :
  includes (Aff.COMPOUNDFLAG aff) allFlags = false ->
  positionGateForm aff (Some p) allFlags = includes (positionFlag aff p) allFlags.
Proof. intros Hc. unfold positionGateForm. rewrite Hc. destruct p; reflexivity. Qed.

(** [AffixForm.valid] asks for [COMPOUNDEND] at every position. *)
Lemma positionGate_falls_through (aff : Aff.t) (p : CompoundPos) (allFlags : Flags) :
  includes (Aff.COMPOUNDFLAG aff) allFlags = false ->
  positionGate aff (Some p) allFlags = includes (Aff.COMPOUNDEND aff) allFlags.
Proof. intros Hc. unfold positionGate. rewrite Hc. destruct p; reflexivity. Qed.

(** C2. A form without COMPOUNDFLAG that is validated at position BEGIN is
    to be accepted exactly when it carries COMPOUNDBEGIN.  The entry
    [foo/B] under [COMPOUNDBEGIN B] carries it and passes every earlier
    step, yet [AffixForm.valid] turns it down: its [switch] falls through
    to the COMPOUNDEND test.  [validForm] accepts the same form. *)
Theorem AffixForm_valid_begin_falls_through `{Externals} :
  LKWord.pos Examples.begin_word = Some BEGIN
  /\ includes (Aff.COMPOUNDFLAG Examples.position_aff)
       (AffixForm.flags Examples.begin_form) = false
  /\ includes (Aff.COMPOUNDBEGIN Examples.position_aff)
       (AffixForm.flags Examples.begin_form) = true
  /\ AffixForm_valid Examples.begin_form Examples.begin_word true = false
  /\ validForm Examples.begin_form Examples.begin_word true = true.
Proof. repeat split; vm_compute; reflexivity. Qed.

(** The same slip end to end: [foobar], from [foo/B] and [bar/E] under
    [COMPOUNDBEGIN B] and [COMPOUNDEND E], is a compound for the function
    path and none for the method path. *)
Example begin_end_compound :
  Lookup.correct
    (@check Fixture.externals Functions Examples.begin_end_lookup "foobar" true true) = true
  /\ Lookup.correct
       (@check Fixture.externals Methods Examples.begin_end_lookup "foobar" true true) = false.
Proof. split; vm_compute; reflexivity. Qed.

(** ** The NEEDAFFIX step *)

(** [AffixForm.valid]: with an affix, the form is turned down exactly
    when all its affixes carry NEEDAFFIX; without, exactly when the root
    does. *)
Lemma needaffixRejects_affixes (aff : Aff.t) (form : AffixForm.t) (rootFlags : Flags) :
  JS.truthy (Aff.NEEDAFFIX aff) = true ->
  (AffixForm.hasAffixes form = true ->
   needaffixRejects aff form rootFlags
   = forallb (fun affix => Affix.has affix (Aff.NEEDAFFIX aff)) (AffixForm.affixes form))
  /\ (AffixForm.hasAffixes form = false ->
      needaffixRejects aff form rootFlags = includes (Aff.NEEDAFFIX aff) rootFlags).
Proof.
  intros Hn. unfold needaffixRejects. rewrite Hn.
  split; intros ->; reflexivity.
Qed.

(** [validForm] turns down every form whose root carries NEEDAFFIX. *)
Lemma needaffixRejectsForm_root `{Externals} (aff : Aff.t) (form : AffixForm.t)
    (rootFlags : Flags) :
  JS.truthy (Aff.NEEDAFFIX aff) = true ->
  includes (Aff.NEEDAFFIX aff) rootFlags = true ->
  needaffixRejectsForm aff form rootFlags = true.
Proof.
  intros Hn Hr. unfold needaffixRejectsForm. rewrite Hn, Hr. apply orb_true_r.
Qed.

(** C4. Under [NEEDAFFIX X], a root that carries NEEDAFFIX is to be
    accepted once the form has an affix that does not carry it.  The form
    [foo] + [s] of [foos], from the entry [foo/XA] and the suffix of class
    [A], is such a form; [AffixForm.valid] accepts it, but [validForm]
    turns it down, whatever [AffixForm.has] answers, because its NEEDAFFIX
    step also fails on the root's flags alone. *)
Theorem validForm_needaffix_root_with_affix `{Externals} :
  JS.truthy (Aff.NEEDAFFIX Examples.needaffix_aff) = true
  /\ AffixForm.hasAffixes Examples.foos_form = true
  /\ forallb (fun affix => Affix.has affix (Aff.NEEDAFFIX Examples.needaffix_aff))
       (AffixForm.affixes Examples.foos_form) = false
  /\ AffixForm_valid Examples.foos_form Examples.foos true = true
  /\ validForm Examples.foos_form Examples.foos true = false.
Proof.
  repeat split; try (vm_compute; reflexivity).
  unfold validForm.
  change (AffixForm.inDictionary Examples.foos_form)
    with (Some (Fixture.entry "foo" (Some ({["X"; "A"]} : Flags)))).
  cbv beta iota zeta.
  replace (needaffixRejectsForm _ _ _) with true.
  - vm_compute. reflexivity.
  - symmetry. apply needaffixRejectsForm_root; vm_compute; reflexivity.
Qed.

(** End to end, with [AffixForm.has] read as membership in the flags of
    the form: [foos] is correct for the method path and not for the
    function path. *)
Example needaffix_foos :
  Lookup.correct
    (@check Fixture.externals Methods Examples.needaffix_lookup "foos" true true) = true
  /\ Lookup.correct
       (@check Fixture.externals Functions Examples.needaffix_lookup "foos" true true) = false
  /\ Lookup.correct
       (@check Fixture.externals Methods Examples.needaffix_lookup "foo" true true) = false.
Proof. repeat split; vm_compute; reflexivity. Qed.

(** ** [breakWord] and [check] *)

Lemma breakWord_head (aff : Aff.t) (text : string) :
  exists rest,
    breakWord aff text 0
    = List.filter (fun s => negb (String.eqb s "")) [text] :: rest.
Proof. unfold breakWord. simpl. eexists. reflexivity. Qed.

(** C9. For a non-empty text the first split that [breakWord] yields is
    the text itself, unbroken; [check] therefore accepts a word whose
    whole (after ICONV and IGNORE) is correct, whatever the BREAK patterns
    are. *)
Theorem breakWord_yields_whole_word_first `{Externals} (aff : Aff.t) (text : string) :
  text <> "" ->
  (exists rest, breakWord aff text 0 = [text] :: rest)
  /\ forall (r : Revision) (this : Lookup.t) (word : string) (caps allowNoSuggest : bool),
      Lookup.aff this = aff ->
      preprocess this word = text ->
      isForbidden this word = false ->
      correct r this text (lkcOfCheck caps allowNoSuggest) = true ->
      Lookup.correct (check r this word caps allowNoSuggest) = true.
Proof.
  intros Hne.
  assert (Hfilter : List.filter (fun s => negb (String.eqb s "")) [text] = [text]).
  { simpl. destruct (String.eqb_spec text ""); [contradiction|reflexivity]. }
  split.
  - destruct (breakWord_head aff text) as [rest Hrest].
    exists rest. rewrite Hrest, Hfilter. reflexivity.
  - intros r this word caps ans Haff Hpre Hforb Hcorrect.
    unfold check. rewrite Hforb, Hpre.
    destruct (NUMBER_REGEX text); [reflexivity|].
    destruct (breakWord_head (Lookup.aff this) text) as [rest Hrest].
    rewrite Hrest, Hfilter. simpl.
    unfold lkcOfCheck in Hcorrect. rewrite Hcorrect. reflexivity.
Qed.

Lemma breakWord_yields_whole_word_first_witness :
  "foo-bar" <> ""
  /\ (exists rest, breakWord Examples.compound_aff "foo-bar" 0 = ["foo-bar"] :: rest).
Proof.
  assert (Hne : "foo-bar" <> "") by discriminate.
  split; [exact Hne|].
  exact (proj1 (@breakWord_yields_whole_word_first Fixture.externals
                  Examples.compound_aff "foo-bar" Hne)).
Defined.

(** ** [check] *)

(** C1, as the code has it.  The [forbidden] field of [check] is
    [isForbidden] of the word as given, and a forbidden word is never
    reported correct: [check] returns [correct = false] for it before it
    looks the word up. *)
Theorem check_forbidden_excludes_correct `{Externals} (r : Revision) (this : Lookup.t)
    (word : string) (caps allowNoSuggest : bool) :
  Lookup.forbidden (check r this word caps allowNoSuggest) = isForbidden this word
  /\ Lookup.correct (check r this word caps allowNoSuggest)
     && Lookup.forbidden (check r this word caps allowNoSuggest) = false.
Proof.
  unfold check.
  destruct (isForbidden this word) eqn:Hf.
  - split; reflexivity.
  - destruct (NUMBER_REGEX _); [split; reflexivity|].
    destruct (existsb _ _); split; reflexivity.
Qed.

(** C1, as stated, fails.  Under [FORBIDDENWORD F] the entry [foo/F]
    spellchecks ([Lookup.correct] finds its affix form) and is marked
    forbidden, and [check] reports [correct = false]. *)
Lemma check_forbidden_not_independent :
  @correct Fixture.externals Methods Examples.forbidden_lookup "foo"
    (lkcOfCheck true true) = true
  /\ @correct Fixture.externals Functions Examples.forbidden_lookup "foo"
       (lkcOfCheck true true) = true
  /\ @isForbidden Fixture.externals Examples.forbidden_lookup "foo" = true
  /\ @check Fixture.externals Methods Examples.forbidden_lookup "foo" true true
     = {| Lookup.correct := false; Lookup.forbidden := true; Lookup.warn := false |}
  /\ @check Fixture.externals Functions Examples.forbidden_lookup "foo" true true
     = {| Lookup.correct := false; Lookup.forbidden := true; Lookup.warn := false |}.
Proof. repeat split; vm_compute; reflexivity. Qed.

(** ** The suggester *)

Lemma forallb_false_witness {A} (f : A -> bool) (l : list A) :
  forallb f l = false -> exists x, In x l /\ f x = false.
Proof.
  induction l as [|a l IH]; simpl; [discriminate|].
  destruct (f a) eqn:Ha; simpl.
  - intros Hl. destruct (IH Hl) as [x [Hin Hx]]. eauto.
  - intros _. eauto.
Qed.

Lemma flagSet_elem (f : option Flag) (x : Flag) :
  f = Some x -> JS.truthy f = true -> x ∈ flagSet f.
Proof.
  intros -> Ht. unfold flagSet. rewrite Ht. apply elem_of_singleton. reflexivity.
Qed.

Lemma unsuitable_in_badFlags (aff : Aff.t) (f : option Flag) (x : Flag) :
  In f (unsuitableFlags aff) -> f = Some x -> JS.truthy f = true ->
  x ∈ Suggest.badFlags aff.
Proof.
  intros Hin Hx Ht. unfold Suggest.badFlags.
  destruct Hin as [<-|[<-|[<-|[]]]].
  - apply elem_of_union_l, elem_of_union_l. now apply flagSet_elem.
  - apply elem_of_union_l, elem_of_union_r. now apply flagSet_elem.
  - apply elem_of_union_r. now apply flagSet_elem.
Qed.

(** The words kept by the constructor are dictionary words that carry no
    configured unsuitable flag. *)
Lemma ngramWords_suitable (aff : Aff.t) (dic : Dic.t) (lookup : Lookup.t) (w : Word.t) :
  In w (Suggest.ngramWords (Suggest.new aff dic lookup)) ->
  In w (Dic.words dic) /\ suitable aff w.
Proof.
  simpl. intros Hin. apply filter_In in Hin as [Hin Hkeep].
  split; [exact Hin|].
  intros f Hf Ht. unfold Word.has.
  destruct (Word.flags w) as [fs|]; [|reflexivity].
  destruct f as [x|]; [|reflexivity].
  simpl. apply bool_decide_eq_false. intros Hx.
  apply bool_decide_eq_true in Hkeep.
  pose proof (unsuitable_in_badFlags aff (Some x) x Hf eq_refl Ht) as Hbad.
  assert (Hboth : x ∈ fs ∩ Suggest.badFlags aff) by (apply elem_of_intersection; auto).
  rewrite Hkeep in Hboth. now apply not_elem_of_empty in Hboth.
Qed.

Lemma fold_left_invariant {A B} (f : A -> B -> A) (I : A -> Prop) (Q : B -> Prop)
    (l : list B) (a : A) :
  (forall a b, I a -> Q b -> I (f a b)) ->
  (forall b, In b l -> Q b) ->
  I a -> I (fold_left f l a).
Proof.
  intros Hstep. revert a. induction l as [|b l IH]; intros a HQ Ha; simpl.
  - exact Ha.
  - apply IH.
    + intros b' Hb'. apply HQ. now right.
    + apply Hstep; [exact Ha|]. apply HQ. now left.
Qed.

(** C10. Every word of [ngramWords] carries none of FORBIDDENWORD,
    NOSUGGEST and ONLYINCOMPOUND, where configured, and the loop that
    feeds the n-gram and the phonetic builder steps them with words of
    that set only: whatever holds of the builders at the start and is
    kept by a step with a suitable dictionary word holds after the loop. *)
Theorem builders_stepped_with_suitable_words {N P : Type}
    (stepN : N -> Word.t -> N) (stepP : P -> Word.t -> P)
    (I : option N * option P -> Prop)
    (aff : Aff.t) (dic : Dic.t) (lookup : Lookup.t)
    (ngram : option N) (phonet : option P) :
  (forall n p w,
      I (n, p) -> In w (Dic.words dic) -> suitable aff w ->
      I (match n with Some b => Some (stepN b w) | None => None end,
         match p with Some b => Some (stepP b w) | None => None end)) ->
  I (ngram, phonet) ->
  (forall w, In w (Suggest.ngramWords (Suggest.new aff dic lookup)) -> suitable aff w)
  /\ I (Suggest.stepBuilders stepN stepP (Suggest.new aff dic lookup) ngram phonet).
Proof.
  intros Hstep Hinit. split.
  - intros w Hw. exact (proj2 (ngramWords_suitable aff dic lookup w Hw)).
  - unfold Suggest.stepBuilders.
    apply (fold_left_invariant _ I (fun w => In w (Dic.words dic) /\ suitable aff w)).
    + intros [n p] w Hnp [Hin Hs]. simpl. now apply Hstep.
    + intros w Hw. now apply ngramWords_suitable in Hw.
    + exact Hinit.
Qed.

Lemma insert_Forall {A} (Q : Z * A -> Prop) (score : Z) (payload : A) (l : list (Z * A)) :
  Q (score, payload) -> Forall Q l -> Forall Q (ScoresList.insert score payload l).
Proof.
  intros Hq Hl. induction Hl as [|[s p] l Hsp Hl IH]; simpl.
  - constructor; [exact Hq|constructor].
  - destruct (s <? score).
    + constructor; [exact Hq|]. constructor; assumption.
    + constructor; assumption.
Qed.

Lemma step_rootsSuitable (rootScore : string -> string -> Z) (aff : Aff.t)
    (n : option NgramSuggestionBuilder.t) (p : option unit) (w : Word.t) :
  rootsSuitable aff (n, p) -> suitable aff w ->
  rootsSuitable aff
    (match n with Some b => Some (NgramSuggestionBuilder.step rootScore b w) | None => None end,
     match p with Some b => Some (b : unit) | None => None end).
Proof.
  unfold rootsSuitable. simpl. destruct n as [b|]; [|trivial].
  intros Hb Hw. unfold NgramSuggestionBuilder.step.
  destruct (4 <? _); [exact Hb|]. simpl.
  apply Forall_take. apply insert_Forall; assumption.
Qed.

Lemma builders_stepped_with_suitable_words_witness :
  rootsSuitable Examples.ngram_aff (Some Examples.ngram_builder, None)
  /\ (forall w, In w (Suggest.ngramWords Examples.ngram_suggest) ->
                suitable Examples.ngram_aff w)
  /\ rootsSuitable Examples.ngram_aff
       (Suggest.stepBuilders (NgramSuggestionBuilder.step Examples.rootScore)
          (fun (b : unit) (_ : Word.t) => b)
          Examples.ngram_suggest (Some Examples.ngram_builder) None).
Proof.
  assert (Hinit : rootsSuitable Examples.ngram_aff (Some Examples.ngram_builder, None))
    by (unfold rootsSuitable; simpl; constructor).
  split; [exact Hinit|].
  exact (builders_stepped_with_suitable_words
           (NgramSuggestionBuilder.step Examples.rootScore)
           (fun (b : unit) (_ : Word.t) => b)
           (rootsSuitable Examples.ngram_aff)
           Examples.ngram_aff Examples.ngram_dic
           {| Lookup.aff := Examples.ngram_aff; Lookup.dic := Examples.ngram_dic |}
           (Some Examples.ngram_builder) None
           (fun n p w Hnp _ Hw =>
              step_rootsSuitable Examples.rootScore Examples.ngram_aff n p w Hnp Hw)
           Hinit).
Defined.

(** The constructor keeps [foo] and [qux/A] and drops [bar/F] and
    [baz/NA]; the builder ends with both as roots. *)
Example ngramWords_example :
  map Word.stem (Suggest.ngramWords Examples.ngram_suggest) = ["foo"; "qux"]
  /\ map (fun e => Word.stem (snd e))
       (ScoresList.entries
          (NgramSuggestionBuilder.roots
             (fold_left (NgramSuggestionBuilder.step Examples.rootScore)
                (Suggest.ngramWords Examples.ngram_suggest) Examples.ngram_builder)))
     = ["foo"; "qux"].
Proof. split; vm_compute; reflexivity. Qed.

Lemma isForbidden_false_homonym `{Externals} (this : Lookup.t) (text : string) :
  isForbidden this text = false -> someHomonymFree this text.
Proof.
  unfold isForbidden, someHomonymFree. intros Hf.
  apply orb_false_iff in Hf as [Hf _].
  unfold Dic.hasFlag in Hf.
  destruct (Dic.homonyms (Lookup.dic this) text false) as [|h hs] eqn:Hh.
  - now left.
  - right. apply forallb_false_witness in Hf as [x [Hin Hx]]. eauto.
Qed.

(** C3, as the code has it.  A suggestion that [handle] lets through is
    the output conversion of a text that [Lookup.isForbidden] does not
    hold forbidden: its homonyms do not all carry FORBIDDENWORD. *)
Theorem handle_emits_unforbidden `{Externals} (this : Suggest.t) (word : string)
    (captype : CapType) (handled : gset string) (suggestion : Suggestion.t)
    (checkInclusion : bool) (emitted : Suggestion.t) (handled' : gset string) :
  handle this word captype handled suggestion checkInclusion = (Some emitted, handled') ->
  exists text,
    Suggestion.text emitted = converted (Suggest.aff this) text
    /\ isForbidden (Suggest.lookup this) text = false
    /\ someHomonymFree (Suggest.lookup this) text.
Proof.
  unfold handle.
  match goal with
  | |- context [if isForbidden (Suggest.lookup this) ?t then _ else _] => set (text := t)
  end.
  clearbody text.
  destruct (isForbidden (Suggest.lookup this) text) eqn:Hf; [discriminate|].
  fold (converted (Suggest.aff this) text).
  destruct (bool_decide (converted (Suggest.aff this) text ∈ handled)); [discriminate|].
  destruct (checkInclusion && _); [discriminate|].
  intros Heq. injection Heq as Hs _. subst emitted.
  exists text. split; [reflexivity|]. split; [exact Hf|].
  now apply isForbidden_false_homonym.
Qed.

Lemma handle_emits_unforbidden_witness :
  exists text,
    "foo" = converted (Suggest.aff Examples.homonym_suggest) text
    /\ @isForbidden Fixture.externals (Suggest.lookup Examples.homonym_suggest) text = false
    /\ @someHomonymFree Fixture.externals (Suggest.lookup Examples.homonym_suggest) text.
Proof.
  exact (@handle_emits_unforbidden Fixture.externals Examples.homonym_suggest "fo" NO ∅
           {| Suggestion.text := "foo"; Suggestion.kind := K_FORGOTCHAR |} false
           {| Suggestion.text := "foo"; Suggestion.kind := K_FORGOTCHAR |}
           ({[ "foo" ]} ∪ ∅) eq_refl).
Defined.

(** C3, as stated, fails.  With the homonyms [foo/F] and [foo] under
    [FORBIDDENWORD F], the candidate [foo] for the misspelling [fo] passes
    the correctness filter and the handler, and is emitted, although one
    of its homonyms carries FORBIDDENWORD: [isForbidden] asks that all
    homonyms carry the flag. *)
Lemma handle_lets_forbidden_homonym_through :
  @Suggest_correct Fixture.externals Methods Examples.homonym_suggest "foo" None = true
  /\ @Suggest_correct Fixture.externals Functions Examples.homonym_suggest "foo" None = true
  /\ fst (@handle Fixture.externals Examples.homonym_suggest "fo" NO ∅
            {| Suggestion.text := "foo"; Suggestion.kind := K_FORGOTCHAR |} false)
     = Some {| Suggestion.text := "foo"; Suggestion.kind := K_FORGOTCHAR |}
  /\ In (Fixture.entry "foo" (Some {[ "F" ]}))
       (@Dic.homonyms Fixture.externals (Suggest.dic Examples.homonym_suggest) "foo" false)
  /\ Word.has (Fixture.entry "foo" (Some {[ "F" ]}))
       (Aff.FORBIDDENWORD (Suggest.aff Examples.homonym_suggest)) = true.
Proof.
  repeat split; try (vm_compute; reflexivity).
  left. reflexivity.
Qed.

(** ** Texts of the forms the generators yield *)

Lemma append_empty_r (s : string) : (s ++ "")%string = s.
Proof.
  induction s as [|c s IH]; [reflexivity|].
  change (String c (s ++ "")%string = String c s). now rewrite IH.
Qed.

Lemma replace_text (f : AffixForm.t) (o : AffixForm.Opts) :
  AffixForm.text (AffixForm.replace f o) = default (AffixForm.text f) (AffixForm.o_text o).
Proof. reflexivity. Qed.

Lemma desuffix_body_text self aff word flags crossproduct nested (f : AffixForm.t) :
  In f (desuffix_body self aff word flags crossproduct nested) -> AffixForm.text f = word.
Proof.
  unfold desuffix_body. intros Hin.
  apply in_flat_map in Hin as [suffix [_ [<-|Hin]]]; [reflexivity|].
  destruct (negb nested); [|destruct Hin].
  apply in_map_iff in Hin as [form2 [<- _]]. reflexivity.
Qed.

Lemma deprefix_body_text self aff word flags nested (f : AffixForm.t) :
  In f (deprefix_body self aff word flags nested) -> AffixForm.text f = word.
Proof.
  unfold deprefix_body. intros Hin.
  apply in_flat_map in Hin as [prefix [_ [<-|Hin]]]; [reflexivity|].
  destruct (negb nested && Aff.COMPLEXPREFIXES aff); [|destruct Hin].
  apply in_map_iff in Hin as [form2 [<- _]]. reflexivity.
Qed.

(** Every form of the decomposer has the word as its text. *)
Lemma decompose_text (word : LKWord.t) (flags : LKFlags.t) (f : AffixForm.t) :
  In f (decompose word flags) -> AffixForm.text f = LKWord.word word.
Proof.
  unfold decompose. intros [<-|Hin]; [reflexivity|].
  apply in_app_or in Hin as [Hin|Hin].
  - destruct (_ || _ || _); [|destruct Hin].
    now apply desuffix_body_text in Hin.
  - destruct (bool_decide (LKWord.pos word = None) || _ || _); [|destruct Hin].
    apply in_flat_map in Hin as [form [Hform [<-|Hin]]].
    + now apply deprefix_body_text in Hform.
    + destruct (_ && _); [|destruct Hin].
      apply in_map_iff in Hin as [form2 [<- _]].
      rewrite replace_text. simpl. now apply deprefix_body_text in Hform.
Qed.

Section FormsText.
Context `{Externals}.

Lemma candidates_text r word form allowNoSuggest homonyms (c : AffixForm.t) :
  In c (fst (candidates r word form allowNoSuggest homonyms)) ->
  AffixForm.text c = AffixForm.text form.
Proof.
  unfold candidates. simpl. intros Hin.
  apply filter_In in Hin as [Hin _].
  apply in_map_iff in Hin as [h [<- _]]. reflexivity.
Qed.

Lemma affixForms_step_text r word allowNoSuggest withForbidden form yielded (c : AffixForm.t) :
  affixForms_step r word allowNoSuggest withForbidden form = Some yielded ->
  In c yielded -> AffixForm.text c = AffixForm.text form.
Proof.
  unfold affixForms_step.
  destruct (any _ && _); [discriminate|].
  destruct (if any _ then _ else _) as [c1 found1] eqn:E1.
  destruct (if _ && _ && _ then _ else _) as [c2 found2] eqn:E2.
  intros Heq Hin. injection Heq as <-.
  apply in_app_or in Hin as [Hin|Hin]; [|apply in_app_or in Hin as [Hin|Hin]].
  - destruct (any _) in E1.
    + change c1 with (fst (c1, found1)) in Hin. rewrite <- E1 in Hin.
      now apply candidates_text in Hin.
    + injection E1 as <- _. destruct Hin.
  - destruct (_ && _ && _) in E2.
    + change c2 with (fst (c2, found2)) in Hin. rewrite <- E2 in Hin.
      now apply candidates_text in Hin.
    + injection E2 as <- _. destruct Hin.
  - destruct (found2 || _ || _); [destruct Hin|].
    destruct (bool_decide (guess _ _ = NO)); [|destruct Hin].
    now apply candidates_text in Hin.
Qed.

Lemma affixForms_loop_text r word allowNoSuggest withForbidden forms (c : AffixForm.t) :
  In c (affixForms_loop r word allowNoSuggest withForbidden forms) ->
  exists form, In form forms /\ AffixForm.text c = AffixForm.text form.
Proof.
  induction forms as [|form rest IH]; simpl; [intros []|].
  destruct (affixForms_step r word allowNoSuggest withForbidden form) as [yielded|] eqn:E;
    [|intros []].
  intros Hin. apply in_app_or in Hin as [Hin|Hin].
  - exists form. split; [now left|]. eapply affixForms_step_text; eauto.
  - destruct (IH Hin) as [form' [Hform' Ht]]. exists form'. split; [now right|exact Ht].
Qed.

(** Every affix form of a word has the word as its text. *)
Lemma affixForms_text r word allowNoSuggest withForbidden flags (c : AffixForm.t) :
  In c (affixForms r word allowNoSuggest withForbidden flags) ->
  AffixForm.text c = LKWord.word word.
Proof.
  unfold affixForms. intros Hin.
  apply affixForms_loop_text in Hin as [form [Hform ->]].
  now apply decompose_text in Hform.
Qed.

Lemma compoundsByFlags_surface fuel r word allowNoSuggest depth (c : CompoundForm) :
  In c (compoundsByFlags fuel r word allowNoSuggest depth) ->
  surface c = LKWord.word word.
Proof.
  revert word depth c. induction fuel as [|fuel IH]; intros word depth c; simpl; [intros []|].
  intros Hin. apply in_app_or in Hin as [Hin|Hin].
  - destruct (negb (depth =? 0)); [|destruct Hin].
    apply in_map_iff in Hin as [form [<- Hform]].
    apply affixForms_text in Hform. simpl. rewrite Hform. apply append_empty_r.
  - destruct (LKWord.length word <? _); [destruct Hin|].
    destruct (_ && _); [destruct Hin|].
    apply in_flat_map in Hin as [pos [_ Hin]].
    apply in_app_or in Hin as [Hin|Hin].
    + apply in_flat_map in Hin as [form [Hform Hin]].
      apply in_map_iff in Hin as [partial [<- Hpartial]].
      apply affixForms_text in Hform. apply IH in Hpartial.
      simpl in *. rewrite Hform, Hpartial. apply slice_split.
    + destruct (_ && _); [|destruct Hin].
      apply in_flat_map in Hin as [form [Hform Hin]].
      apply in_map_iff in Hin as [partial [<- Hpartial]].
      apply IH in Hpartial.
      simpl in *. rewrite Hpartial. apply slice_split.
Qed.

Lemma compoundsByRules_surface fuel word prev rules (c : CompoundForm) :
  In c (compoundsByRules fuel word prev rules) ->
  surface c = LKWord.word word.
Proof.
  revert word prev rules c.
  induction fuel as [|fuel IH]; intros word prev rules c; simpl; [intros []|].
  intros Hin. apply in_app_or in Hin as [Hin|Hin].
  - destruct (any prev); [|destruct Hin].
    apply in_flat_map in Hin as [homonym [_ Hin]].
    destruct (existsb _ _); [|destruct Hin].
    destruct Hin as [<-|[]]. simpl. apply append_empty_r.
  - destruct (LKWord.length word <? _); [destruct Hin|].
    destruct (_ && _); [destruct Hin|].
    apply in_flat_map in Hin as [pos [_ Hin]].
    apply in_flat_map in Hin as [homonym [_ Hin]].
    destruct (any _); [|destruct Hin].
    apply in_map_iff in Hin as [rest [<- Hrest]].
    apply IH in Hrest. simpl in *. rewrite Hrest. apply slice_split.
Qed.

(** C5. The texts of the parts of every compound form concatenate to the
    word under lookup, be the form yielded by [compoundForms], or by
    [compoundsByFlags] at any depth (the SIMPLIFIEDTRIPLE retry gives its
    form the text of the shorter left piece), or by [compoundsByRules]. *)
Theorem compound_texts_concatenate_to_word (r : Revision) (word : LKWord.t)
    (allowNoSuggest : bool) (c : CompoundForm) :
  In c (compoundForms r word allowNoSuggest)
  \/ (exists fuel depth, In c (compoundsByFlags fuel r word allowNoSuggest depth))
  \/ (exists fuel prev rules, In c (compoundsByRules fuel word prev rules)) ->
  surface c = LKWord.word word.
Proof.
  intros [Hin|[[fuel [depth Hin]]|[fuel [prev [rules Hin]]]]].
  - unfold compoundForms in Hin.
    destruct (_ && _); [destruct Hin|].
    apply in_app_or in Hin as [Hin|Hin].
    + destruct (_ || _); [|destruct Hin].
      apply filter_In in Hin as [Hin _]. now apply compoundsByFlags_surface in Hin.
    + destruct (any _); [|destruct Hin].
      apply filter_In in Hin as [Hin _]. now apply compoundsByRules_surface in Hin.
  - now apply compoundsByFlags_surface in Hin.
  - now apply compoundsByRules_surface in Hin.
Qed.

End FormsText.

(** Under SIMPLIFIEDTRIPLE the word [allot] is the compound of [all] and
    [lot]; the first part keeps the text [al] of the shorter left piece. *)
Lemma compound_texts_concatenate_to_word_witness :
  In [Examples.part "al" "all"; Examples.part "lot" "lot"]
    (@compoundForms Fixture.externals Functions Examples.allot true)
  /\ surface [Examples.part "al" "all"; Examples.part "lot" "lot"] = "allot".
Proof.
  assert (Hin : In [Examples.part "al" "all"; Examples.part "lot" "lot"]
                  (@compoundForms Fixture.externals Functions Examples.allot true))
    by (vm_compute; left; reflexivity).
  split; [exact Hin|].
  exact (@compound_texts_concatenate_to_word Fixture.externals Functions Examples.allot true
           [Examples.part "al" "all"; Examples.part "lot" "lot"] (or_introl Hin)).
Defined.

(** ** Adding a word to the dictionary *)

Lemma any_app {A} (l1 l2 : list A) : any (l1 ++ l2) = any l1 || any l2.
Proof. destruct l1; reflexivity. Qed.

Lemma any_map {A B} (f : A -> B) (l : list A) : any (map f l) = any l.
Proof. destruct l; reflexivity. Qed.

Lemma any_flat_map {A B} (f : A -> list B) (l : list A) :
  any (flat_map f l) = existsb (fun x => any (f x)) l.
Proof.
  induction l as [|a l IH]; [reflexivity|].
  simpl. rewrite any_app, IH. reflexivity.
Qed.

Lemma filter_all {A} (f : A -> bool) (l : list A) :
  (forall x, f x = true) -> List.filter f l = l.
Proof.
  intros Hf. induction l as [|a l IH]; [reflexivity|].
  simpl. rewrite Hf, IH. reflexivity.
Qed.

Lemma existsb_impl {A} (f g : A -> bool) (l : list A) :
  (forall x, f x = true -> g x = true) -> existsb f l = true -> existsb g l = true.
Proof.
  intros Hfg. induction l as [|a l IH]; simpl; [discriminate|].
  intros Hl. apply orb_true_iff in Hl as [Ha|Hl].
  - rewrite (Hfg a Ha). reflexivity.
  - rewrite (IH Hl). apply orb_true_r.
Qed.

Lemma forallb_impl {A} (f g : A -> bool) (l : list A) :
  (forall x, f x = true -> g x = true) -> forallb f l = true -> forallb g l = true.
Proof.
  intros Hfg. induction l as [|a l IH]; simpl; [reflexivity|].
  intros Hl. apply andb_true_iff in Hl as [Ha Hl].
  rewrite (Hfg a Ha), (IH Hl). reflexivity.
Qed.

Section AddWord.
Context `{Externals}.
Variable aff : Aff.t.
Variable new : Word.t.
Hypothesis new_not_forbidden : Word.has new (Aff.FORBIDDENWORD aff) = false.

(** The homonyms after the addition: those before, then the new word if
    it is one. *)
Lemma homonyms_add (d : Dic.t) (stem : string) (ignorecase : bool) :
  Dic.homonyms (Dic.add d new) stem ignorecase
  = (Dic.homonyms d stem ignorecase
     ++ Dic.homonyms {| Dic.words := [new] |} stem ignorecase)%list.
Proof. unfold Dic.homonyms, Dic.add. simpl Dic.words. apply List.filter_app. Qed.

Lemma homonyms_new (stem : string) (ignorecase : bool) :
  Dic.homonyms {| Dic.words := [new] |} stem ignorecase = []
  \/ Dic.homonyms {| Dic.words := [new] |} stem ignorecase = [new].
Proof.
  unfold Dic.homonyms. simpl.
  destruct (if ignorecase then _ else _); [now right|now left].
Qed.

Lemma validate_withDic r c word d allowNoSuggest :
  validate r c (withDic word d) allowNoSuggest = validate r c word allowNoSuggest.
Proof. destruct r; reflexivity. Qed.

Lemma candidates_app r word d form allowNoSuggest hs extra :
  fst (candidates r (withDic word d) form allowNoSuggest (hs ++ extra))
  = (fst (candidates r word form allowNoSuggest hs)
     ++ fst (candidates r word form allowNoSuggest extra))%list.
Proof.
  unfold candidates. simpl. rewrite List.map_app, List.filter_app.
  f_equal; apply List.filter_ext; intros c; apply validate_withDic.
Qed.

Lemma candidates_found r word form allowNoSuggest hs :
  snd (candidates r word form allowNoSuggest hs)
  = any (fst (candidates r word form allowNoSuggest hs)).
Proof. reflexivity. Qed.

Lemma hasForbidden_nil word form : hasForbidden word form [] = false.
Proof.
  unfold hasForbidden. destruct (negb _); [reflexivity|].
  destruct (_ && _); reflexivity.
Qed.

Lemma hasForbidden_add word d form hs stem ignorecase :
  LKWord.aff word = aff ->
  hasForbidden (withDic word d) form
    (hs ++ Dic.homonyms {| Dic.words := [new] |} stem ignorecase)
  = hasForbidden word form hs.
Proof.
  intros Haff. unfold hasForbidden. simpl. rewrite Haff.
  destruct (negb _); [reflexivity|].
  destruct (_ && _); [reflexivity|].
  rewrite existsb_app.
  destruct (homonyms_new stem ignorecase) as [-> | ->]; simpl.
  - apply orb_false_r.
  - rewrite new_not_forbidden. simpl. apply orb_false_r.
Qed.

(** One turn of [affixForms] returns after the addition exactly when it
    did before, and what it yields stays non-empty. *)
Lemma affixForms_step_add r word d allowNoSuggest withForbidden form :
  LKWord.aff word = aff -> LKWord.dic word = d ->
  match affixForms_step r word allowNoSuggest withForbidden form,
        affixForms_step r (withDic word (Dic.add d new)) allowNoSuggest withForbidden form with
  | None, None => True
  | Some yielded, Some yielded' => any yielded = true -> any yielded' = true
  | _, _ => False
  end.
Proof.
  intros Haff Hdic. unfold affixForms_step.
  simpl LKWord.dic. simpl LKWord.aff. simpl LKWord.pos. simpl LKWord.type.
  simpl LKWord.word. rewrite Hdic.
  rewrite !homonyms_add.
  rewrite !(hasForbidden_add word (Dic.add d new) form _ (AffixForm.stem form) false Haff).
  set (hs1 := Dic.homonyms d (AffixForm.stem form) false).
  set (e1 := Dic.homonyms {| Dic.words := [new] |} (AffixForm.stem form) false).
  set (hs2 := Dic.homonyms d (lowercase (AffixForm.stem form)) true).
  set (e2 := Dic.homonyms {| Dic.words := [new] |} (lowercase (AffixForm.stem form)) true).
  set (hs3 := Dic.homonyms d (AffixForm.stem form) true).
  set (e3 := Dic.homonyms {| Dic.words := [new] |} (AffixForm.stem form) true).
  set (cond2 := bool_decide (LKWord.pos word = Some BEGIN)
                && JS.truthy (Aff.FORCEUCASE (LKWord.aff word))
                && bool_decide (LKWord.type word = INIT)).
  set (p3 := bool_decide (LKWord.pos word = None)).
  set (t3 := bool_decide (LKWord.type word = ALL)).
  assert (Hret : any (hs1 ++ e1)%list && (negb withForbidden && hasForbidden word form hs1)
                 = any hs1 && (negb withForbidden && hasForbidden word form hs1)).
  { destruct hs1 as [|h hs1]; [|reflexivity].
    rewrite hasForbidden_nil, andb_false_r, !andb_false_r. reflexivity. }
  rewrite Hret. clear Hret.
  destruct (any hs1 && _); [exact I|].
  pose proof (candidates_app r word (Dic.add d new) form allowNoSuggest hs1 e1) as Hc1.
  pose proof (candidates_app r word (Dic.add d new) form allowNoSuggest hs2 e2) as Hc2.
  pose proof (candidates_app r word (Dic.add d new) form allowNoSuggest hs3 e3) as Hc3.
  set (k1 := candidates r word form allowNoSuggest hs1) in *.
  set (k2 := candidates r word form allowNoSuggest hs2) in *.
  set (k3 := candidates r word form allowNoSuggest hs3) in *.
  set (k1' := candidates r (withDic word (Dic.add d new)) form allowNoSuggest (hs1 ++ e1)) in *.
  set (k2' := candidates r (withDic word (Dic.add d new)) form allowNoSuggest (hs2 ++ e2)) in *.
  set (k3' := candidates r (withDic word (Dic.add d new)) form allowNoSuggest (hs3 ++ e3)) in *.
  assert (Hf1 : snd k1 = any (fst k1)) by reflexivity.
  assert (Hf2 : snd k2 = any (fst k2)) by reflexivity.
  assert (Hf1' : snd k1' = any (fst k1')) by reflexivity.
  assert (Hf2' : snd k2' = any (fst k2')) by reflexivity.
  assert (Hnil : any hs1 = false -> any (fst k1) = false).
  { intros Hany. destruct hs1; [reflexivity|discriminate]. }
  assert (Happ : any (hs1 ++ e1) = any hs1 || any e1) by apply any_app.
  set (x1 := fst (candidates r word form allowNoSuggest e1)) in *.
  set (x2 := fst (candidates r word form allowNoSuggest e2)) in *.
  set (x3 := fst (candidates r word form allowNoSuggest e3)) in *.
  set (g := bool_decide (guess (Aff.casing (LKWord.aff word)) (LKWord.word word) = NO)).
  clearbody k1 k2 k3 k1' k2' k3' cond2 p3 t3 x1 x2 x3 g.
  destruct k1 as [c1 f1], k2 as [c2 f2], k3 as [c3 f3].
  destruct k1' as [c1' f1'], k2' as [c2' f2'], k3' as [c3' f3'].
  simpl in Hc1, Hc2, Hc3, Hf1, Hf2, Hf1', Hf2', Hnil.
  subst f1 f2 f1' f2' c1' c2' c3'.
  rewrite Happ. clear Happ.
  destruct (any hs1); [clear Hnil|specialize (Hnil eq_refl)];
    destruct (any e1), cond2, p3, t3, g; simpl;
    rewrite ?any_app, ?Hnil; simpl;
    destruct (any c1) eqn:E1, (any c2) eqn:E2, (any x1) eqn:E3, (any x2) eqn:E4;
    simpl; rewrite ?any_app, ?E1, ?E2, ?E3, ?E4, ?orb_true_r, ?orb_false_r; simpl;
    try discriminate; try (intros _; reflexivity); try (intros ->; reflexivity);
    rewrite ?any_app, ?E1, ?E2, ?E3, ?E4, ?orb_true_r, ?orb_false_r; simpl;
    try discriminate; try (intros _; reflexivity); try (intros ->; reflexivity).
Qed.

Lemma affixForms_loop_add r word d allowNoSuggest withForbidden forms :
  LKWord.aff word = aff -> LKWord.dic word = d ->
  any (affixForms_loop r word allowNoSuggest withForbidden forms) = true ->
  any (affixForms_loop r (withDic word (Dic.add d new)) allowNoSuggest withForbidden forms)
  = true.
Proof.
  intros Haff Hdic. induction forms as [|form rest IH]; simpl; [discriminate|].
  pose proof (affixForms_step_add r word d allowNoSuggest withForbidden form Haff Hdic)
    as Hstep.
  destruct (affixForms_step r word allowNoSuggest withForbidden form) as [y|];
    destruct (affixForms_step r (withDic word (Dic.add d new)) allowNoSuggest
                withForbidden form) as [y'|];
    try contradiction; [|discriminate].
  rewrite !any_app. intros Hany. apply orb_true_iff in Hany as [Hy|Hrest].
  - rewrite (Hstep Hy). reflexivity.
  - rewrite (IH Hrest). apply orb_true_r.
Qed.

(** A word that had an affix form before the addition has one after. *)
Lemma affixForms_add r word d allowNoSuggest withForbidden flags :
  LKWord.aff word = aff -> LKWord.dic word = d ->
  any (affixForms r word allowNoSuggest withForbidden flags) = true ->
  any (affixForms r (withDic word (Dic.add d new)) allowNoSuggest withForbidden flags)
  = true.
Proof.
  intros Haff Hdic. unfold affixForms.
  change (decompose (withDic word (Dic.add d new)) flags) with (decompose word flags).
  now apply affixForms_loop_add.
Qed.

Lemma sharpsSkip_off this captype lkword form :
  Aff.CHECKSHARPS (Lookup.aff this) = false ->
  sharpsSkip this captype lkword form = false.
Proof.
  intros Hs. unfold sharpsSkip, Aff.isSharps. rewrite Hs. simpl.
  destruct (AffixForm.inDictionary form); [|reflexivity].
  rewrite !andb_false_r. reflexivity.
Qed.

(** Acceptance through affix forms alone carries over to the enlarged
    dictionary, and there to [correct] with all its options. *)
Lemma correct_add r d word caps allowNoSuggest :
  Aff.CHECKSHARPS aff = false ->
  correct r {| Lookup.aff := aff; Lookup.dic := d |} word
    (lkcAffixOnly caps allowNoSuggest) = true ->
  correct r {| Lookup.aff := aff; Lookup.dic := Dic.add d new |} word
    (lkcOfCheck caps allowNoSuggest) = true.
Proof.
  intros Hsharps. unfold correct, forms. simpl.
  destruct (if caps then _ else _) as [captype vs].
  rewrite !any_flat_map. apply existsb_impl. intros variant.
  rewrite !any_app, !any_map. simpl (any []). rewrite orb_false_r.
  rewrite !filter_all
    by (intros form; rewrite sharpsSkip_off by exact Hsharps; reflexivity).
  intros Hany. apply orb_true_iff. left.
  match goal with
  | Hany : any (affixForms r ?w _ _ _) = true |- _ =>
      apply (affixForms_add r w d allowNoSuggest false LKFlags.empty eq_refl eq_refl Hany)
  end.
Qed.

Lemma hasFlag_all_add d stem flag :
  Word.has new flag = false ->
  Dic.hasFlag d stem flag true = false ->
  Dic.hasFlag (Dic.add d new) stem flag true = false.
Proof.
  intros Hnew. unfold Dic.hasFlag. rewrite homonyms_add.
  destruct (homonyms_new stem false) as [-> | ->].
  - rewrite app_nil_r. trivial.
  - destruct (Dic.homonyms d stem false) as [|h hs]; simpl.
    + intros _. rewrite Hnew. reflexivity.
    + intros Hall. rewrite forallb_app. simpl. rewrite Hnew.
      rewrite andb_false_r. destruct (Word.has h flag); reflexivity.
Qed.

Lemma isForbidden_add d stem :
  Aff.FORBIDWARN aff && Word.has new (Aff.WARN aff) = false ->
  isForbidden {| Lookup.aff := aff; Lookup.dic := d |} stem = false ->
  isForbidden {| Lookup.aff := aff; Lookup.dic := Dic.add d new |} stem = false.
Proof.
  intros Hwarn. unfold isForbidden. simpl. intros Hf.
  apply orb_false_iff in Hf as [Hf Hw].
  rewrite (hasFlag_all_add d stem _ new_not_forbidden Hf). simpl.
  destruct (Aff.FORBIDWARN aff); [|reflexivity]. simpl in *.
  now apply hasFlag_all_add.
Qed.

End AddWord.

Lemma correct_with_compounds `{Externals} r this word caps allowNoSuggest :
  correct r this word (lkcAffixOnly caps allowNoSuggest) = true ->
  correct r this word (lkcOfCheck caps allowNoSuggest) = true.
Proof.
  unfold correct, forms. simpl.
  destruct (if caps then _ else _) as [captype vs].
  rewrite !any_flat_map. apply existsb_impl. intros variant.
  rewrite !any_app. simpl (any []). rewrite orb_false_r.
  intros ->. reflexivity.
Qed.

(** C8, as the code has it.  In an engine without CHECKSHARPS, a word
    that [check] accepts without the help of a compound form stays
    correct when a Word is added that carries no FORBIDDENWORD flag and,
    under FORBIDWARN, no WARN flag. *)
Theorem adding_word_keeps_affix_acceptance `{Externals} (r : Revision)
    (aff : Aff.t) (d : Dic.t) (new : Word.t) (word : string)
    (caps allowNoSuggest : bool) :
  Aff.CHECKSHARPS aff = false ->
  Word.has new (Aff.FORBIDDENWORD aff) = false ->
  Aff.FORBIDWARN aff && Word.has new (Aff.WARN aff) = false ->
  acceptedByAffixForms r {| Lookup.aff := aff; Lookup.dic := d |} word caps allowNoSuggest
  = true ->
  Lookup.correct (check r {| Lookup.aff := aff; Lookup.dic := d |} word caps allowNoSuggest)
  = true
  /\ Lookup.correct
       (check r {| Lookup.aff := aff; Lookup.dic := Dic.add d new |} word caps allowNoSuggest)
     = true.
Proof.
  intros Hsharps Hforb Hwarn Hacc.
  unfold acceptedByAffixForms in Hacc.
  apply andb_true_iff in Hacc as [Hnot Hacc].
  apply negb_true_iff in Hnot.
  split.
  - unfold check. rewrite Hnot.
    destruct (NUMBER_REGEX _) eqn:En; [reflexivity|].
    rewrite orb_false_l in Hacc.
    replace (existsb _ _) with true; [reflexivity|]. symmetry.
    revert Hacc. apply existsb_impl. intros words. apply forallb_impl. intros w.
    apply correct_with_compounds.
  - unfold check. rewrite (isForbidden_add aff new Hforb d word Hwarn Hnot).
    change (preprocess {| Lookup.aff := aff; Lookup.dic := Dic.add d new |} word)
      with (preprocess {| Lookup.aff := aff; Lookup.dic := d |} word).
    destruct (NUMBER_REGEX _) eqn:En; [reflexivity|].
    rewrite orb_false_l in Hacc.
    replace (existsb _ _) with true; [reflexivity|]. symmetry.
    revert Hacc. apply existsb_impl. intros words. apply forallb_impl. intros w.
    now apply correct_add.
Qed.

Lemma adding_word_keeps_affix_acceptance_witness :
  Aff.CHECKSHARPS Examples.hello_aff = false
  /\ Word.has Examples.world (Aff.FORBIDDENWORD Examples.hello_aff) = false
  /\ @acceptedByAffixForms Fixture.externals Methods Examples.hello_lookup "hellos" true true
     = true
  /\ Lookup.correct
       (@check Fixture.externals Methods
          {| Lookup.aff := Examples.hello_aff;
             Lookup.dic := Dic.add (Lookup.dic Examples.hello_lookup) Examples.world |}
          "hellos" true true)
     = true.
Proof.
  split; [reflexivity|]. split; [reflexivity|]. split; [reflexivity|].
  exact (proj2 (@adding_word_keeps_affix_acceptance Fixture.externals Methods
                  Examples.hello_aff (Lookup.dic Examples.hello_lookup) Examples.world
                  "hellos" true true eq_refl eq_refl eq_refl eq_refl)).
Defined.

(** C8, as stated, fails.  Under [COMPOUNDFLAG C] with [foo/C] and
    [bar/C], [foobar] is correct as the compound of the two.  The word
    [foo bar], which carries no flag at all, makes that compound a bad
    one once it is in the dictionary ([isBadCompound] looks the pair up
    as a single affix form), and [foobar] is no longer correct. *)
Lemma adding_pair_turns_compound_incorrect :
  Lookup.correct (@check Fixture.externals Methods Examples.compound_lookup "foobar" true true)
  = true
  /\ Lookup.correct
       (@check Fixture.externals Functions Examples.compound_lookup "foobar" true true)
     = true
  /\ Word.has Examples.pair_word (Aff.FORBIDDENWORD Examples.compound_aff) = false
  /\ Lookup.correct
       (@check Fixture.externals Methods Examples.compound_lookup_added "foobar" true true)
     = false
  /\ Lookup.correct
       (@check Fixture.externals Functions Examples.compound_lookup_added "foobar" true true)
     = false.
Proof. repeat split; vm_compute; reflexivity. Qed.

(** Scenarios S1 and S4 of the specification. *)
Example scenario_S1 :
  map (fun w => Lookup.correct
                  (@check Fixture.externals Functions Examples.hello_lookup w true true))
    ["hello"; "hellos"; "hellox"]
  = [true; true; false].
Proof. vm_compute. reflexivity. Qed.

Example scenario_S4 :
  map (fun w => Lookup.correct
                  (@check Fixture.externals Functions Examples.compound_lookup w true true))
    ["foobar"; "fo"]
  = [true; false].
Proof. vm_compute. reflexivity. Qed.

(** ** The fuel of the compound generators

    With a positive [COMPOUNDMIN] every nested call works on a proper
    suffix of its caller's word, and the generators yield the same forms
    for every fuel above the length of the word: [compoundFuel] loses
    none. *)

Lemma substring_length (s : string) (n m : nat) :
  (n + m <= String.length s)%nat -> String.length (String.substring n m s) = m.
Proof.
  revert n m. induction s as [|c s IH]; intros n m Hle; simpl in *.
  - destruct n, m; simpl in *; try reflexivity; lia.
  - destruct n as [|n].
    + destruct m as [|m]; [reflexivity|]. simpl. rewrite IH; [reflexivity|lia].
    + apply IH. lia.
Qed.

Lemma slice_rest_length (s : string) (p : Z) :
  1 <= p <= JS.len s ->
  (String.length (JS.slice s p None) < String.length s)%nat.
Proof.
  intros [Hlo Hhi]. unfold JS.slice, JS.clamp, JS.len in *.
  destruct (Z.ltb_spec p 0); [lia|].
  rewrite substring_length; lia.
Qed.

Lemma in_positions (lo hi pos : Z) : In pos (positions lo hi) -> lo <= pos < hi.
Proof.
  unfold positions. intros Hin.
  apply in_map_iff in Hin as [i [<- Hi]]. apply in_seq in Hi. lia.
Qed.

Lemma flat_map_ext_In {A B} (f g : A -> list B) (l : list A) :
  (forall x, In x l -> f x = g x) -> flat_map f l = flat_map g l.
Proof.
  induction l as [|a l IH]; intros Hfg; [reflexivity|].
  simpl. rewrite (Hfg a) by now left.
  rewrite IH; [reflexivity|]. intros x Hx. apply Hfg. now right.
Qed.

Lemma compoundsByFlags_fuel `{Externals} (r : Revision) (allowNoSuggest : bool)
    (fuel1 fuel2 : nat) (word : LKWord.t) (depth : Z) :
  1 <= Aff.COMPOUNDMIN (LKWord.aff word) ->
  (String.length (LKWord.word word) < fuel1)%nat ->
  (String.length (LKWord.word word) < fuel2)%nat ->
  compoundsByFlags fuel1 r word allowNoSuggest depth
  = compoundsByFlags fuel2 r word allowNoSuggest depth.
Proof.
  revert fuel2 word depth.
  induction fuel1 as [|fuel1 IH]; intros fuel2 word depth Hmin H1 H2; [lia|].
  destruct fuel2 as [|fuel2]; [lia|].
  simpl. f_equal.
  destruct (LKWord.length word <? _); [reflexivity|].
  destruct (_ && _); [reflexivity|].
  apply flat_map_ext_In. intros pos Hpos. apply in_positions in Hpos.
  assert (Hrest : (String.length (JS.slice (LKWord.word word) pos None)
                   < String.length (LKWord.word word))%nat).
  { apply slice_rest_length. unfold LKWord.length in Hpos. lia. }
  assert (Heq : forall p,
             compoundsByFlags fuel1 r
               (LKWord.setPos (LKWord.slice word pos None) p) allowNoSuggest (depth + 1)
             = compoundsByFlags fuel2 r
                 (LKWord.setPos (LKWord.slice word pos None) p) allowNoSuggest (depth + 1)).
  { intros p. apply IH; simpl; [exact Hmin|lia|lia]. }
  rewrite !Heq. reflexivity.
Qed.

Lemma compoundsByRules_fuel `{Externals} (fuel1 fuel2 : nat) (word : LKWord.t)
    (prev : list Word.t) (rules : option (list CompoundRule)) :
  1 <= Aff.COMPOUNDMIN (LKWord.aff word) ->
  (String.length (LKWord.word word) < fuel1)%nat ->
  (String.length (LKWord.word word) < fuel2)%nat ->
  compoundsByRules fuel1 word prev rules = compoundsByRules fuel2 word prev rules.
Proof.
  revert fuel2 word prev rules.
  induction fuel1 as [|fuel1 IH]; intros fuel2 word prev rules Hmin H1 H2; [lia|].
  destruct fuel2 as [|fuel2]; [lia|].
  simpl. f_equal.
  destruct (LKWord.length word <? _); [reflexivity|].
  destruct (_ && _); [reflexivity|].
  apply flat_map_ext_In. intros pos Hpos. apply in_positions in Hpos.
  assert (Hrest : (String.length (JS.slice (LKWord.word word) pos None)
                   < String.length (LKWord.word word))%nat).
  { apply slice_rest_length. unfold LKWord.length in Hpos. lia. }
  apply flat_map_ext_In. intros homonym _.
  destruct (any _); [|reflexivity].
  f_equal. apply IH; simpl; [exact Hmin|lia|lia].
Qed.

(** * Further properties *)

(** ** Splits of [breakWord] *)

Lemma filter_nonempty_parts (l : list string) (p : string) :
  In p (List.filter (fun s => negb (String.eqb s "")) l) -> p <> "".
Proof.
  intros Hin. apply filter_In in Hin as [_ Hp].
  apply negb_true_iff in Hp. now apply String.eqb_neq in Hp.
Qed.

Lemma filter_length_bound {A} (f : A -> bool) (l : list A) :
  (Datatypes.length (List.filter f l) <= Datatypes.length l)%nat.
Proof.
  induction l as [|a l IH]; simpl; [lia|].
  destruct (f a); simpl; lia.
Qed.

Lemma breakWord_budget_parts (budget : nat) (aff : Aff.t) (text : string)
    (split : list string) :
  In split (breakWord_budget budget aff text) ->
  (forall p, In p split -> p <> "")
  /\ (Datatypes.length split <= budget)%nat.
Proof.
  revert text split. induction budget as [|budget IH]; intros text split; simpl; [intros []|].
  intros [<-|Hin].
  - split; [intros p Hp; exact (filter_nonempty_parts [text] p Hp)|].
    destruct (negb (String.eqb text "")); simpl; lia.
  - apply in_flat_map in Hin as [pattern [_ Hin]].
    apply in_flat_map in Hin as [m [_ Hin]].
    apply in_map_iff in Hin as [breaking [<- Hbreaking]].
    split;
      [intros p Hp;
       exact (filter_nonempty_parts (JS.slice text 0 (Some (fst m)) :: breaking) p Hp)|].
    apply IH in Hbreaking as [_ Hlen].
    pose proof (filter_length_bound (fun s => negb (String.eqb s ""))
                  (JS.slice text 0 (Some (fst m)) :: breaking)) as Hf.
    simpl in Hf |- *. lia.
Qed.

(** X1. No split that [breakWord] yields holds an empty part: the pieces
    left empty by a BREAK match at the start or the end of the text are
    filtered out. *)
Theorem breakWord_parts_nonempty (aff : Aff.t) (text : string) (depth : nat)
    (split : list string) (p : string) :
  In split (breakWord aff text depth) -> In p split -> p <> "".
Proof.
  unfold breakWord. intros Hsplit Hp.
  apply breakWord_budget_parts in Hsplit as [Hne _]. now apply Hne.
Qed.

Lemma breakWord_parts_nonempty_witness :
  In ["foo"; "bar"] (breakWord Examples.compound_aff "-foo-bar" 0)
  /\ In "bar" ["foo"; "bar"]
  /\ "bar" <> "".
Proof.
  assert (Hs : In ["foo"; "bar"] (breakWord Examples.compound_aff "-foo-bar" 0))
    by (vm_compute; right; right; left; reflexivity).
  assert (Hp : In "bar" ["foo"; "bar"]) by (right; left; reflexivity).
  split; [exact Hs|]. split; [exact Hp|].
  exact (breakWord_parts_nonempty Examples.compound_aff "-foo-bar" 0 ["foo"; "bar"] "bar" Hs Hp).
Defined.

(** X2. The recursion of [breakWord] is capped: a call at depth [d]
    yields splits of at most [11 - d] parts, so a split of a word has at
    most eleven parts, and beyond depth 10 nothing is yielded. *)
Theorem breakWord_depth_cap (aff : Aff.t) (text : string) (depth : nat)
    (split : list string) :
  In split (breakWord aff text depth) ->
  (Datatypes.length split <= 11 - depth)%nat /\ (depth <= 10)%nat.
Proof.
  unfold breakWord. intros Hsplit.
  pose proof (breakWord_budget_parts _ _ _ _ Hsplit) as [_ Hlen].
  split; [exact Hlen|].
  destruct (11 - depth)%nat eqn:E; [destruct Hsplit|lia].
Qed.

Lemma breakWord_depth_cap_witness :
  In ["foo"; "bar"] (breakWord Examples.compound_aff "foo-bar" 0)
  /\ (Datatypes.length ["foo"; "bar"] <= 11 - 0)%nat /\ (0 <= 10)%nat.
Proof.
  assert (Hs : In ["foo"; "bar"] (breakWord Examples.compound_aff "foo-bar" 0))
    by (vm_compute; right; left; reflexivity).
  split; [exact Hs|].
  exact (breakWord_depth_cap Examples.compound_aff "foo-bar" 0 ["foo"; "bar"] Hs).
Defined.

(** ** Edge cases of [check] *)

(** X3. A word that is not forbidden and that ICONV and IGNORE reduce to
    the empty string is reported correct: if it is not taken for a number,
    its only unbroken split has no part left to look up. *)
Theorem check_empty_word_correct `{Externals} (r : Revision) (this : Lookup.t)
    (word : string) (caps allowNoSuggest : bool) :
  isForbidden this word = false ->
  preprocess this word = "" ->
  check r this word caps allowNoSuggest
  = {| Lookup.correct := true; Lookup.forbidden := false; Lookup.warn := isWarn this word |}.
Proof.
  intros Hf Hp. unfold check. rewrite Hf, Hp.
  destruct (NUMBER_REGEX ""); [reflexivity|].
  destruct (breakWord_head (Lookup.aff this) "") as [rest Hrest].
  rewrite Hrest. reflexivity.
Qed.

Lemma check_empty_word_correct_witness :
  @isForbidden Fixture.externals MoreExamples.ignore_lookup "--" = false
  /\ preprocess MoreExamples.ignore_lookup "--" = ""
  /\ Lookup.correct
       (@check Fixture.externals Methods MoreExamples.ignore_lookup "--" true true) = true.
Proof.
  split; [reflexivity|]. split; [reflexivity|].
  exact (f_equal Lookup.correct
           (@check_empty_word_correct Fixture.externals Methods
              MoreExamples.ignore_lookup "--" true true eq_refl eq_refl)).
Defined.

(** X4. Under FORBIDWARN a word whose homonyms all carry WARN is
    forbidden: [check] reports it incorrect, forbidden and warned,
    whatever else the dictionary holds for it. *)
Theorem check_forbidwarn `{Externals} (r : Revision) (this : Lookup.t)
    (word : string) (caps allowNoSuggest : bool) :
  Aff.FORBIDWARN (Lookup.aff this) = true ->
  isWarn this word = true ->
  check r this word caps allowNoSuggest
  = {| Lookup.correct := false; Lookup.forbidden := true; Lookup.warn := true |}.
Proof.
  intros Hfw Hw. unfold check.
  assert (Hf : isForbidden this word = true).
  { unfold isForbidden. unfold isWarn in Hw. rewrite Hfw, Hw. apply orb_true_r. }
  rewrite Hf, Hw. reflexivity.
Qed.

Lemma check_forbidwarn_witness :
  Aff.FORBIDWARN (Lookup.aff MoreExamples.warn_lookup) = true
  /\ @isWarn Fixture.externals MoreExamples.warn_lookup "foo" = true
  /\ @check Fixture.externals Functions MoreExamples.warn_lookup "foo" true true
     = {| Lookup.correct := false; Lookup.forbidden := true; Lookup.warn := true |}.
Proof.
  split; [reflexivity|]. split; [reflexivity|].
  exact (@check_forbidwarn Fixture.externals Functions MoreExamples.warn_lookup "foo"
           true true eq_refl eq_refl).
Defined.

(** ** What [affixForms] yields *)

Lemma includes_rootFlags (w : Word.t) (f : option Flag) :
  includes f (default ∅ (Word.flags w)) = Word.has w f.
Proof.
  unfold Word.has. destruct (Word.flags w); [reflexivity|].
  destruct f as [x|]; [|reflexivity]. simpl.
  apply bool_decide_eq_false. apply not_elem_of_empty.
Qed.

Section Yielded.
Context `{Externals}.

(** What a form that passes either validator is known to satisfy. *)
Lemma validate_true_inv r (c : AffixForm.t) (word : LKWord.t) (allowNoSuggest : bool) :
  validate r c word allowNoSuggest = true ->
  exists h,
    AffixForm.inDictionary c = Some h
    /\ (allowNoSuggest = false -> Word.has h (Aff.NOSUGGEST (LKWord.aff word)) = false)
    /\ caseRejects word h (default ∅ (Word.flags h)) = false
    /\ classFlagMissing (AffixForm.prefix c) (AffixForm.flags c) = false
    /\ classFlagMissing (AffixForm.suffix c) (AffixForm.flags c) = false
    /\ circumfixRejects (LKWord.aff word) c = false
    /\ (LKWord.pos word = None ->
        includes (Aff.ONLYINCOMPOUND (LKWord.aff word)) (AffixForm.flags c) = false).
Proof.
  assert (Hpos : forall gate : Aff.t -> option CompoundPos -> Flags -> bool,
             (forall a fl, gate a None fl
                           = if negb (includes (Aff.ONLYINCOMPOUND a) fl) then true else false) ->
             gate (LKWord.aff word) (LKWord.pos word) (AffixForm.flags c) = true ->
             LKWord.pos word = None ->
             includes (Aff.ONLYINCOMPOUND (LKWord.aff word)) (AffixForm.flags c) = false).
  { intros gate Hgate Hg Hp. rewrite Hp, Hgate in Hg.
    destruct (includes _ _); [discriminate|reflexivity]. }
  destruct r; simpl; [unfold AffixForm_valid|unfold validForm];
    destruct (AffixForm.inDictionary c) as [h|]; try discriminate;
    destruct (negb allowNoSuggest && _) eqn:Hns; try discriminate;
    destruct (caseRejects _ _ _) eqn:Hcase; try discriminate;
    (destruct (needaffixRejects _ _ _) || destruct (needaffixRejectsForm _ _ _));
    try discriminate;
    destruct (classFlagMissing (AffixForm.prefix c) _) eqn:Hp; try discriminate;
    destruct (classFlagMissing (AffixForm.suffix c) _) eqn:Hs; try discriminate;
    destruct (circumfixRejects _ _) eqn:Hc; try discriminate;
    intros Hgate; exists h; repeat split; trivial.
  - intros ->. simpl in Hns. now rewrite includes_rootFlags in Hns.
  - apply (Hpos positionGate); [reflexivity|exact Hgate].
  - intros ->. simpl in Hns. now rewrite includes_rootFlags in Hns.
  - apply (Hpos positionGateForm); [reflexivity|exact Hgate].
Qed.

Lemma homonyms_in_words (d : Dic.t) (stem : string) (ignorecase : bool) (h : Word.t) :
  In h (Dic.homonyms d stem ignorecase) -> In h (Dic.words d).
Proof. unfold Dic.homonyms. intros Hin. now apply filter_In in Hin as [Hin _]. Qed.

Lemma candidates_inv r word form allowNoSuggest homonyms (c : AffixForm.t) :
  In c (fst (candidates r word form allowNoSuggest homonyms)) ->
  exists h, In h homonyms
            /\ c = AffixForm.replace form (opts_inDictionary h)
            /\ validate r c word allowNoSuggest = true.
Proof.
  unfold candidates. simpl. intros Hin.
  apply filter_In in Hin as [Hin Hv].
  apply in_map_iff in Hin as [h [<- Hh]]. eauto.
Qed.

Lemma affixForms_step_inv r word allowNoSuggest withForbidden form yielded (c : AffixForm.t) :
  affixForms_step r word allowNoSuggest withForbidden form = Some yielded ->
  In c yielded ->
  (exists h, In h (Dic.words (LKWord.dic word))
             /\ c = AffixForm.replace form (opts_inDictionary h)
             /\ validate r c word allowNoSuggest = true)
  /\ (withForbidden = false ->
      hasForbidden word form (Dic.homonyms (LKWord.dic word) (AffixForm.stem form) false)
      = false).
Proof.
  unfold affixForms_step.
  destruct (any _ && _) eqn:Hret; [discriminate|].
  destruct (if any _ then _ else _) as [c1 found1] eqn:E1.
  destruct (if _ && _ && _ then _ else _) as [c2 found2] eqn:E2.
  intros Heq Hin. injection Heq as <-.
  split.
  - assert (Hfrom : forall hs, In c (fst (candidates r word form allowNoSuggest
                                           (Dic.homonyms (LKWord.dic word) hs.1 hs.2))) ->
                               exists h, In h (Dic.words (LKWord.dic word))
                                         /\ c = AffixForm.replace form (opts_inDictionary h)
                                         /\ validate r c word allowNoSuggest = true).
    { intros hs Hc. apply candidates_inv in Hc as [h [Hh [Hc Hv]]].
      exists h. split; [now apply homonyms_in_words in Hh|]. now split. }
    apply in_app_or in Hin as [Hin|Hin]; [|apply in_app_or in Hin as [Hin|Hin]].
    + destruct (any _) in E1.
      * change c1 with (fst (c1, found1)) in Hin. rewrite <- E1 in Hin.
        exact (Hfrom (AffixForm.stem form, false) Hin).
      * injection E1 as <- _. destruct Hin.
    + destruct (_ && _ && _) in E2.
      * change c2 with (fst (c2, found2)) in Hin. rewrite <- E2 in Hin.
        exact (Hfrom (lowercase (AffixForm.stem form), true) Hin).
      * injection E2 as <- _. destruct Hin.
    + destruct (found2 || _ || _); [destruct Hin|].
      destruct (bool_decide (guess _ _ = NO)); [|destruct Hin].
      exact (Hfrom (AffixForm.stem form, true) Hin).
  - intros ->. simpl in Hret.
    destruct (Dic.homonyms (LKWord.dic word) (AffixForm.stem form) false) eqn:Hh.
    + apply hasForbidden_nil.
    + simpl in Hret. exact Hret.
Qed.

Lemma affixForms_loop_inv r word allowNoSuggest withForbidden forms (c : AffixForm.t) :
  In c (affixForms_loop r word allowNoSuggest withForbidden forms) ->
  exists form yielded,
    In form forms
    /\ affixForms_step r word allowNoSuggest withForbidden form = Some yielded
    /\ In c yielded.
Proof.
  induction forms as [|form rest IH]; simpl; [intros []|].
  destruct (affixForms_step r word allowNoSuggest withForbidden form) as [yielded|] eqn:E;
    [|intros []].
  intros Hin. apply in_app_or in Hin as [Hin|Hin].
  - exists form, yielded. split; [now left|]. now split.
  - destruct (IH Hin) as [form' [y' [Hf [Hs Hc]]]].
    exists form', y'. split; [now right|]. now split.
Qed.

(** Every affix form comes from a decomposition of the word, bound to a
    dictionary entry, and has passed the validator. *)
Lemma affixForms_inv r word allowNoSuggest withForbidden flags (c : AffixForm.t) :
  In c (affixForms r word allowNoSuggest withForbidden flags) ->
  exists form h,
    In form (decompose word flags)
    /\ In h (Dic.words (LKWord.dic word))
    /\ c = AffixForm.replace form (opts_inDictionary h)
    /\ validate r c word allowNoSuggest = true
    /\ (withForbidden = false ->
        hasForbidden word form (Dic.homonyms (LKWord.dic word) (AffixForm.stem form) false)
        = false).
Proof.
  unfold affixForms. intros Hin.
  apply affixForms_loop_inv in Hin as [form [yielded [Hform [Hstep Hc]]]].
  destruct (affixForms_step_inv _ _ _ _ _ _ _ Hstep Hc) as [[h [Hh [Heq Hv]]] Hforb].
  exists form, h. repeat split; assumption.
Qed.

End Yielded.

Lemma replace_inDictionary (form : AffixForm.t) (h : Word.t) :
  AffixForm.inDictionary (AffixForm.replace form (opts_inDictionary h)) = Some h
  /\ AffixForm.stem (AffixForm.replace form (opts_inDictionary h)) = AffixForm.stem form
  /\ AffixForm.prefix (AffixForm.replace form (opts_inDictionary h)) = AffixForm.prefix form
  /\ AffixForm.suffix (AffixForm.replace form (opts_inDictionary h)) = AffixForm.suffix form
  /\ AffixForm.prefix2 (AffixForm.replace form (opts_inDictionary h)) = AffixForm.prefix2 form
  /\ AffixForm.suffix2 (AffixForm.replace form (opts_inDictionary h)) = AffixForm.suffix2 form.
Proof. repeat split; reflexivity. Qed.

(** X5. Every form that [affixForms] yields is bound to an entry of the
    dictionary, has the word as its text and has passed the validator of
    its path; nothing is yielded for a stem the dictionary lacks. *)
Theorem affixForms_yields_validated_entries `{Externals} (r : Revision) (word : LKWord.t)
    (allowNoSuggest withForbidden : bool) (flags : LKFlags.t) (c : AffixForm.t) :
  In c (affixForms r word allowNoSuggest withForbidden flags) ->
  exists h,
    AffixForm.inDictionary c = Some h
    /\ In h (Dic.words (LKWord.dic word))
    /\ AffixForm.text c = LKWord.word word
    /\ validate r c word allowNoSuggest = true.
Proof.
  intros Hin. pose proof (affixForms_text _ _ _ _ _ _ Hin) as Htext.
  apply affixForms_inv in Hin as [form [h [_ [Hh [-> [Hv _]]]]]].
  exists h. repeat split; assumption.
Qed.

Lemma hellos_yielded (allowNoSuggest : bool) :
  In MoreExamples.hellos_form
    (@affixForms Fixture.externals Functions MoreExamples.hellos allowNoSuggest false
       LKFlags.empty).
Proof. destruct allowNoSuggest; vm_compute; left; reflexivity. Qed.

Lemma affixForms_yields_validated_entries_witness :
  In MoreExamples.hellos_form
    (@affixForms Fixture.externals Functions MoreExamples.hellos true false LKFlags.empty)
  /\ exists h,
      AffixForm.inDictionary MoreExamples.hellos_form = Some h
      /\ In h (Dic.words (LKWord.dic MoreExamples.hellos))
      /\ AffixForm.text MoreExamples.hellos_form = LKWord.word MoreExamples.hellos
      /\ @validate Fixture.externals Functions MoreExamples.hellos_form MoreExamples.hellos true
         = true.
Proof.
  split; [exact (hellos_yielded true)|].
  exact (@affixForms_yields_validated_entries Fixture.externals Functions MoreExamples.hellos
           true false LKFlags.empty MoreExamples.hellos_form (hellos_yielded true)).
Defined.

(** X6. With [allowNoSuggest = false], as the suggester looks words up,
    no affix form rests on a dictionary entry that carries NOSUGGEST. *)
Theorem affixForms_without_nosuggest `{Externals} (r : Revision) (word : LKWord.t)
    (withForbidden : bool) (flags : LKFlags.t) (c : AffixForm.t) :
  In c (affixForms r word false withForbidden flags) ->
  exists h,
    AffixForm.inDictionary c = Some h
    /\ Word.has h (Aff.NOSUGGEST (LKWord.aff word)) = false.
Proof.
  intros Hin. apply affixForms_inv in Hin as [form [h [_ [_ [-> [Hv _]]]]]].
  apply validate_true_inv in Hv as [h' [Hh' [Hns _]]].
  exists h'. split; [exact Hh'|]. now apply Hns.
Qed.

Lemma affixForms_without_nosuggest_witness :
  In MoreExamples.plain_foo
    (@affixForms Fixture.externals Methods MoreExamples.nosuggest_word false false
       LKFlags.empty)
  /\ @affixForms Fixture.externals Methods MoreExamples.nosuggest_word false false
       LKFlags.empty = [MoreExamples.plain_foo]
  /\ exists h,
      AffixForm.inDictionary MoreExamples.plain_foo = Some h
      /\ Word.has h (Aff.NOSUGGEST (LKWord.aff MoreExamples.nosuggest_word)) = false.
Proof.
  assert (Hin : In MoreExamples.plain_foo
                  (@affixForms Fixture.externals Methods MoreExamples.nosuggest_word
                     false false LKFlags.empty))
    by (vm_compute; left; reflexivity).
  split; [exact Hin|]. split; [vm_compute; reflexivity|].
  exact (@affixForms_without_nosuggest Fixture.externals Methods MoreExamples.nosuggest_word
           false LKFlags.empty MoreExamples.plain_foo Hin).
Defined.

(** X7. An affix form of a word outside a compound never carries
    ONLYINCOMPOUND, and the class flag of its outer prefix and of its
    outer suffix is among the flags of the form: an affix is applied only
    to an entry (or under an affix) that opts into its class. *)
Theorem affixForms_outside_compound `{Externals} (r : Revision) (word : LKWord.t)
    (allowNoSuggest withForbidden : bool) (flags : LKFlags.t) (c : AffixForm.t) :
  In c (affixForms r word allowNoSuggest withForbidden flags) ->
  (LKWord.pos word = None ->
   includes (Aff.ONLYINCOMPOUND (LKWord.aff word)) (AffixForm.flags c) = false)
  /\ (forall p, AffixForm.prefix c = Some p -> Affix.flag p ∈ AffixForm.flags c)
  /\ (forall s, AffixForm.suffix c = Some s -> Affix.flag s ∈ AffixForm.flags c).
Proof.
  intros Hin. apply affixForms_inv in Hin as [form [h [_ [_ [Hc [Hv _]]]]]].
  apply validate_true_inv in Hv as [h' [_ [_ [_ [Hp [Hs [_ Hpos]]]]]]].
  split; [exact Hpos|]. split.
  - intros p Hpre. rewrite Hpre in Hp. simpl in Hp.
    apply negb_false_iff in Hp. now apply bool_decide_eq_true in Hp.
  - intros s Hsuf. rewrite Hsuf in Hs. simpl in Hs.
    apply negb_false_iff in Hs. now apply bool_decide_eq_true in Hs.
Qed.

Lemma affixForms_outside_compound_witness :
  In MoreExamples.hellos_form
    (@affixForms Fixture.externals Functions MoreExamples.hellos true false LKFlags.empty)
  /\ Affix.flag Examples.suffix_s ∈ AffixForm.flags MoreExamples.hellos_form.
Proof.
  split; [exact (hellos_yielded true)|].
  exact (proj2 (proj2 (@affixForms_outside_compound Fixture.externals Functions
                         MoreExamples.hellos true false LKFlags.empty
                         MoreExamples.hellos_form (hellos_yielded true)))
           Examples.suffix_s eq_refl).
Defined.

(** X8. An affix form bound to a KEEPCASE entry is yielded only for a word
    of the entry's own capitalization type, unless the entry's stem counts
    as a sharp-s stem under CHECKSHARPS. *)
Theorem affixForms_keepcase `{Externals} (r : Revision) (word : LKWord.t)
    (allowNoSuggest withForbidden : bool) (flags : LKFlags.t) (c : AffixForm.t)
    (h : Word.t) :
  In c (affixForms r word allowNoSuggest withForbidden flags) ->
  AffixForm.inDictionary c = Some h ->
  Word.has h (Aff.KEEPCASE (LKWord.aff word)) = true ->
  Aff.isSharps (LKWord.aff word) (Word.stem h) = false ->
  LKWord.type word = Word.capType h.
Proof.
  intros Hin Hh Hkeep Hsharps.
  apply affixForms_inv in Hin as [form [h0 [_ [_ [Hc [Hv _]]]]]].
  apply validate_true_inv in Hv as [h' [Hh' [_ [Hcase _]]]].
  rewrite Hh in Hh'. injection Hh' as <-.
  unfold caseRejects in Hcase.
  rewrite includes_rootFlags, Hkeep, Hsharps in Hcase. simpl in Hcase.
  rewrite !andb_true_r in Hcase.
  apply bool_decide_eq_false in Hcase.
  destruct (decide (LKWord.type word = Word.capType h)) as [Heq|Hne];
    [exact Heq|contradiction].
Qed.

Lemma affixForms_keepcase_witness :
  In MoreExamples.iPhone_form
    (@affixForms Fixture.externals Methods MoreExamples.iPhone true false LKFlags.empty)
  /\ LKWord.type MoreExamples.iPhone = HUH.
Proof.
  assert (Hin : In MoreExamples.iPhone_form
                  (@affixForms Fixture.externals Methods MoreExamples.iPhone true false
                     LKFlags.empty))
    by (vm_compute; left; reflexivity).
  split; [exact Hin|].
  exact (@affixForms_keepcase Fixture.externals Methods MoreExamples.iPhone true false
           LKFlags.empty MoreExamples.iPhone_form
           (Fixture.entry "iPhone" (Some {["K"]})) Hin eq_refl eq_refl eq_refl).
Defined.

(** Scenario S3 of the specification. *)
Example scenario_S3 :
  map (fun w => Lookup.correct
                  (@check Fixture.externals Methods MoreExamples.keepcase_lookup w true true))
    ["iphone"; "iPhone"]
  = [false; true].
Proof. vm_compute. reflexivity. Qed.

(** X9. Unless [withForbidden] is set, an affix form that has an affix, or
    that is a part of a compound, never rests on a stem one of whose exact
    homonyms carries FORBIDDENWORD. *)
Theorem affixForms_avoid_forbidden_stems `{Externals} (r : Revision) (word : LKWord.t)
    (allowNoSuggest : bool) (flags : LKFlags.t) (c : AffixForm.t) (h : Word.t) :
  In c (affixForms r word allowNoSuggest false flags) ->
  JS.truthy (Aff.FORBIDDENWORD (LKWord.aff word)) = true ->
  LKWord.pos word <> None \/ AffixForm.hasAffixes c = true ->
  In h (Dic.homonyms (LKWord.dic word) (AffixForm.stem c) false) ->
  Word.has h (Aff.FORBIDDENWORD (LKWord.aff word)) = false.
Proof.
  intros Hin Hconf Hscope Hh.
  apply affixForms_inv in Hin as [form [h0 [_ [_ [Hc [_ Hforb]]]]]].
  specialize (Hforb eq_refl). subst c.
  change (AffixForm.stem (AffixForm.replace form (opts_inDictionary h0)))
    with (AffixForm.stem form) in Hh.
  change (AffixForm.hasAffixes (AffixForm.replace form (opts_inDictionary h0)))
    with (AffixForm.hasAffixes form) in Hscope.
  unfold hasForbidden in Hforb. rewrite Hconf in Hforb. simpl in Hforb.
  destruct (bool_decide (LKWord.pos word = None) && negb (AffixForm.hasAffixes form)) eqn:E.
  - apply andb_true_iff in E as [Hp Ha]. apply bool_decide_eq_true in Hp.
    apply negb_true_iff in Ha. destruct Hscope as [Hs|Hs]; [contradiction|congruence].
  - destruct (Word.has h _) eqn:Hhas; [|reflexivity].
    assert (Hex : existsb (fun w => Word.has w (Aff.FORBIDDENWORD (LKWord.aff word)))
                    (Dic.homonyms (LKWord.dic word) (AffixForm.stem form) false) = true).
    { apply existsb_exists. exists h. now split. }
    congruence.
Qed.

Lemma affixForms_avoid_forbidden_stems_witness :
  In MoreExamples.hellos_form
    (@affixForms Fixture.externals Functions MoreExamples.guarded_hellos true false
       LKFlags.empty)
  /\ Word.has (Fixture.entry "hello" (Some {["A"]}))
       (Aff.FORBIDDENWORD (LKWord.aff MoreExamples.guarded_hellos)) = false.
Proof.
  assert (Hin : In MoreExamples.hellos_form
                  (@affixForms Fixture.externals Functions MoreExamples.guarded_hellos
                     true false LKFlags.empty))
    by (vm_compute; left; reflexivity).
  split; [exact Hin|].
  exact (@affixForms_avoid_forbidden_stems Fixture.externals Functions
           MoreExamples.guarded_hellos true LKFlags.empty MoreExamples.hellos_form
           (Fixture.entry "hello" (Some {["A"]})) Hin eq_refl (or_intror eq_refl)
           (or_introl eq_refl)).
Defined.

(** ** Shapes of the decomposed forms *)

Lemma desuffix_body_nested_forms self aff word flags crossproduct (f : AffixForm.t) :
  In f (desuffix_body self aff word flags crossproduct true) ->
  noPrefix f /\ isSome (AffixForm.suffix f) = true /\ AffixForm.suffix2 f = None
  /\ AffixForm.inDictionary f = None.
Proof.
  unfold desuffix_body. intros Hin.
  apply in_flat_map in Hin as [suffix [_ [<-|[]]]].
  repeat split; reflexivity.
Qed.

Lemma desuffix_forms aff word flags crossproduct nested (f : AffixForm.t) :
  In f (desuffix aff word flags crossproduct nested) ->
  noPrefix f /\ isSome (AffixForm.suffix f) = true /\ AffixForm.inDictionary f = None.
Proof.
  unfold desuffix. unfold desuffix_body at 1. intros Hin.
  apply in_flat_map in Hin as [suffix [_ [<-|Hin]]]; [repeat split; reflexivity|].
  destruct (negb nested); [|destruct Hin].
  apply in_map_iff in Hin as [form2 [<- Hform2]].
  apply desuffix_body_nested_forms in Hform2 as [[Hp Hp2] [Hs [_ Hd]]].
  unfold noPrefix, AffixForm.replace. simpl.
  rewrite Hp, Hp2, Hd. repeat split; try reflexivity.
  destruct (AffixForm.suffix form2); [reflexivity|discriminate].
Qed.

Lemma deprefix_body_nested_forms self aff word flags (f : AffixForm.t) :
  In f (deprefix_body self aff word flags true) ->
  noSuffix f /\ isSome (AffixForm.prefix f) = true /\ AffixForm.prefix2 f = None
  /\ AffixForm.inDictionary f = None.
Proof.
  unfold deprefix_body. intros Hin.
  apply in_flat_map in Hin as [prefix [_ [<-|[]]]].
  repeat split; reflexivity.
Qed.

Lemma deprefix_forms aff word flags nested (f : AffixForm.t) :
  In f (deprefix aff word flags nested) ->
  noSuffix f /\ isSome (AffixForm.prefix f) = true
  /\ (isSome (AffixForm.prefix2 f) = true -> Aff.COMPLEXPREFIXES aff = true)
  /\ AffixForm.inDictionary f = None.
Proof.
  unfold deprefix. unfold deprefix_body at 1. intros Hin.
  apply in_flat_map in Hin as [prefix [_ [<-|Hin]]];
    [repeat split; try reflexivity; discriminate|].
  destruct (negb nested && Aff.COMPLEXPREFIXES aff) eqn:E; [|destruct Hin].
  apply andb_true_iff in E as [_ Hcomplex].
  apply in_map_iff in Hin as [form2 [<- Hform2]].
  apply deprefix_body_nested_forms in Hform2 as [[Hs Hs2] [Hp [_ Hd]]].
  unfold noSuffix, AffixForm.replace. simpl.
  rewrite Hs, Hs2, Hd. repeat split; try reflexivity; [|intros _; exact Hcomplex].
  destruct (AffixForm.prefix form2); [reflexivity|discriminate].
Qed.

(** The three kinds of forms of [decompose]: the word itself, the forms
    that strip suffixes only, and the forms that strip a prefix. *)
Lemma decompose_forms (word : LKWord.t) (flags : LKFlags.t) (f : AffixForm.t) :
  In f (decompose word flags) ->
  f = identityForm (LKWord.word word)
  \/ (noPrefix f /\ isSome (AffixForm.suffix f) = true
      /\ (bool_decide (LKWord.pos word = None) || bool_decide (LKWord.pos word = Some END)
          || negb (bool_decide (LKFlags.suffix flags = ∅))) = true)
  \/ (isSome (AffixForm.prefix f) = true
      /\ (isSome (AffixForm.suffix2 f) = true -> isSome (AffixForm.suffix f) = true)
      /\ (isSome (AffixForm.suffix f) = true ->
          (bool_decide (LKWord.pos word = None) || bool_decide (LKWord.pos word = Some END)
           || negb (bool_decide (LKFlags.suffix flags = ∅))) = true)
      /\ (isSome (AffixForm.prefix2 f) = true ->
          Aff.COMPLEXPREFIXES (LKWord.aff word) = true)
      /\ (bool_decide (LKWord.pos word = None) || bool_decide (LKWord.pos word = Some BEGIN)
          || negb (bool_decide (LKFlags.prefix flags = ∅))) = true).
Proof.
  unfold decompose. intros [<-|Hin]; [now left|].
  right. apply in_app_or in Hin as [Hin|Hin].
  - left. destruct (_ || _ || _); [|destruct Hin].
    apply desuffix_forms in Hin as [Hp [Hs _]].
    split; [exact Hp|]. split; [exact Hs|reflexivity].
  - right.
    destruct (bool_decide (LKWord.pos word = None)
              || bool_decide (LKWord.pos word = Some BEGIN) || _); [|destruct Hin].
    apply in_flat_map in Hin as [form [Hform [<-|Hin]]].
    + apply deprefix_forms in Hform as [[Hs Hs2] [Hp [Hp2 _]]].
      rewrite Hs, Hs2.
      split; [exact Hp|]. split; [discriminate|]. split; [discriminate|].
      split; [exact Hp2|reflexivity].
    + destruct (bool_decide (LKWord.pos word = None)
                || bool_decide (LKWord.pos word = Some END) || _) eqn:Hallowed;
        [|destruct Hin].
      simpl in Hin.
      destruct (AffixForm.prefix form) as [p|] eqn:Hpre; [|destruct Hin].
      destruct (Affix.crossproduct p); [|destruct Hin].
      apply in_map_iff in Hin as [form2 [<- Hform2]].
      apply desuffix_forms in Hform2 as [[Hp Hp2] [Hs _]].
      unfold AffixForm.replace. simpl. rewrite Hp2.
      assert (Hsuf : isSome (AffixForm.suffix form2) = true) by exact Hs.
      split; [reflexivity|]. split; [intros _; exact Hsuf|].
      split; [reflexivity|]. split; [discriminate|reflexivity].
Qed.

(** X10. The decomposer yields the word itself first, and its other forms
    keep Hunspell's stacking rules: a form has an inner suffix only
    together with an outer one, an inner prefix only together with an
    outer one and only under COMPLEXPREFIXES, and no form is bound to a
    dictionary entry yet. *)
Theorem decompose_stacking (word : LKWord.t) (flags : LKFlags.t) (f : AffixForm.t) :
  In f (decompose word flags) ->
  (exists rest, decompose word flags = identityForm (LKWord.word word) :: rest)
  /\ (isSome (AffixForm.suffix2 f) = true -> isSome (AffixForm.suffix f) = true)
  /\ (isSome (AffixForm.prefix2 f) = true ->
      isSome (AffixForm.prefix f) = true /\ Aff.COMPLEXPREFIXES (LKWord.aff word) = true)
  /\ AffixForm.text f = LKWord.word word.
Proof.
  intros Hin. split; [eexists; reflexivity|].
  pose proof (decompose_text _ _ _ Hin) as Ht.
  apply decompose_forms in Hin as [->|[[[Hp Hp2] [Hs _]]|[Hp [Hs2 [_ [Hp2 _]]]]]].
  - split; [discriminate|]. split; [discriminate|reflexivity].
  - split; [intros _; exact Hs|]. rewrite Hp2. split; [discriminate|exact Ht].
  - split; [exact Hs2|]. split; [|exact Ht].
    intros H2. split; [exact Hp|now apply Hp2].
Qed.

Lemma decompose_stacking_witness :
  In (AffixForm.new "hellos" (Some "hello") (opts_suffix Examples.suffix_s))
    (decompose MoreExamples.hellos LKFlags.empty)
  /\ (exists rest,
        decompose MoreExamples.hellos LKFlags.empty = identityForm "hellos" :: rest)
  /\ AffixForm.text (AffixForm.new "hellos" (Some "hello") (opts_suffix Examples.suffix_s))
     = "hellos".
Proof.
  assert (Hin : In (AffixForm.new "hellos" (Some "hello") (opts_suffix Examples.suffix_s))
                  (decompose MoreExamples.hellos LKFlags.empty))
    by (vm_compute; right; left; reflexivity).
  split; [exact Hin|].
  destruct (decompose_stacking MoreExamples.hellos LKFlags.empty _ Hin)
    as [Hfirst [_ [_ Htext]]].
  split; [exact Hfirst|exact Htext].
Defined.

(** ** Compounds by flags and by rules *)

Section Compounds.
Context `{Externals}.

(** What [compoundsByFlags] yields is a single END form, at a depth other
    than 0, or a left piece of a cut followed by a compound of the rest,
    one level deeper. *)
Lemma compoundsByFlags_cases fuel r word allowNoSuggest depth (c : CompoundForm) :
  In c (compoundsByFlags (S fuel) r word allowNoSuggest depth) ->
  (depth <> 0
   /\ exists form,
       c = [form]
       /\ In form (affixForms r (LKWord.shift word END) allowNoSuggest false
                     (endFlags (LKWord.aff word))))
  \/ (exists pos form partial,
        c = form :: partial
        /\ Aff.COMPOUNDMIN (LKWord.aff word) * 2 <= LKWord.length word
        /\ (JS.truthyZ (Aff.COMPOUNDWORDMAX (LKWord.aff word)) = true ->
            depth <= default 0 (Aff.COMPOUNDWORDMAX (LKWord.aff word)))
        /\ Aff.COMPOUNDMIN (LKWord.aff word) <= pos
           < LKWord.length word - Aff.COMPOUNDMIN (LKWord.aff word) + 1
        /\ leftPiece r word allowNoSuggest depth pos form
        /\ In partial
             (compoundsByFlags fuel r
                (LKWord.setPos (LKWord.slice word pos None) (leftPos depth))
                allowNoSuggest (depth + 1))).
Proof.
  simpl. intros Hin. apply in_app_or in Hin as [Hin|Hin].
  - left. destruct (Z.eqb_spec depth 0); simpl in Hin; [destruct Hin|].
    split; [assumption|].
    apply in_map_iff in Hin as [form [<- Hform]]. exists form. now split.
  - right.
    destruct (Z.ltb_spec (LKWord.length word) (Aff.COMPOUNDMIN (LKWord.aff word) * 2));
      [destruct Hin|].
    destruct (JS.truthyZ (Aff.COMPOUNDWORDMAX (LKWord.aff word))
              && (default 0 (Aff.COMPOUNDWORDMAX (LKWord.aff word)) <? depth)) eqn:Hmax;
      [destruct Hin|].
    apply in_flat_map in Hin as [pos [Hpos Hin]].
    apply in_positions in Hpos.
    assert (Hdepth : JS.truthyZ (Aff.COMPOUNDWORDMAX (LKWord.aff word)) = true ->
                     depth <= default 0 (Aff.COMPOUNDWORDMAX (LKWord.aff word))).
    { intros Ht. rewrite Ht in Hmax. simpl in Hmax.
      apply Z.ltb_ge in Hmax. exact Hmax. }
    apply in_app_or in Hin as [Hin|Hin].
    + apply in_flat_map in Hin as [form [Hform Hin]].
      apply in_map_iff in Hin as [partial [<- Hpartial]].
      exists pos, form, partial. repeat split; try assumption; try lia.
      left. exact Hform.
    + destruct (Aff.SIMPLIFIEDTRIPLE (LKWord.aff word) && bool_decide _);
        [|destruct Hin].
      apply in_flat_map in Hin as [form [Hform Hin]].
      apply in_map_iff in Hin as [partial [<- Hpartial]].
      eexists pos, _, partial. repeat split; try eassumption; try lia.
      right. exists form. split; [exact Hform|reflexivity].
Qed.

(** The same for [compoundsByRules]. *)
Lemma compoundsByRules_cases fuel word prev rules (c : CompoundForm) :
  In c (compoundsByRules (S fuel) word prev rules) ->
  (prev <> [] /\ c = [identityForm (LKWord.word word)]
   /\ exists homonym,
       In homonym (Dic.homonyms (LKWord.dic word) (LKWord.word word) false)
       /\ existsb (fun rule => rule_match rule (Word.flagSets (prev ++ [homonym])) false)
            (default (Aff.COMPOUNDRULE (LKWord.aff word)) rules) = true)
  \/ (exists pos homonym partial,
        c = identityForm (JS.slice (LKWord.word word) 0 (Some pos)) :: partial
        /\ Aff.COMPOUNDMIN (LKWord.aff word) * 2 <= LKWord.length word
        /\ (JS.truthyZ (Aff.COMPOUNDWORDMAX (LKWord.aff word)) = true ->
            Z.of_nat (Datatypes.length prev)
            < default 0 (Aff.COMPOUNDWORDMAX (LKWord.aff word)))
        /\ Aff.COMPOUNDMIN (LKWord.aff word) <= pos
           < LKWord.length word - Aff.COMPOUNDMIN (LKWord.aff word) + 1
        /\ In homonym
             (Dic.homonyms (LKWord.dic word) (JS.slice (LKWord.word word) 0 (Some pos)) false)
        /\ In partial
             (compoundsByRules fuel (LKWord.slice word pos None) (prev ++ [homonym])
                (Some (List.filter
                         (fun rule => rule_match rule (Word.flagSets (prev ++ [homonym])) true)
                         (default (Aff.COMPOUNDRULE (LKWord.aff word)) rules))))).
Proof.
  simpl. intros Hin. apply in_app_or in Hin as [Hin|Hin].
  - left. destruct prev as [|p prev]; [destruct Hin|].
    split; [discriminate|]. simpl in Hin.
    apply in_flat_map in Hin as [homonym [Hh Hin]].
    destruct (existsb _ _) eqn:Hmatch; [|destruct Hin].
    destruct Hin as [<-|[]]. split; [reflexivity|]. exists homonym. now split.
  - right.
    destruct (Z.ltb_spec (LKWord.length word) (Aff.COMPOUNDMIN (LKWord.aff word) * 2));
      [destruct Hin|].
    destruct (JS.truthyZ (Aff.COMPOUNDWORDMAX (LKWord.aff word))
              && (default 0 (Aff.COMPOUNDWORDMAX (LKWord.aff word))
                  <=? Z.of_nat (Datatypes.length prev))) eqn:Hmax;
      [destruct Hin|].
    apply in_flat_map in Hin as [pos [Hpos Hin]].
    apply in_positions in Hpos.
    apply in_flat_map in Hin as [homonym [Hh Hin]].
    destruct (any _); [|destruct Hin].
    apply in_map_iff in Hin as [partial [<- Hpartial]].
    exists pos, homonym, partial. repeat split; try assumption; try lia.
    intros Ht. rewrite Ht in Hmax. simpl in Hmax. apply Z.leb_gt in Hmax. exact Hmax.
Qed.

Lemma compoundsByFlags_nonempty fuel r word allowNoSuggest depth (c : CompoundForm) :
  In c (compoundsByFlags fuel r word allowNoSuggest depth) ->
  (1 <= Datatypes.length c)%nat.
Proof.
  destruct fuel as [|fuel]; [intros []|]. intros Hin.
  apply compoundsByFlags_cases in Hin
    as [[_ [form [-> _]]]|[pos [form [partial [-> _]]]]]; simpl; lia.
Qed.

Lemma compoundsByRules_nonempty fuel word prev rules (c : CompoundForm) :
  In c (compoundsByRules fuel word prev rules) ->
  (1 <= Datatypes.length c)%nat.
Proof.
  destruct fuel as [|fuel]; [intros []|]. intros Hin.
  apply compoundsByRules_cases in Hin
    as [[_ [-> _]]|[pos [homonym [partial [-> _]]]]]; simpl; lia.
Qed.

(** What [compoundForms] yields comes from one of the two generators,
    started at depth 0 and with no previous parts, and is no bad
    compound. *)
Lemma compoundForms_inv r word allowNoSuggest (c : CompoundForm) :
  In c (compoundForms r word allowNoSuggest) ->
  isBadCompound r word c = false
  /\ (In c (compoundsByFlags (compoundFuel word) r word allowNoSuggest 0)
      \/ In c (compoundsByRules (compoundFuel word) word [] None)).
Proof.
  unfold compoundForms. intros Hin.
  destruct (JS.truthy (Aff.FORBIDDENWORD (LKWord.aff word)) && _); [destruct Hin|].
  apply in_app_or in Hin as [Hin|Hin].
  - destruct (_ || _); [|destruct Hin].
    apply filter_In in Hin as [Hin Hbad]. apply negb_true_iff in Hbad.
    split; [exact Hbad|now left].
  - destruct (any _); [|destruct Hin].
    apply filter_In in Hin as [Hin Hbad]. apply negb_true_iff in Hbad.
    split; [exact Hbad|now right].
Qed.

(** X11. Every compound that [compoundForms] yields has at least two
    parts: at depth 0 [compoundsByFlags] yields no single END form, and
    with no previous parts [compoundsByRules] yields no single word. *)
Theorem compoundForms_two_parts r word allowNoSuggest (c : CompoundForm) :
  In c (compoundForms r word allowNoSuggest) ->
  (2 <= Datatypes.length c)%nat.
Proof.
  intros Hin. apply compoundForms_inv in Hin as [_ [Hin|Hin]].
  - apply compoundsByFlags_cases in Hin
      as [[Hdepth _]|[pos [form [partial [-> [_ [_ [_ [_ Hpartial]]]]]]]]];
      [now destruct Hdepth|].
    apply compoundsByFlags_nonempty in Hpartial. simpl. lia.
  - apply compoundsByRules_cases in Hin
      as [[Hprev _]|[pos [homonym [partial [-> [_ [_ [_ [_ Hpartial]]]]]]]]];
      [now destruct Hprev|].
    apply compoundsByRules_nonempty in Hpartial. simpl. lia.
Qed.

End Compounds.

Lemma foobar_yielded (allowNoSuggest : bool) :
  In [Examples.part "foo" "foo"; Examples.part "bar" "bar"]
    (@compoundForms Fixture.externals Functions MoreExamples.foobar allowNoSuggest).
Proof. destruct allowNoSuggest; vm_compute; left; reflexivity. Qed.

Lemma compoundForms_two_parts_witness :
  In [Examples.part "foo" "foo"; Examples.part "bar" "bar"]
    (@compoundForms Fixture.externals Functions MoreExamples.foobar false)
  /\ (2 <= Datatypes.length [Examples.part "foo" "foo"; Examples.part "bar" "bar"])%nat.
Proof.
  split; [exact (foobar_yielded false)|].
  exact (@compoundForms_two_parts Fixture.externals Functions MoreExamples.foobar false _
           (foobar_yielded false)).
Defined.

Section CompoundParts.
Context `{Externals}.

Lemma slice_prefix_len (s : string) (p : Z) :
  0 <= p <= JS.len s -> JS.len (JS.slice s 0 (Some p)) = p.
Proof.
  intros Hp. unfold JS.slice, JS.clamp, JS.len in *.
  destruct (Z.ltb_spec p 0); [lia|]. change (0 <? 0) with false. cbv iota.
  rewrite substring_length; lia.
Qed.

Lemma slice_suffix_len (s : string) (p : Z) :
  0 <= p <= JS.len s -> JS.len (JS.slice s p None) = JS.len s - p.
Proof.
  intros Hp. unfold JS.slice, JS.clamp, JS.len in *.
  destruct (Z.ltb_spec p 0); [lia|].
  rewrite substring_length; lia.
Qed.

Lemma leftPiece_text r word allowNoSuggest depth pos (form : AffixForm.t) :
  leftPiece r word allowNoSuggest depth pos form ->
  AffixForm.text form = JS.slice (LKWord.word word) 0 (Some pos).
Proof.
  intros [Hin|[longer [_ ->]]]; [|reflexivity].
  apply affixForms_text in Hin. exact Hin.
Qed.

Lemma compoundsByFlags_part_lengths fuel r word allowNoSuggest depth (c : CompoundForm) :
  In c (compoundsByFlags fuel r word allowNoSuggest depth) ->
  depth = 0 \/ Aff.COMPOUNDMIN (LKWord.aff word) <= LKWord.length word ->
  Forall (fun part => Aff.COMPOUNDMIN (LKWord.aff word) <= JS.len (AffixForm.text part)) c.
Proof.
  revert word depth c. induction fuel as [|fuel IH]; intros word depth c Hin Hor;
    [destruct Hin|].
  apply compoundsByFlags_cases in Hin
    as [[Hd [form [-> Hform]]]
       |[pos [form [partial [-> [Hlen [_ [Hpos [Hpiece Hpartial]]]]]]]]].
  - apply affixForms_text in Hform. constructor; [|constructor].
    rewrite Hform. destruct Hor as [Hz|Hle]; [contradiction|exact Hle].
  - unfold LKWord.length in *.
    assert (Hnn : 0 <= JS.len (LKWord.word word)) by (unfold JS.len; lia).
    constructor.
    + rewrite (leftPiece_text _ _ _ _ _ _ Hpiece).
      destruct (Z.le_gt_cases (Aff.COMPOUNDMIN (LKWord.aff word)) 0) as [Hneg|Hposi].
      * unfold JS.len. lia.
      * rewrite slice_prefix_len; lia.
    + apply (IH _ _ _ Hpartial). right. simpl.
      destruct (Z.le_gt_cases (Aff.COMPOUNDMIN (LKWord.aff word)) 0) as [Hneg|Hposi].
      * unfold JS.len. lia.
      * rewrite slice_suffix_len; lia.
Qed.

Lemma compoundsByRules_part_lengths fuel word prev rules (c : CompoundForm) :
  In c (compoundsByRules fuel word prev rules) ->
  prev = [] \/ Aff.COMPOUNDMIN (LKWord.aff word) <= LKWord.length word ->
  Forall (fun part => Aff.COMPOUNDMIN (LKWord.aff word) <= JS.len (AffixForm.text part)) c.
Proof.
  revert word prev rules c.
  induction fuel as [|fuel IH]; intros word prev rules c Hin Hor; [destruct Hin|].
  apply compoundsByRules_cases in Hin
    as [[Hprev [-> _]]
       |[pos [homonym [partial [-> [Hlen [_ [Hpos [_ Hpartial]]]]]]]]].
  - constructor; [|constructor]. destruct Hor as [Hz|Hle]; [contradiction|exact Hle].
  - unfold LKWord.length in *.
    assert (Hnn : 0 <= JS.len (LKWord.word word)) by (unfold JS.len; lia).
    constructor.
    + simpl.
      destruct (Z.le_gt_cases (Aff.COMPOUNDMIN (LKWord.aff word)) 0) as [Hneg|Hposi].
      * unfold JS.len. lia.
      * rewrite slice_prefix_len; lia.
    + apply (IH _ _ _ _ Hpartial). right. simpl.
      destruct (Z.le_gt_cases (Aff.COMPOUNDMIN (LKWord.aff word)) 0) as [Hneg|Hposi].
      * unfold JS.len. lia.
      * rewrite slice_suffix_len; lia.
Qed.

(** X12. No part of a compound that [compoundForms] yields is shorter
    than COMPOUNDMIN: the cuts of both generators start at COMPOUNDMIN and
    leave COMPOUNDMIN characters for the rest. *)
Theorem compoundForms_parts_reach_compoundmin r word allowNoSuggest (c : CompoundForm) :
  In c (compoundForms r word allowNoSuggest) ->
  Forall (fun part => Aff.COMPOUNDMIN (LKWord.aff word) <= JS.len (AffixForm.text part)) c.
Proof.
  intros Hin. apply compoundForms_inv in Hin as [_ [Hin|Hin]].
  - apply (compoundsByFlags_part_lengths _ _ _ _ _ _ Hin). now left.
  - apply (compoundsByRules_part_lengths _ _ _ _ _ Hin). now left.
Qed.

Lemma compoundsByFlags_count fuel r word allowNoSuggest depth (n : Z) (c : CompoundForm) :
  Aff.COMPOUNDWORDMAX (LKWord.aff word) = Some n -> n <> 0 -> 0 <= depth ->
  In c (compoundsByFlags fuel r word allowNoSuggest depth) ->
  Z.of_nat (Datatypes.length c) <= 1 + Z.max 0 (n + 1 - depth).
Proof.
  revert word depth c. induction fuel as [|fuel IH]; intros word depth c Hmax Hn Hdepth Hin;
    [destruct Hin|].
  apply compoundsByFlags_cases in Hin
    as [[Hd [form [-> Hform]]]
       |[pos [form [partial [-> [_ [Hcap [_ [_ Hpartial]]]]]]]]].
  - simpl. lia.
  - rewrite Hmax in Hcap. simpl in Hcap.
    assert (Hle : depth <= n).
    { apply Hcap. destruct (Z.eqb_spec n 0); [contradiction|reflexivity]. }
    apply IH in Hpartial; [|exact Hmax|exact Hn|lia].
    simpl Datatypes.length. lia.
Qed.

Lemma compoundsByRules_count fuel word prev rules (n : Z) (c : CompoundForm) :
  Aff.COMPOUNDWORDMAX (LKWord.aff word) = Some n -> n <> 0 ->
  In c (compoundsByRules fuel word prev rules) ->
  Z.of_nat (Datatypes.length c) <= 1 + Z.max 0 (n - Z.of_nat (Datatypes.length prev)).
Proof.
  revert word prev rules c.
  induction fuel as [|fuel IH]; intros word prev rules c Hmax Hn Hin; [destruct Hin|].
  apply compoundsByRules_cases in Hin
    as [[Hprev [-> _]]
       |[pos [homonym [partial [-> [_ [Hcap [_ [_ Hpartial]]]]]]]]].
  - simpl. lia.
  - rewrite Hmax in Hcap. simpl in Hcap.
    assert (Hlt : Z.of_nat (Datatypes.length prev) < n).
    { apply Hcap. destruct (Z.eqb_spec n 0); [contradiction|reflexivity]. }
    apply IH in Hpartial; [|exact Hmax|exact Hn].
    rewrite length_app in Hpartial. simpl Datatypes.length in *. lia.
Qed.

(** X13. Under [COMPOUNDWORDMAX n] a compound that [compoundForms] yields
    has at most [n + 2] parts, and at most [n + 1] when it comes from the
    compound rules: [compoundsByFlags] still cuts at depth [n] and then
    closes with an END form, [compoundsByRules] stops cutting once [n]
    parts precede. *)
Theorem compoundForms_word_count r word allowNoSuggest (n : Z) (c : CompoundForm) :
  Aff.COMPOUNDWORDMAX (LKWord.aff word) = Some n -> n <> 0 ->
  In c (compoundForms r word allowNoSuggest) ->
  Z.of_nat (Datatypes.length c) <= n + 2
  /\ (In c (compoundsByRules (compoundFuel word) word [] None) ->
      Z.of_nat (Datatypes.length c) <= n + 1).
Proof.
  intros Hmax Hn Hin.
  assert (Hrules : In c (compoundsByRules (compoundFuel word) word [] None) ->
                   Z.of_nat (Datatypes.length c) <= n + 1).
  { intros Hr.
    assert (Hpos : 0 < n).
    { apply compoundsByRules_cases in Hr
        as [[Hprev _]|[pos [homonym [partial [_ [_ [Hcap _]]]]]]]; [now destruct Hprev|].
      rewrite Hmax in Hcap. simpl in Hcap. apply Hcap.
      destruct (Z.eqb_spec n 0); [contradiction|reflexivity]. }
    apply compoundsByRules_count with (n := n) in Hr; [|exact Hmax|exact Hn].
    simpl in Hr. lia. }
  split; [|exact Hrules].
  apply compoundForms_inv in Hin as [_ [Hin|Hin]].
  - assert (Hpos : 0 <= n).
    { apply compoundsByFlags_cases in Hin
        as [[Hdepth _]|[pos [form [partial [_ [_ [Hcap _]]]]]]]; [now destruct Hdepth|].
      rewrite Hmax in Hcap. simpl in Hcap. apply Hcap.
      destruct (Z.eqb_spec n 0); [contradiction|reflexivity]. }
    apply compoundsByFlags_count with (n := n) in Hin; [|exact Hmax|exact Hn|lia]. lia.
  - apply Hrules in Hin. lia.
Qed.

End CompoundParts.

Lemma compoundForms_parts_reach_compoundmin_witness :
  In [Examples.part "foo" "foo"; Examples.part "bar" "bar"]
    (@compoundForms Fixture.externals Functions MoreExamples.foobar false)
  /\ Forall (fun part => 3 <= JS.len (AffixForm.text part))
       [Examples.part "foo" "foo"; Examples.part "bar" "bar"].
Proof.
  split; [exact (foobar_yielded false)|].
  exact (@compoundForms_parts_reach_compoundmin Fixture.externals Functions
           MoreExamples.foobar false _ (foobar_yielded false)).
Defined.

Lemma foobarfoo_yielded :
  In [Examples.part "foo" "foo"; Examples.part "bar" "bar"; Examples.part "foo" "foo"]
    (@compoundForms Fixture.externals Functions MoreExamples.foobarfoo false).
Proof. vm_compute. left. reflexivity. Qed.

Lemma compoundForms_word_count_witness :
  Aff.COMPOUNDWORDMAX (LKWord.aff MoreExamples.foobarfoo) = Some 1
  /\ In [Examples.part "foo" "foo"; Examples.part "bar" "bar"; Examples.part "foo" "foo"]
       (@compoundForms Fixture.externals Functions MoreExamples.foobarfoo false)
  /\ Z.of_nat (Datatypes.length
                 [Examples.part "foo" "foo"; Examples.part "bar" "bar";
                  Examples.part "foo" "foo"]) <= 1 + 2.
Proof.
  split; [reflexivity|]. split; [exact foobarfoo_yielded|].
  exact (proj1 (@compoundForms_word_count Fixture.externals Functions
                  MoreExamples.foobarfoo false 1 _ eq_refl ltac:(discriminate)
                  foobarfoo_yielded)).
Defined.

Section CompoundAffixes.
Context `{Externals}.

(** Where [decompose] does not allow suffixes, [affixForms] yields forms
    without suffixes; the same for prefixes. *)
Lemma affixForms_no_suffix r word allowNoSuggest withForbidden flags (p : CompoundPos)
    (c : AffixForm.t) :
  In c (affixForms r word allowNoSuggest withForbidden flags) ->
  LKWord.pos word = Some p -> p <> END -> LKFlags.suffix flags = ∅ ->
  noSuffix c.
Proof.
  intros Hin Hpos Hp Hflags.
  apply affixForms_inv in Hin as [form [h [Hform [_ [-> _]]]]].
  assert (Hoff : (bool_decide (LKWord.pos word = None)
                  || bool_decide (LKWord.pos word = Some END)
                  || negb (bool_decide (LKFlags.suffix flags = ∅))) = false).
  { rewrite Hpos, Hflags.
    rewrite (bool_decide_eq_false_2 (Some p = None)) by discriminate.
    rewrite (bool_decide_eq_false_2 (Some p = Some END)) by congruence.
    rewrite (bool_decide_eq_true_2 (∅ = ∅)) by reflexivity. reflexivity. }
  apply decompose_forms in Hform as [->|[[_ [_ Hon]]|[_ [Hs2 [Hs _]]]]].
  - split; reflexivity.
  - rewrite Hoff in Hon. discriminate.
  - rewrite Hoff in Hs.
    destruct (AffixForm.suffix form) as [s|] eqn:Es; [now specialize (Hs eq_refl)|].
    destruct (AffixForm.suffix2 form) as [s2|] eqn:Es2; [now specialize (Hs2 eq_refl)|].
    split; simpl; [rewrite Es|rewrite Es2]; reflexivity.
Qed.

Lemma affixForms_no_prefix r word allowNoSuggest withForbidden flags (p : CompoundPos)
    (c : AffixForm.t) :
  In c (affixForms r word allowNoSuggest withForbidden flags) ->
  LKWord.pos word = Some p -> p <> BEGIN -> LKFlags.prefix flags = ∅ ->
  noPrefix c.
Proof.
  intros Hin Hpos Hp Hflags.
  apply affixForms_inv in Hin as [form [h [Hform [_ [-> _]]]]].
  assert (Hoff : (bool_decide (LKWord.pos word = None)
                  || bool_decide (LKWord.pos word = Some BEGIN)
                  || negb (bool_decide (LKFlags.prefix flags = ∅))) = false).
  { rewrite Hpos, Hflags.
    rewrite (bool_decide_eq_false_2 (Some p = None)) by discriminate.
    rewrite (bool_decide_eq_false_2 (Some p = Some BEGIN)) by congruence.
    rewrite (bool_decide_eq_true_2 (∅ = ∅)) by reflexivity. reflexivity. }
  apply decompose_forms in Hform as [->|[[[Hp1 Hp2] _]|[_ [_ [_ [_ Hon]]]]]].
  - split; reflexivity.
  - split; simpl; [rewrite Hp1|rewrite Hp2]; reflexivity.
  - rewrite Hoff in Hon. discriminate.
Qed.

Lemma flagSet_falsy (f : option Flag) : JS.truthy f = false -> flagSet f = ∅.
Proof. unfold flagSet. now intros ->. Qed.

Lemma leftPos_not_end (depth : Z) : leftPos depth <> END.
Proof. unfold leftPos. destruct (negb _); discriminate. Qed.

Lemma leftPiece_no_suffix r word allowNoSuggest depth pos (form : AffixForm.t) :
  JS.truthy (Aff.COMPOUNDPERMITFLAG (LKWord.aff word)) = false ->
  leftPiece r word allowNoSuggest depth pos form -> noSuffix form.
Proof.
  intros Hpermit [Hin|[longer [Hin ->]]].
  - apply (affixForms_no_suffix _ _ _ _ _ (leftPos depth) _ Hin);
      [reflexivity|apply leftPos_not_end|].
    simpl. now apply flagSet_falsy.
  - apply (affixForms_no_suffix _ _ _ _ _ (leftPos depth)) in Hin;
      [|reflexivity|apply leftPos_not_end|simpl; now apply flagSet_falsy].
    destruct Hin as [Hs Hs2]. split; simpl; [rewrite Hs|rewrite Hs2]; reflexivity.
Qed.

Lemma leftPiece_no_prefix r word allowNoSuggest depth pos (form : AffixForm.t) :
  JS.truthy (Aff.COMPOUNDPERMITFLAG (LKWord.aff word)) = false ->
  depth <> 0 ->
  leftPiece r word allowNoSuggest depth pos form -> noPrefix form.
Proof.
  intros Hpermit Hdepth Hpiece.
  assert (Hmid : leftPos depth = MIDDLE).
  { unfold leftPos. destruct (Z.eqb_spec depth 0); [contradiction|reflexivity]. }
  assert (Hflags : LKFlags.prefix (leftFlags (LKWord.aff word) depth) = ∅).
  { unfold leftFlags. rewrite Hmid. simpl. now apply flagSet_falsy. }
  destruct Hpiece as [Hin|[longer [Hin ->]]].
  - apply (affixForms_no_prefix _ _ _ _ _ MIDDLE _ Hin);
      [simpl; now rewrite Hmid|discriminate|exact Hflags].
  - apply (affixForms_no_prefix _ _ _ _ _ MIDDLE) in Hin;
      [|simpl; now rewrite Hmid|discriminate|exact Hflags].
    destruct Hin as [Hp Hp2]. split; simpl; [rewrite Hp|rewrite Hp2]; reflexivity.
Qed.

Lemma compoundsByFlags_affix_places fuel r word allowNoSuggest depth (c : CompoundForm) :
  JS.truthy (Aff.COMPOUNDPERMITFLAG (LKWord.aff word)) = false ->
  0 <= depth ->
  In c (compoundsByFlags fuel r word allowNoSuggest depth) ->
  Forall noSuffix (removelast c)
  /\ Forall noPrefix (if depth =? 0 then tail c else c).
Proof.
  revert word depth c.
  induction fuel as [|fuel IH]; intros word depth c Hpermit Hdepth Hin; [destruct Hin|].
  apply compoundsByFlags_cases in Hin
    as [[Hd [form [-> Hform]]]
       |[pos [form [partial [-> [_ [_ [_ [Hpiece Hpartial]]]]]]]]].
  - split; [constructor|].
    destruct (Z.eqb_spec depth 0); [contradiction|].
    constructor; [|constructor].
    apply (affixForms_no_prefix _ _ _ _ _ END _ Hform); [reflexivity|discriminate|].
    simpl. now apply flagSet_falsy.
  - pose proof (compoundsByFlags_nonempty _ _ _ _ _ _ Hpartial) as Hne.
    apply IH in Hpartial as [Hsuf Hpre]; [|exact Hpermit|lia].
    destruct (Z.eqb_spec (depth + 1) 0); [lia|].
    split.
    + destruct partial as [|second rest]; [simpl in Hne; lia|].
      change (removelast (form :: second :: rest))
        with (form :: removelast (second :: rest)).
      constructor; [|exact Hsuf].
      exact (leftPiece_no_suffix _ _ _ _ _ _ Hpermit Hpiece).
    + destruct (Z.eqb_spec depth 0) as [|Hnz]; [exact Hpre|].
      constructor; [|exact Hpre].
      exact (leftPiece_no_prefix _ _ _ _ _ _ Hpermit Hnz Hpiece).
Qed.

Lemma compoundsByRules_identity fuel word prev rules (c : CompoundForm) :
  In c (compoundsByRules fuel word prev rules) ->
  Forall (fun part => part = identityForm (AffixForm.text part)) c.
Proof.
  revert word prev rules c.
  induction fuel as [|fuel IH]; intros word prev rules c Hin; [destruct Hin|].
  apply compoundsByRules_cases in Hin
    as [[_ [-> _]]|[pos [homonym [partial [-> [_ [_ [_ [_ Hpartial]]]]]]]]].
  - constructor; [reflexivity|constructor].
  - constructor; [reflexivity|]. exact (IH _ _ _ _ Hpartial).
Qed.

(** X14. Without COMPOUNDPERMITFLAG, affixes sit only at the two ends of
    a compound that [compoundForms] yields: no part but the last has a
    suffix, and no part but the first has a prefix. *)
Theorem compoundForms_affixes_at_the_ends r word allowNoSuggest (c : CompoundForm) :
  JS.truthy (Aff.COMPOUNDPERMITFLAG (LKWord.aff word)) = false ->
  In c (compoundForms r word allowNoSuggest) ->
  Forall noSuffix (removelast c) /\ Forall noPrefix (tail c).
Proof.
  intros Hpermit Hin. apply compoundForms_inv in Hin as [_ [Hin|Hin]].
  - now apply compoundsByFlags_affix_places in Hin.
  - apply compoundsByRules_identity in Hin.
    assert (Hall : Forall (fun part => noSuffix part /\ noPrefix part) c).
    { eapply Forall_impl; [exact Hin|]. intros part ->. repeat split. }
    clear Hin. split.
    + induction Hall as [|part rest [Hs _] Hrest IH]; [constructor|].
      destruct rest as [|second rest]; [constructor|].
      change (removelast (part :: second :: rest))
        with (part :: removelast (second :: rest)).
      constructor; [exact Hs|exact IH].
    + destruct Hall as [|part rest _ Hrest]; [constructor|]. simpl.
      eapply Forall_impl; [exact Hrest|]. now intros part' [_ Hp].
Qed.

End CompoundAffixes.

Lemma foobars_yielded :
  In [Examples.part "foo" "foo"; MoreExamples.bars_form]
    (@compoundForms Fixture.externals Functions MoreExamples.foobars false).
Proof. vm_compute. left. reflexivity. Qed.

Lemma compoundForms_affixes_at_the_ends_witness :
  JS.truthy (Aff.COMPOUNDPERMITFLAG (LKWord.aff MoreExamples.foobars)) = false
  /\ In [Examples.part "foo" "foo"; MoreExamples.bars_form]
       (@compoundForms Fixture.externals Functions MoreExamples.foobars false)
  /\ Forall noSuffix [Examples.part "foo" "foo"]
  /\ Forall noPrefix [MoreExamples.bars_form].
Proof.
  split; [reflexivity|]. split; [exact foobars_yielded|].
  exact (@compoundForms_affixes_at_the_ends Fixture.externals Functions
           MoreExamples.foobars false _ eq_refl foobars_yielded).
Defined.

Section CompoundChecks.
Context `{Externals}.

Lemma validForm_carries (c : AffixForm.t) (word : LKWord.t) (allowNoSuggest : bool)
    (p : CompoundPos) :
  validForm c word allowNoSuggest = true ->
  LKWord.pos word = Some p ->
  carries (LKWord.aff word) p c = true.
Proof.
  unfold validForm, carries. intros Hv Hpos.
  destruct (AffixForm.inDictionary c) as [h|]; [|discriminate].
  destruct (negb allowNoSuggest && _); [discriminate|].
  destruct (caseRejects _ _ _); [discriminate|].
  destruct (needaffixRejectsForm _ _ _); [discriminate|].
  destruct (classFlagMissing (AffixForm.prefix c) _); [discriminate|].
  destruct (classFlagMissing (AffixForm.suffix c) _); [discriminate|].
  destruct (circumfixRejects _ _); [discriminate|].
  rewrite Hpos in Hv. unfold positionGateForm in Hv.
  destruct (includes (Aff.COMPOUNDFLAG (LKWord.aff word)) _); [reflexivity|].
  destruct p; exact Hv.
Qed.

Lemma affixForms_carries word allowNoSuggest withForbidden flags (p : CompoundPos)
    (c : AffixForm.t) :
  In c (affixForms Functions word allowNoSuggest withForbidden flags) ->
  LKWord.pos word = Some p ->
  carries (LKWord.aff word) p c = true.
Proof.
  intros Hin Hpos.
  apply affixForms_inv in Hin as [form [h [_ [_ [_ [Hv _]]]]]].
  now apply (validForm_carries _ _ allowNoSuggest).
Qed.

Lemma leftPiece_carries word allowNoSuggest depth pos (form : AffixForm.t) :
  leftPiece Functions word allowNoSuggest depth pos form ->
  carries (LKWord.aff word) (leftPos depth) form = true.
Proof.
  intros [Hin|[longer [Hin ->]]].
  - now apply (affixForms_carries _ _ _ _ (leftPos depth)) in Hin.
  - apply (affixForms_carries _ _ _ _ (leftPos depth)) in Hin; [|reflexivity].
    destruct longer. exact Hin.
Qed.

Lemma compoundsByFlags_positions fuel word allowNoSuggest depth (c : CompoundForm) :
  0 <= depth ->
  In c (compoundsByFlags fuel Functions word allowNoSuggest depth) ->
  exists init last,
    c = (init ++ [last])%list
    /\ carries (LKWord.aff word) END last = true
    /\ match init with
       | [] => depth <> 0
       | first :: middle =>
           carries (LKWord.aff word) (leftPos depth) first = true
           /\ Forall (fun part => carries (LKWord.aff word) MIDDLE part = true) middle
       end.
Proof.
  revert word depth c.
  induction fuel as [|fuel IH]; intros word depth c Hdepth Hin; [destruct Hin|].
  apply compoundsByFlags_cases in Hin
    as [[Hd [form [-> Hform]]]
       |[pos [form [partial [-> [_ [_ [_ [Hpiece Hpartial]]]]]]]]].
  - exists [], form. split; [reflexivity|]. split; [|exact Hd].
    now apply (affixForms_carries _ _ _ _ END) in Hform.
  - apply IH in Hpartial as [init [last [-> [Hlast Hinit]]]]; [|lia].
    exists (form :: init), last. split; [reflexivity|]. split; [exact Hlast|].
    split; [now apply leftPiece_carries in Hpiece|].
    destruct init as [|second middle]; [constructor|].
    destruct Hinit as [Hsecond Hmiddle]. constructor; [|exact Hmiddle].
    unfold leftPos in Hsecond.
    destruct (Z.eqb_spec (depth + 1) 0); [lia|exact Hsecond].
Qed.

(** X15. In the revision that validates with [validForm], the parts of a
    compound that [compoundsByFlags] yields for a whole word hold the flags
    of their places: the first COMPOUNDFLAG or COMPOUNDBEGIN, the last
    COMPOUNDFLAG or COMPOUNDEND, every part between COMPOUNDFLAG or
    COMPOUNDMIDDLE. *)
Theorem compoundsByFlags_parts_carry_position_flags fuel word allowNoSuggest
    (c : CompoundForm) :
  In c (compoundsByFlags fuel Functions word allowNoSuggest 0) ->
  exists first middle last,
    c = (first :: middle ++ [last])%list
    /\ carries (LKWord.aff word) BEGIN first = true
    /\ Forall (fun part => carries (LKWord.aff word) MIDDLE part = true) middle
    /\ carries (LKWord.aff word) END last = true.
Proof.
  intros Hin.
  apply compoundsByFlags_positions in Hin as [init [last [-> [Hlast Hinit]]]]; [|lia].
  destruct init as [|first middle]; [now destruct Hinit|].
  destruct Hinit as [Hfirst Hmiddle].
  exists first, middle, last. repeat split; assumption.
Qed.

Lemma badPairs_false_inv r word (n idx : Z) (pre post : list AffixForm.t)
    (left right : AffixForm.t) :
  badPairs r word n idx (pre ++ left :: right :: post)%list = false ->
  badPair r word n (idx + Z.of_nat (Datatypes.length pre)) left right = false.
Proof.
  revert idx. induction pre as [|a pre IH]; intros idx Hbad.
  - simpl in Hbad. apply orb_false_iff in Hbad as [Hbad _].
    simpl. now rewrite Z.add_0_r.
  - assert (Hrest : badPairs r word n (idx + 1) (pre ++ left :: right :: post)%list = false).
    { destruct pre as [|b pre]; simpl in Hbad |- *;
        apply orb_false_iff in Hbad as [_ Hbad]; exact Hbad. }
    apply IH in Hrest.
    replace (idx + Z.of_nat (Datatypes.length (a :: pre)))
      with (idx + 1 + Z.of_nat (Datatypes.length pre))
      by (simpl Datatypes.length; lia).
    exact Hrest.
Qed.

(** X16. Two neighbours of a compound that [compoundForms] yields do not
    spell a word when written with a space between them, match no
    CHECKCOMPOUNDPATTERN pattern, and under CHECKCOMPOUNDDUP the last two
    parts differ; CHECKCOMPOUNDDUP looks at the last pair only. *)
Theorem compoundForms_neighbours r word allowNoSuggest (pre post : list AffixForm.t)
    (left right : AffixForm.t) :
  In (pre ++ left :: right :: post)%list (compoundForms r word allowNoSuggest) ->
  spellsAs r word (AffixForm.text left ++ " " ++ AffixForm.text right) = false
  /\ Forall (fun pattern => pattern_match pattern left right = false)
       (Aff.CHECKCOMPOUNDPATTERN (LKWord.aff word))
  /\ (Aff.CHECKCOMPOUNDDUP (LKWord.aff word) = true -> post = [] ->
      AffixForm.text left <> AffixForm.text right).
Proof.
  intros Hin. apply compoundForms_inv in Hin as [Hbad _].
  unfold isBadCompound in Hbad.
  destruct (JS.truthy (Aff.FORCEUCASE (LKWord.aff word)) && _ && _ && _);
    [discriminate|].
  apply badPairs_false_inv in Hbad. unfold badPair in Hbad.
  destruct (Dic.hasFlag _ _ _ _); [discriminate|].
  destruct (spellsAs r word _) eqn:Hspell; [discriminate|].
  destruct (Aff.CHECKCOMPOUNDREP (LKWord.aff word) && _); [discriminate|].
  destruct (Aff.CHECKCOMPOUNDTRIPLE (LKWord.aff word) && _); [discriminate|].
  destruct (Aff.CHECKCOMPOUNDCASE (LKWord.aff word) && _); [discriminate|].
  destruct (any (Aff.CHECKCOMPOUNDPATTERN (LKWord.aff word)) && _) eqn:Hpat;
    [discriminate|].
  destruct (Aff.CHECKCOMPOUNDDUP (LKWord.aff word) && _) eqn:Hdup; [discriminate|].
  split; [reflexivity|]. split.
  - apply List.Forall_forall. intros pattern Hp.
    destruct (pattern_match pattern left right) eqn:Hm; [|reflexivity].
    assert (Hex : existsb (fun pattern => pattern_match pattern left right)
                    (Aff.CHECKCOMPOUNDPATTERN (LKWord.aff word)) = true)
      by (apply existsb_exists; exists pattern; now split).
    rewrite Hex, andb_true_r in Hpat.
    destruct (Aff.CHECKCOMPOUNDPATTERN (LKWord.aff word)); [destruct Hp|discriminate].
  - intros Hon -> Heq. rewrite Hon in Hdup. simpl in Hdup.
    rewrite (bool_decide_eq_true_2 _ Heq) in Hdup. simpl in Hdup.
    rewrite length_app in Hdup. simpl Datatypes.length in Hdup.
    apply Z.eqb_neq in Hdup. lia.
Qed.

End CompoundChecks.

Lemma compoundsByFlags_parts_carry_position_flags_witness :
  In [MoreExamples.positioned "foo" "B"; MoreExamples.positioned "bar" "E"]
    (@compoundsByFlags Fixture.externals (compoundFuel MoreExamples.foobar_positions)
       Functions MoreExamples.foobar_positions false 0)
  /\ exists first middle last,
      [MoreExamples.positioned "foo" "B"; MoreExamples.positioned "bar" "E"]
      = (first :: middle ++ [last])%list
      /\ carries (LKWord.aff MoreExamples.foobar_positions) BEGIN first = true
      /\ Forall (fun part => carries (LKWord.aff MoreExamples.foobar_positions) MIDDLE part
                             = true) middle
      /\ carries (LKWord.aff MoreExamples.foobar_positions) END last = true.
Proof.
  assert (Hin : In [MoreExamples.positioned "foo" "B"; MoreExamples.positioned "bar" "E"]
                  (@compoundsByFlags Fixture.externals
                     (compoundFuel MoreExamples.foobar_positions)
                     Functions MoreExamples.foobar_positions false 0))
    by (vm_compute; left; reflexivity).
  split; [exact Hin|].
  exact (@compoundsByFlags_parts_carry_position_flags Fixture.externals _ _ _ _ Hin).
Defined.

Lemma foofoobar_yielded :
  In ([Examples.part "foo" "foo"]
      ++ Examples.part "foo" "foo" :: Examples.part "bar" "bar" :: [])%list
    (@compoundForms Fixture.externals Functions MoreExamples.foofoobar false).
Proof. vm_compute. left. reflexivity. Qed.

Lemma compoundForms_neighbours_witness :
  In ([Examples.part "foo" "foo"]
      ++ Examples.part "foo" "foo" :: Examples.part "bar" "bar" :: [])%list
    (@compoundForms Fixture.externals Functions MoreExamples.foofoobar false)
  /\ Aff.CHECKCOMPOUNDDUP (LKWord.aff MoreExamples.foofoobar) = true
  /\ AffixForm.text (Examples.part "foo" "foo") <> AffixForm.text (Examples.part "bar" "bar").
Proof.
  split; [exact foofoobar_yielded|]. split; [reflexivity|].
  exact (proj2 (proj2 (@compoundForms_neighbours Fixture.externals Functions
                         MoreExamples.foofoobar false _ _ _ _ foofoobar_yielded))
           eq_refl eq_refl).
Defined.

(** ** The handler and the edits *)

Section Edits.
Context `{Externals}.

(** What [handle] does to the [handled] set: a suggestion that it returns
    has a text that was not handled before and is handled afterwards, and
    keeps its kind; when it returns nothing the set is as before. *)
Lemma handle_inv (this : Suggest.t) (word : string) (captype : CapType)
    (handled : gset string) (suggestion : Suggestion.t) (checkInclusion : bool) :
  match handle this word captype handled suggestion checkInclusion with
  | (Some emitted, handled') =>
      (Suggestion.text emitted ∉ handled)
      /\ handled' = {[ Suggestion.text emitted ]} ∪ handled
      /\ Suggestion.kind emitted = Suggestion.kind suggestion
  | (None, handled') => handled' = handled
  end.
Proof.
  unfold handle.
  match goal with
  | |- context [if isForbidden (Suggest.lookup this) ?t then _ else _] => set (text := t)
  end.
  clearbody text.
  destruct (isForbidden (Suggest.lookup this) text); [reflexivity|].
  set (out := match Aff.OCONV (Suggest.aff this) with
              | Some table => conv_match table text
              | None => text
              end).
  clearbody out.
  destruct (bool_decide (out ∈ handled)) eqn:Hin; [reflexivity|].
  destruct (checkInclusion && _); [reflexivity|].
  apply bool_decide_eq_false in Hin. simpl. repeat split. exact Hin.
Qed.

Lemma handleAll_inv (this : Suggest.t) (word : string) (captype : CapType)
    (candidates : list Suggestion.t) (limit : nat) (handled : gset string) :
  let out := fst (handleAll this word captype handled candidates limit) in
  let handled' := snd (handleAll this word captype handled candidates limit) in
  (Datatypes.length out <= limit)%nat
  /\ NoDup (map Suggestion.text out)
  /\ Forall (fun emitted => Suggestion.text emitted ∉ handled) out
  /\ handled' = list_to_set (map Suggestion.text out) ∪ handled.
Proof.
  revert limit handled.
  induction candidates as [|suggestion rest IH]; intros limit handled.
  - destruct limit; simpl; (split; [lia|]); (split; [constructor|]);
      (split; [constructor|]); now rewrite union_empty_l_L.
  - destruct limit as [|limit].
    + simpl. split; [lia|]. split; [constructor|]. split; [constructor|].
      now rewrite union_empty_l_L.
    + simpl.
      pose proof (handle_inv this word captype handled suggestion false) as Hh.
      destruct (handle this word captype handled suggestion false) as [[emitted|] handled1].
      * destruct Hh as [Hnew [-> Hkind]].
        specialize (IH limit ({[Suggestion.text emitted]} ∪ handled)).
        destruct (handleAll this word captype ({[Suggestion.text emitted]} ∪ handled)
                    rest limit) as [more handled2].
        simpl in IH |- *. destruct IH as [Hlen [Hnd [Hfresh ->]]].
        split; [lia|]. split.
        { constructor; [|exact Hnd]. intros Hdup.
          apply list_elem_of_In, in_map_iff in Hdup as [other [Heq Hother]].
          rewrite List.Forall_forall in Hfresh.
          apply Hfresh in Hother.
          apply Hother. rewrite Heq.
          apply elem_of_union_l. now apply elem_of_singleton. }
        split.
        { constructor; [exact Hnew|].
          eapply Forall_impl; [exact Hfresh|]. intros other Ho Hx.
          apply Ho. now apply elem_of_union_r. }
        simpl. rewrite (assoc_L (∪)). f_equal. apply (comm_L (∪)).
      * subst handled1. specialize (IH (S limit) handled). exact IH.
Qed.

(** X17. [edits] yields at most [limit] suggestions; their texts differ
    from one another, none of them was handled before, and afterwards the
    handled set holds exactly the texts it held and those yielded. *)
Theorem edits_bounded_and_distinct (r : Revision) (this : Suggest.t) (original : string)
    (captype : CapType) (handled : gset string)
    (permutations : list (Suggestion.t + MultiWordSuggestion.t))
    (limit : nat) (compounds : option bool) :
  let out := fst (edits r this original captype handled permutations limit compounds) in
  let handled' := snd (edits r this original captype handled permutations limit compounds) in
  (Datatypes.length out <= limit)%nat
  /\ NoDup (map Suggestion.text out)
  /\ Forall (fun emitted => Suggestion.text emitted ∉ handled) out
  /\ handled' = list_to_set (map Suggestion.text out) ∪ handled.
Proof. unfold edits. apply handleAll_inv. Qed.

End Edits.

(** ** Guesses of the n-gram builder *)

Lemma filterGuesses_from_unknown (this : NgramSuggestionBuilder.t) (seen : bool) (found : Z)
    (guesses : list (Z * string)) (value : string) :
  In value (filterGuesses_from this seen found guesses) ->
  In value (map snd guesses)
  /\ forall word, word ∈ NgramSuggestionBuilder.known this -> JS.includes word value = false.
Proof.
  revert seen found. induction guesses as [|[score v] rest IH]; intros seen found;
    [intros []|].
  simpl. destruct (seen && (score <=? 1000)); [intros []|].
  assert (Hstep : forall seen' found',
             In value
               (if negb (existsb (fun word => JS.includes word v)
                           (elements (NgramSuggestionBuilder.known this)))
                then v :: filterGuesses_from this seen' (found' + 1) rest
                else filterGuesses_from this seen' found' rest) ->
             (v = value \/ In value (map snd rest))
             /\ forall word, word ∈ NgramSuggestionBuilder.known this ->
                             JS.includes word value = false).
  { intros seen' found' Hin.
    destruct (existsb _ _) eqn:Hknown; simpl in Hin.
    - apply IH in Hin as [Hin Hun]. split; [now right|exact Hun].
    - destruct Hin as [<-|Hin].
      + split; [now left|]. intros word Hw.
        destruct (JS.includes word v) eqn:Hinc; [|reflexivity].
        assert (Hex : existsb (fun word => JS.includes word v)
                        (elements (NgramSuggestionBuilder.known this)) = true).
        { apply existsb_exists. exists word. split; [|exact Hinc].
          apply list_elem_of_In. now apply elem_of_elements. }
        congruence.
      + apply IH in Hin as [Hin Hun]. split; [now right|exact Hun]. }
  destruct (1000 <? score); [apply Hstep|].
  destruct (score <? -100); [|apply Hstep].
  destruct ((0 <? found) || NgramSuggestionBuilder.onlyMaxDiff this); [intros []|apply Hstep].
Qed.

(** X18. [filterGuesses] yields only values of the guesses it was given,
    and none that occurs inside a known suggestion. *)
Theorem filterGuesses_skips_known (this : NgramSuggestionBuilder.t)
    (guesses : list (Z * string)) (value : string) :
  In value (filterGuesses this guesses) ->
  In value (map snd guesses)
  /\ forall word, word ∈ NgramSuggestionBuilder.known this -> JS.includes word value = false.
Proof. apply filterGuesses_from_unknown. Qed.

Lemma filterGuesses_from_seen (this : NgramSuggestionBuilder.t) (found : Z)
    (guesses : list (Z * string)) :
  Forall (fun guess => fst guess <= 1000) guesses ->
  filterGuesses_from this true found guesses = [].
Proof.
  intros Hall. destruct Hall as [|[score value] rest Hle _]; [reflexivity|].
  simpl in *. destruct (Z.leb_spec score 1000); [reflexivity|lia].
Qed.

(** X19. When every guess scores below -100, [filterGuesses] yields
    nothing under ONLYMAXDIFF, and otherwise at most the first guess,
    which it yields unless it occurs inside a known suggestion. *)
Theorem filterGuesses_bad_guesses (this : NgramSuggestionBuilder.t)
    (guesses : list (Z * string)) :
  Forall (fun guess => fst guess < -100) guesses ->
  filterGuesses this guesses
  = match guesses with
    | [] => []
    | (_, value) :: _ =>
        if NgramSuggestionBuilder.onlyMaxDiff this
           || existsb (fun word => JS.includes word value)
                (elements (NgramSuggestionBuilder.known this))
        then []
        else [value]
    end.
Proof.
  intros Hall. destruct Hall as [|[score value] rest Hbad Hrest]; [reflexivity|].
  unfold filterGuesses. simpl in *.
  destruct (Z.ltb_spec 1000 score); [lia|].
  destruct (Z.ltb_spec score (-100)); [|lia].
  destruct (NgramSuggestionBuilder.onlyMaxDiff this); [reflexivity|]. simpl.
  assert (Hle : Forall (fun guess => fst guess <= 1000) rest).
  { eapply Forall_impl; [exact Hrest|]. intros guess Hg. simpl in Hg. lia. }
  rewrite !filterGuesses_from_seen by exact Hle.
  destruct (existsb _ _); reflexivity.
Qed.

Lemma filterGuesses_skips_known_witness :
  In "foo" (filterGuesses Examples.ngram_builder [(1200, "foo"); (-200, "bar")])
  /\ In "foo" (map snd [(1200, "foo"); (-200, "bar")])
  /\ forall word, word ∈ NgramSuggestionBuilder.known Examples.ngram_builder ->
                  JS.includes word "foo" = false.
Proof.
  assert (Hin : In "foo" (filterGuesses Examples.ngram_builder
                            [(1200, "foo"); (-200, "bar")]))
    by (vm_compute; left; reflexivity).
  split; [exact Hin|].
  exact (filterGuesses_skips_known Examples.ngram_builder _ "foo" Hin).
Defined.

Lemma filterGuesses_bad_guesses_witness :
  Forall (fun guess => fst guess < -100) [(-150, "foo"); (-200, "bar")]
  /\ filterGuesses Examples.ngram_builder [(-150, "foo"); (-200, "bar")] = ["foo"].
Proof.
  assert (Hall : Forall (fun guess : Z * string => fst guess < -100)
                   [(-150, "foo"); (-200, "bar")])
    by (repeat constructor).
  split; [exact Hall|].
  exact (filterGuesses_bad_guesses Examples.ngram_builder _ Hall).
Defined.

(** ** Words of the dictionary *)

Section DictionaryWords.
Context `{Externals}.

Lemma any_In {A} (l : list A) (x : A) : In x l -> any l = true.
Proof. destruct l; [intros []|reflexivity]. Qed.

Lemma hasForbidden_root (word : LKWord.t) (words : list Word.t) :
  LKWord.pos word = None ->
  hasForbidden word (identityForm (LKWord.word word)) words = false.
Proof.
  intros Hpos. unfold hasForbidden. rewrite Hpos.
  destruct (negb (JS.truthy _)); reflexivity.
Qed.

(** The form of the word itself, bound to a homonym that validates, is
    among the forms of a word outside compounds. *)
Lemma affixForms_root_yielded r word allowNoSuggest withForbidden flags (h : Word.t) :
  LKWord.pos word = None ->
  In h (Dic.homonyms (LKWord.dic word) (LKWord.word word) false) ->
  validate r (AffixForm.replace (identityForm (LKWord.word word)) (opts_inDictionary h))
    word allowNoSuggest = true ->
  In (AffixForm.replace (identityForm (LKWord.word word)) (opts_inDictionary h))
    (affixForms r word allowNoSuggest withForbidden flags).
Proof.
  intros Hpos Hh Hv. unfold affixForms, decompose.
  fold (identityForm (LKWord.word word)).
  set (others := (_ ++ _)%list). clearbody others.
  simpl affixForms_loop. unfold affixForms_step.
  change (AffixForm.stem (identityForm (LKWord.word word))) with (LKWord.word word).
  rewrite (any_In _ _ Hh), (hasForbidden_root _ _ Hpos), andb_false_r. simpl andb.
  cbv iota.
  set (c1 := candidates r word (identityForm (LKWord.word word)) allowNoSuggest
               (Dic.homonyms (LKWord.dic word) (LKWord.word word) false)).
  assert (Hc1 : In (AffixForm.replace (identityForm (LKWord.word word)) (opts_inDictionary h))
                  (fst c1)).
  { unfold c1, candidates. simpl. apply filter_In. split; [|exact Hv].
    apply in_map_iff. exists h. now split. }
  destruct c1 as [c1 found1]. simpl in Hc1.
  destruct (if _ && _ && _ then _ else _) as [c2 found2].
  apply in_or_app. left. apply in_or_app. now left.
Qed.

Lemma includes_empty (f : option Flag) : includes f ∅ = false.
Proof.
  destruct f as [x|]; [|reflexivity]. simpl.
  apply bool_decide_eq_false. apply not_elem_of_empty.
Qed.

(** A flagless entry validates as the form of its own stem. *)
Lemma validate_flagless r (word : LKWord.t) (allowNoSuggest : bool) (h : Word.t) :
  LKWord.pos word = None ->
  Word.flags h = None ->
  r = Methods \/ JS.truthy (Aff.NEEDAFFIX (LKWord.aff word)) = false ->
  validate r (AffixForm.replace (identityForm (LKWord.word word)) (opts_inDictionary h))
    word allowNoSuggest = true.
Proof.
  intros Hpos Hflags Hr.
  assert (Hall : AffixForm.flags
                   (AffixForm.replace (identityForm (LKWord.word word))
                      (opts_inDictionary h)) = ∅).
  { unfold AffixForm.flags. simpl. now rewrite Hflags. }
  assert (Hcase : caseRejects word h ∅ = false).
  { unfold caseRejects. rewrite includes_empty, andb_false_r. reflexivity. }
  assert (Hcirc : circumfixRejects (LKWord.aff word)
                    (AffixForm.replace (identityForm (LKWord.word word))
                       (opts_inDictionary h)) = false).
  { unfold circumfixRejects. simpl.
    destruct (JS.truthy (Aff.CIRCUMFIX (LKWord.aff word))); reflexivity. }
  destruct r; simpl; [unfold AffixForm_valid|unfold validForm];
    rewrite Hall; simpl AffixForm.inDictionary; cbv iota; rewrite Hflags; simpl default;
    rewrite includes_empty, andb_false_r, Hcase, Hcirc; simpl classFlagMissing;
    rewrite Hpos.
  - unfold needaffixRejects. simpl AffixForm.hasAffixes.
    rewrite includes_empty.
    destruct (JS.truthy (Aff.NEEDAFFIX _)); simpl; now rewrite includes_empty.
  - unfold needaffixRejectsForm. destruct Hr as [Hr| ->]; [discriminate|].
    simpl. now rewrite includes_empty.
Qed.

(** X20. A word that has a flagless entry in the dictionary is correct for
    [Lookup.correct], unless affix forms are switched off: the form of the
    word itself, bound to that entry, is among its forms.  With [caps] the
    word has to be among its own case variants; the later validator is
    covered when NEEDAFFIX is not set. *)
Theorem correct_accepts_flagless_entry (r : Revision) (this : Lookup.t) (word : string)
    (lkc : Lookup.LKC) (h : Word.t) :
  In h (Dic.homonyms (Lookup.dic this) word false) ->
  Word.flags h = None ->
  r = Methods \/ JS.truthy (Aff.NEEDAFFIX (Lookup.aff this)) = false ->
  Lookup.affixForms lkc <> Some false ->
  Lookup.caps lkc = Some false
  \/ In word (snd (variants (Aff.casing (Lookup.aff this)) word)) ->
  correct r this word lkc = true.
Proof.
  intros Hh Hflags Hr Haffix Hcaps. unfold correct, forms.
  assert (Hon : default true (Lookup.affixForms lkc) = true).
  { destruct (Lookup.affixForms lkc) as [[|]|]; try reflexivity. now destruct Haffix. }
  rewrite Hon.
  set (cv := if default true (Lookup.caps lkc)
             then variants (Aff.casing (Lookup.aff this)) word
             else (guess (Aff.casing (Lookup.aff this)) word, [word])).
  assert (Hvariant : In word (snd cv)).
  { unfold cv. destruct Hcaps as [->|Hin]; [now left|].
    destruct (default true (Lookup.caps lkc)); [exact Hin|now left]. }
  destruct cv as [captype vs]. simpl in Hvariant.
  set (lkword := {| LKWord.aff := Lookup.aff this; LKWord.dic := Lookup.dic this;
                    LKWord.word := word; LKWord.type := captype; LKWord.pos := None |}).
  set (form := AffixForm.replace (identityForm word) (opts_inDictionary h)).
  apply (any_In _ (inl form)).
  apply in_flat_map. exists word. split; [exact Hvariant|].
  apply in_or_app. left. apply in_map. apply filter_In. split.
  - apply (affixForms_root_yielded r (LKWord.to lkword word None)); [reflexivity|exact Hh|].
    apply (validate_flagless r (LKWord.to lkword word None)); [reflexivity|exact Hflags|].
    exact Hr.
  - unfold sharpsSkip, form. simpl AffixForm.inDictionary. cbv iota.
    replace (AffixForm.flags (AffixForm.replace (identityForm word) (opts_inDictionary h)))
      with (∅ : Flags) by (unfold AffixForm.flags; simpl; now rewrite Hflags).
    rewrite includes_empty, andb_false_r. reflexivity.
Qed.

(** X21. [stems] yields a stem exactly when [correct] holds of the word
    after ICONV and IGNORE: every form of the word gives at least one
    stem, a compound one for each of its parts. *)
Theorem stems_nonempty_iff_correct (r : Revision) (this : Lookup.t) (word : string)
    (lkc : Lookup.LKC) :
  stems r this word lkc <> [] <-> correct r this (preprocess this word) lkc = true.
Proof.
  unfold stems, correct.
  assert (Hparts : forall form, In form (forms r this (preprocess this word) lkc) ->
                     match form with
                     | inr compound => map AffixForm.stem compound
                     | inl form => [AffixForm.stem form]
                     end <> []).
  { intros [form|compound] Hin; [discriminate|].
    unfold forms in Hin. destruct (if default true (Lookup.caps lkc) then _ else _)
      as [captype vs].
    apply in_flat_map in Hin as [variant [_ Hin]].
    apply in_app_or in Hin as [Hin|Hin].
    - destruct (default true (Lookup.affixForms lkc)); [|destruct Hin].
      apply in_map_iff in Hin as [x [Hx _]]. discriminate.
    - destruct (default true (Lookup.compoundForms lkc)); [|destruct Hin].
      apply in_map_iff in Hin as [c [Hc Hin]]. injection Hc as ->.
      apply compoundForms_inv in Hin as [_ [Hin|Hin]];
        [apply compoundsByFlags_nonempty in Hin|apply compoundsByRules_nonempty in Hin];
        (destruct compound; [simpl in Hin; lia|discriminate]). }
  destruct (forms r this (preprocess this word) lkc) as [|form rest].
  - simpl. split; [intros Hne; now destruct Hne|discriminate].
  - split; [reflexivity|]. intros _. simpl.
    specialize (Hparts form (or_introl eq_refl)).
    destruct (match form with inl _ => _ | inr _ => _ end); [now destruct Hparts|discriminate].
Qed.

End DictionaryWords.

Lemma correct_accepts_flagless_entry_witness :
  In (Fixture.entry "foo" None)
    (@Dic.homonyms Fixture.externals Examples.ngram_dic "foo" false)
  /\ @correct Fixture.externals Functions
       {| Lookup.aff := Examples.ngram_aff; Lookup.dic := Examples.ngram_dic |}
       "foo" (lkcOfCheck false false) = true.
Proof.
  assert (Hin : In (Fixture.entry "foo" None)
                  (@Dic.homonyms Fixture.externals Examples.ngram_dic "foo" false))
    by (vm_compute; left; reflexivity).
  split; [exact Hin|].
  exact (@correct_accepts_flagless_entry Fixture.externals Functions
           {| Lookup.aff := Examples.ngram_aff; Lookup.dic := Examples.ngram_dic |}
           "foo" (lkcOfCheck false false) (Fixture.entry "foo" None)
           Hin eq_refl (or_intror eq_refl) ltac:(discriminate) (or_introl eq_refl)).
Defined.

(** ** Nesting of the compound generators *)

(** X22. With a positive COMPOUNDMIN the recursion of the two compound
    generators ends: every call works on a proper rest of the word of its
    caller, so that no nesting deeper than the length of the word adds a
    compound to what they yield. *)
Theorem compound_generators_nesting_bounded `{Externals} (r : Revision)
    (allowNoSuggest : bool) (fuel : nat) (word : LKWord.t) (depth : Z)
    (prev : list Word.t) (rules : option (list CompoundRule)) :
  1 <= Aff.COMPOUNDMIN (LKWord.aff word) ->
  (String.length (LKWord.word word) < fuel)%nat ->
  compoundsByFlags fuel r word allowNoSuggest depth
  = compoundsByFlags (compoundFuel word) r word allowNoSuggest depth
  /\ compoundsByRules fuel word prev rules
     = compoundsByRules (compoundFuel word) word prev rules.
Proof.
  intros Hmin Hfuel. split.
  - apply compoundsByFlags_fuel; [exact Hmin|exact Hfuel|unfold compoundFuel; lia].
  - apply compoundsByRules_fuel; [exact Hmin|exact Hfuel|unfold compoundFuel; lia].
Qed.

Lemma compound_generators_nesting_bounded_witness :
  1 <= Aff.COMPOUNDMIN (LKWord.aff MoreExamples.foobar)
  /\ (String.length (LKWord.word MoreExamples.foobar) < 100)%nat
  /\ @compoundsByFlags Fixture.externals 100 Functions MoreExamples.foobar false 0
     = @compoundsByFlags Fixture.externals (compoundFuel MoreExamples.foobar) Functions
         MoreExamples.foobar false 0.
Proof.
  assert (Hmin : 1 <= Aff.COMPOUNDMIN (LKWord.aff MoreExamples.foobar)) by (simpl; lia).
  assert (Hlen : (String.length (LKWord.word MoreExamples.foobar) < 100)%nat)
    by (simpl; lia).
  split; [exact Hmin|]. split; [exact Hlen|].
  exact (proj1 (@compound_generators_nesting_bounded Fixture.externals Functions false 100
                  MoreExamples.foobar 0 [] None Hmin Hlen)).
Defined.

(** ** Where the edits come from *)

Section EditsOrigin.
Context `{Externals}.

Lemma handleAll_origin (this : Suggest.t) (word : string) (captype : CapType)
    (candidates : list Suggestion.t) (limit : nat) (handled : gset string)
    (emitted : Suggestion.t) :
  In emitted (fst (handleAll this word captype handled candidates limit)) ->
  exists candidate,
    In candidate candidates /\ Suggestion.kind emitted = Suggestion.kind candidate.
Proof.
  revert limit handled.
  induction candidates as [|suggestion rest IH]; intros limit handled Hin.
  - destruct limit; destruct Hin.
  - destruct limit as [|limit]; [destruct Hin|]. simpl in Hin.
    pose proof (handle_inv this word captype handled suggestion false) as Hh.
    destruct (handle this word captype handled suggestion false) as [[first|] handled1].
    + destruct Hh as [_ [_ Hkind]].
      destruct (handleAll this word captype handled1 rest limit) as [more handled2] eqn:Hmore.
      destruct Hin as [<-|Hin].
      * exists suggestion. split; [now left|exact Hkind].
      * assert (Hin' : In emitted (fst (handleAll this word captype handled1 rest limit)))
          by now rewrite Hmore.
        apply IH in Hin' as [candidate [Hc Hk]]. exists candidate. split; [now right|exact Hk].
    + apply IH in Hin as [candidate [Hc Hk]]. exists candidate. split; [now right|exact Hk].
Qed.

Lemma Suggest_filter_inv (r : Revision) (this : Suggest.t)
    (suggestions : list (Suggestion.t + MultiWordSuggestion.t)) (compounds : option bool)
    (candidate : Suggestion.t) :
  In candidate (Suggest_filter r this suggestions compounds) ->
  (In (inl candidate) suggestions
   /\ Suggest_correct r this (Suggestion.text candidate) compounds = true)
  \/ (exists multi,
        In (inr multi) suggestions
        /\ Suggestion.kind candidate = MultiWordSuggestion.kind multi
        /\ Forall (fun word => Suggest_correct r this word compounds = true)
             (MultiWordSuggestion.words multi)
        /\ (candidate = MultiWordSuggestion.stringify multi None
            \/ (MultiWordSuggestion.allowDash multi = true
                /\ candidate = MultiWordSuggestion.stringify multi (Some "-")))).
Proof.
  unfold Suggest_filter. intros Hin.
  apply in_flat_map in Hin as [[single|multi] [Hs Hin]].
  - left. destruct (Suggest_correct r this (Suggestion.text single) compounds) eqn:Hc;
      [|destruct Hin].
    destruct Hin as [<-|[]]. now split.
  - right. exists multi.
    destruct (forallb _ _) eqn:Hall; [|destruct Hin].
    pose proof (proj1 (List.forallb_forall _ _) Hall) as Hwords. clear Hall.
    assert (Hall : Forall (fun word => Suggest_correct r this word compounds = true)
                     (MultiWordSuggestion.words multi))
      by (apply List.Forall_forall; exact Hwords).
    destruct Hin as [<-|Hin].
    + repeat split; try assumption. now left.
    + destruct (MultiWordSuggestion.allowDash multi) eqn:Hdash; [|destruct Hin].
      destruct Hin as [<-|[]]. repeat split; try assumption. right. now split.
Qed.

(** X23. Every suggestion that [edits] yields has the kind of a
    permutation that passed [filter]: a single suggestion whose text is
    correct, or a multi-word suggestion all of whose words are correct. *)
Theorem edits_come_from_correct_permutations (r : Revision) (this : Suggest.t)
    (original : string) (captype : CapType) (handled : gset string)
    (permutations : list (Suggestion.t + MultiWordSuggestion.t))
    (limit : nat) (compounds : option bool) (emitted : Suggestion.t) :
  In emitted (fst (edits r this original captype handled permutations limit compounds)) ->
  (exists single,
     In (inl single) permutations
     /\ Suggestion.kind emitted = Suggestion.kind single
     /\ Suggest_correct r this (Suggestion.text single) compounds = true)
  \/ (exists multi,
        In (inr multi) permutations
        /\ Suggestion.kind emitted = MultiWordSuggestion.kind multi
        /\ Forall (fun word => Suggest_correct r this word compounds = true)
             (MultiWordSuggestion.words multi)).
Proof.
  unfold edits. intros Hin.
  apply handleAll_origin in Hin as [candidate [Hc Hkind]].
  apply Suggest_filter_inv in Hc as [[Hc Hcorrect]|[multi [Hm [Hk [Hall _]]]]].
  - left. exists candidate. now repeat split.
  - right. exists multi. repeat split; [exact Hm|congruence|exact Hall].
Qed.

End EditsOrigin.

Lemma edits_come_from_correct_permutations_witness :
  In {| Suggestion.text := "foo"; Suggestion.kind := K_FORGOTCHAR |}
    (fst (@edits Fixture.externals Functions Examples.homonym_suggest "fo" NO ∅
            MoreExamples.fo_permutations 3 None))
  /\ ((exists single,
         In (inl single) MoreExamples.fo_permutations
         /\ K_FORGOTCHAR = Suggestion.kind single
         /\ @Suggest_correct Fixture.externals Functions Examples.homonym_suggest
              (Suggestion.text single) None = true)
      \/ (exists multi,
            In (inr multi) MoreExamples.fo_permutations
            /\ K_FORGOTCHAR = MultiWordSuggestion.kind multi
            /\ Forall (fun word => @Suggest_correct Fixture.externals Functions
                                     Examples.homonym_suggest word None = true)
                 (MultiWordSuggestion.words multi))).
Proof.
  assert (Hin : In {| Suggestion.text := "foo"; Suggestion.kind := K_FORGOTCHAR |}
                  (fst (@edits Fixture.externals Functions Examples.homonym_suggest "fo" NO ∅
                          MoreExamples.fo_permutations 3 None)))
    by (vm_compute; left; reflexivity).
  split; [exact Hin|].
  exact (@edits_come_from_correct_permutations Fixture.externals Functions
           Examples.homonym_suggest "fo" NO ∅ MoreExamples.fo_permutations 3 None _ Hin).
Defined.
